(** * Simulation kernel of the supply-chain simulator

    A shallow embedding of the event scheduler
    ([src/simulation_core/event_manager.py]), the disruption agent
    ([src/agents/disruption_agent.py]), the simulation loop
    ([src/simulation_core/engine.py]) and the network model
    ([src/supply_chain_network/network_model.py]), followed by the
    properties established for them.

    Python objects are records, mutation is explicit state passing, and
    everything a function does besides changing its object (log records,
    calls of callables the kernel does not own) is collected, in program
    order, in a list of [Effect]s.  A call either returns or raises. *)

From Stdlib Require Import ZArith List String Bool Lia Sorted Permutation.
From Stdlib Require Import DecimalString.
Import ListNotations.

Local Open Scope string_scope.
Local Open Scope Z_scope.

(* ===================================================================== *)
(** * Python runtime *)
(* ===================================================================== *)

Module Py.

(** Levels of the [logging] module used by the sources. *)
Inductive Level := DEBUG | INFO | WARNING | ERROR.

(** The exceptions that occur in the embedded code.  All of them derive
    from [Exception], so an [except Exception] clause catches each one. *)
Inductive Exc :=
| AttributeError (msg : string)
| TypeError (msg : string)
| ValueError (msg : string)
| NotImplementedError (msg : string)
| NetworkXNoPath (msg : string)
| NodeNotFound (msg : string)
| RuntimeError (msg : string).

(** [str(e)] *)
Definition exc_str (e : Exc) : string :=
  match e with
  | AttributeError m | TypeError m | ValueError m | NotImplementedError m
  | NetworkXNoPath m | NodeNotFound m | RuntimeError m => m
  end.

(** Outcome of a call. *)
Inductive Result (A : Type) :=
| Returned (a : A)
| Raised (e : Exc).
Arguments Returned {A} a.
Arguments Raised {A} e.

Definition bind {A B} (r : Result A) (k : A -> Result B) : Result B :=
  match r with
  | Returned a => k a
  | Raised e => Raised e
  end.

Definition is_raised {A} (r : Result A) : bool :=
  match r with Raised _ => true | Returned _ => false end.

(** [str(n)] of an integer, as an f-string prints it. *)
Definition str_Z (z : Z) : string := NilZero.string_of_int (Z.to_int z).
Definition str_nat (n : nat) : string := str_Z (Z.of_nat n).
Definition str_bool (b : bool) : string := if b then "True" else "False".

(** What a method does besides updating its object: it writes log records
    and calls things.  [C] is the type of the calls that are recorded. *)
Inductive Effect (C : Type) :=
| Log (lvl : Level) (msg : string)
| Call (c : C).
Arguments Log {C} lvl msg.
Arguments Call {C} c.

(** The calls of a trace, in call order. *)
Fixpoint calls {C} (fx : list (Effect C)) : list C :=
  match fx with
  | [] => []
  | Call c :: fx' => c :: calls fx'
  | Log _ _ :: fx' => calls fx'
  end.

(** The log records of a trace, in order. *)
Fixpoint logs {C} (fx : list (Effect C)) : list (Level * string) :=
  match fx with
  | [] => []
  | Log l m :: fx' => (l, m) :: logs fx'
  | Call _ :: fx' => logs fx'
  end.

Definition lift {C D} (f : C -> D) (x : Effect C) : Effect D :=
  match x with
  | Log l m => Log l m
  | Call c => Call (f c)
  end.

(** An external callable together with what calling it does: the kernel
    never looks inside a callable, it only calls it and sees whether the
    call returns or raises.  Callables modelled here do not call back into
    the object that invokes them. *)
Record Callable := {
  fn_name : string;
  fn_raises : option Exc
}.

Definition call (f : Callable) : Result unit :=
  match fn_raises f with
  | Some e => Raised e
  | None => Returned tt
  end.

(** The messages logged at level [ERROR] in a trace, in order. *)
Fixpoint errors {C} (fx : list (Effect C)) : list string :=
  match fx with
  | [] => []
  | Log ERROR m :: fx' => m :: errors fx'
  | _ :: fx' => errors fx'
  end.

End Py.

Notation "x <- r ;; k" := (Py.bind r (fun x => k))
  (at level 61, r at next level, right associativity).

(* ===================================================================== *)
(** * src/simulation_core/event_manager.py *)
(* ===================================================================== *)

Module EventManager.
Import Py.

Inductive EventType :=
| GENERAL | DISRUPTION_START | DISRUPTION_END | POLICY_CHANGE | AGENT_ACTION.

(** [event_type.name] *)
Definition type_name (t : EventType) : string :=
  match t with
  | GENERAL => "GENERAL"
  | DISRUPTION_START => "DISRUPTION_START"
  | DISRUPTION_END => "DISRUPTION_END"
  | POLICY_CHANGE => "POLICY_CHANGE"
  | AGENT_ACTION => "AGENT_ACTION"
  end.

(** class [Event].  [ev_id] stands for the identity of the Python object:
    the manager creates the [n]-th event it accepts with identity [n], and
    two events with equal fields are still two events. *)
Record Event := {
  ev_id : nat;
  step : Z;
  event_type : EventType;
  action : Callable;
  args : list string;
  kwargs : list (string * string);
  description : string;
  triggered : bool
}.

(** [Event.__init__] *)
Definition Event_init (id : nat) (step : Z) (event_type : EventType)
    (action : Callable) (description : string) (args : list string)
    (kwargs : list (string * string)) : Event :=
  {| ev_id := id;
     step := step;
     event_type := event_type;
     action := action;
     args := args;
     kwargs := kwargs;
     description :=
       if String.eqb description EmptyString
       then "Event type " ++ type_name event_type
       else description;
     triggered := false |}.

Definition set_triggered (e : Event) (b : bool) : Event :=
  {| ev_id := ev_id e; step := step e; event_type := event_type e;
     action := action e; args := args e; kwargs := kwargs e;
     description := description e; triggered := b |}.

(** [Event.__repr__] *)
Definition Event_repr (e : Event) : string :=
  "<Event(step=" ++ str_Z (step e) ++ ", type=" ++ type_name (event_type e)
  ++ ", desc='" ++ description e ++ "', triggered="
  ++ str_bool (triggered e) ++ ")>".

(** [Event.__lt__] between two events *)
Definition Event_lt (self other : Event) : bool := step self <? step other.

(** The calls recorded for the event manager are the calls of event
    actions: [Call e] stands for [e.action] being called on [e.args] and
    [e.kwargs]. *)
Abbreviation Effect := (Py.Effect Event).

(** [Event.trigger] *)
Definition trigger (self : Event) : Event * list Effect :=
  if negb (triggered self) then
    let entry :=
      [Log INFO ("Triggering event: " ++ description self ++ " at step "
                 ++ str_Z (step self));
       Call self] in
    match call (action self) with
    | Returned _ => (set_triggered self true, entry)
    | Raised e =>
        (self,
         (entry ++ [Log ERROR ("Error executing event action for '"
                               ++ description self ++ "': " ++ exc_str e)])%list)
    end
  else
    (self,
     [Log WARNING ("Event '" ++ description self
                   ++ "' attempted to trigger multiple times.")]).

(** [list.sort()] on a list of events.  Python's sort is stable and
    compares with [__lt__] only; the stable insertion sort below returns
    the same list. *)
Fixpoint insert_sorted (x : Event) (l : list Event) : list Event :=
  match l with
  | [] => [x]
  | y :: l' => if Event_lt y x then y :: insert_sorted x l' else x :: y :: l'
  end.

Definition list_sort (l : list Event) : list Event :=
  fold_right insert_sorted [] l.

(** class [EventManager].  [self.env] belongs to simpy; the one thing read
    from it, [self.env.now], is passed to [schedule_event] as [now]. *)
Record EventManager := {
  event_queue : list Event;
  next_id : nat
}.

(** [EventManager.__init__] *)
Definition EventManager_init : EventManager * list Effect :=
  ({| event_queue := []; next_id := 0 |}, [Log INFO "EventManager initialized."]).

Definition new_manager : EventManager := fst EventManager_init.

(** [EventManager.schedule_event] *)
Definition schedule_event (self : EventManager) (now : Z) (step : Z)
    (event_type : EventType) (action : Callable) (description : string)
    (args : list string) (kwargs : list (string * string))
  : EventManager * list Effect :=
  if step <? now then
    (self,
     [Log WARNING ("Attempted to schedule event '" ++ description
                   ++ "' for past step " ++ str_Z step ++ " (current: "
                   ++ str_Z now ++ "). Skipping.")])
  else
    let event :=
      Event_init (next_id self) step event_type action description args kwargs in
    ({| event_queue := list_sort (event_queue self ++ [event])%list;
        next_id := S (next_id self) |},
     [Log DEBUG ("Scheduled event: " ++ Event_repr event)]).

(** The test of the partition loop of [process_events]. *)
Definition due (current_step : Z) (event : Event) : bool :=
  (step event =? current_step) && negb (triggered event).

(** [EventManager.process_events]; the third component is the returned
    [triggered_count]. *)
Definition process_events (self : EventManager) (current_step : Z)
  : EventManager * list Effect * Z :=
  let (events_to_trigger_now, remaining_events) :=
    partition (due current_step) (event_queue self) in
  let self' :=
    {| event_queue := remaining_events; next_id := next_id self |} in
  match events_to_trigger_now with
  | [] => (self', [], 0)
  | _ :: _ =>
      (self',
       Log INFO ("Processing "
                 ++ str_nat (List.length events_to_trigger_now)
                 ++ " events for step " ++ str_Z current_step ++ ".")
       :: flat_map (fun event => snd (trigger event)) events_to_trigger_now,
       Z.of_nat (List.length events_to_trigger_now))
  end.

(** ** Histories of calls, for stating properties *)

Inductive Op :=
| OSchedule (now step : Z) (event_type : EventType) (action : Callable)
    (description : string) (args : list string)
    (kwargs : list (string * string))
| OProcess (current_step : Z).

Definition run_op (em : EventManager) (op : Op)
  : EventManager * list Effect :=
  match op with
  | OSchedule now s ty a d ar kw => schedule_event em now s ty a d ar kw
  | OProcess t => fst (process_events em t)
  end.

(** Runs the calls of [ops] one after the other on [em]; returns the
    manager reached and everything the calls did. *)
Fixpoint run_ops (ops : list Op) (em : EventManager)
  : EventManager * list Effect :=
  match ops with
  | [] => (em, [])
  | op :: ops' =>
      let (em1, fx1) := run_op em op in
      let (em2, fx2) := run_ops ops' em1 in
      (em2, (fx1 ++ fx2)%list)
  end.

(** The callable an operation schedules, if it schedules one. *)
Definition op_action (op : Op) : option Callable :=
  match op with
  | OSchedule _ _ _ a _ _ _ => Some a
  | OProcess _ => None
  end.

(** Where [list_sort] puts a new event in an ordered queue: behind every
    event whose step is not greater than its own. *)
Fixpoint place (e : Event) (q : list Event) : list Event :=
  match q with
  | [] => [e]
  | y :: q' => if step e <? step y then e :: q else y :: place e q'
  end.

Definition by_step (a b : Event) : Prop := step a <= step b.

(** The events whose action was called, in call order. *)
Definition invoked (fx : list Effect) : list Event := calls fx.

(** Queue order: by [step], and among equal steps by creation. *)
Definition event_before (a b : Event) : Prop :=
  step a < step b \/ (step a = step b /\ (ev_id a < ev_id b)%nat).

(** Every queued event was created by this manager. *)
Definition ids_fresh (em : EventManager) : Prop :=
  Forall (fun e => (ev_id e < next_id em)%nat) (event_queue em).

(** The state a manager is in between calls: the queue is ordered, holds
    only events the manager created, and none of them has fired. *)
Record queue_ok (em : EventManager) : Prop := {
  ok_sorted : StronglySorted event_before (event_queue em);
  ok_fresh : ids_fresh em;
  ok_unfired : Forall (fun e => triggered e = false) (event_queue em)
}.

(** The calls of the action of the event with identity [id]. *)
Definition invocations (id : nat) (fx : list Effect) : list Event :=
  filter (fun e => (ev_id e =? id)%nat) (invoked fx).

Definition queue_of (r : EventManager * list Effect * Z) : list Event :=
  event_queue (fst (fst r)).
Definition effects_of (r : EventManager * list Effect * Z) : list Effect :=
  snd (fst r).

(** Whether calling the action of [e] raises. *)
Definition raises (e : Event) : bool := is_raised (call (action e)).


(** ** A history as its caller sees it *)

(** The events waiting after the calls of [ops], in the order in which
    they were scheduled: a [schedule_event] for a step that is not in
    the past puts its event behind the waiting ones, a [process_events]
    takes the events of its step out.  [n] counts the events created so
    far, so that the [n]-th event scheduled has identity [n]. *)
Fixpoint pending_from (n : nat) (waiting : list Event) (ops : list Op)
  : list Event :=
  match ops with
  | [] => waiting
  | OSchedule now s ty a d ar kw :: ops' =>
      if s <? now then pending_from n waiting ops'
      else pending_from (S n)
             (waiting ++ [Event_init n s ty a d ar kw])%list ops'
  | OProcess t :: ops' =>
      pending_from n (filter (fun e => negb (step e =? t)) waiting) ops'
  end.

(** The events waiting after a history of calls on a new manager. *)
Definition pending (ops : list Op) : list Event := pending_from 0 [] ops.
End EventManager.

(* ===================================================================== *)
(** * src/agents *)
(* ===================================================================== *)

Module Agents.
Import Py.

(** The method calls counted inside agents: a disruption agent calling
    its own [apply_impact] and [remove_impact]. *)
Inductive AgentCall :=
| apply_impact_call (agent_id : string) (current_step : Z)
| remove_impact_call (agent_id : string) (current_step : Z).

Abbreviation Effect := (Py.Effect AgentCall).

(** The agent contract of [BaseAgent]: an identity and a [step] method that
    updates the agent and returns nothing or raises. *)
Class Agent (A : Type) := {
  agent_id : A -> string;
  step : A -> Z -> A * list Effect * Result unit
}.

(** ** base_agent.py *)

Record BaseAgent := {
  base_agent_id : string
}.

(** [BaseAgent.__init__]; [uuid4] is the value [str(uuid.uuid4())] would
    take. *)
Definition BaseAgent_init (agent_id : string) (uuid4 : string) : BaseAgent :=
  {| base_agent_id :=
       if String.eqb agent_id EmptyString then uuid4 else agent_id |}.

(** [BaseAgent.step] *)
Definition BaseAgent_step (self : BaseAgent) (current_step : Z)
  : BaseAgent * list Effect * Result unit :=
  (self, [],
   Raised (NotImplementedError "Subclasses must implement the 'step' method.")).

(** ** export_sector_agent.py, logistics_agent.py, market_agent.py

    The [step] methods of these three classes call placeholder methods
    whose body is [pass]. *)

Inductive NodeAgentKind := ExportSectorAgent | LogisticsAgent | MarketAgent.

Record NodeAgent := {
  node_agent_kind : NodeAgentKind;
  node_agent_id : string;
  node_id : option string
}.

Definition NodeAgent_step (self : NodeAgent) (current_step : Z)
  : NodeAgent * list Effect * Result unit :=
  (self, [], Returned tt).

(** ** disruption_agent.py *)

(** The keys of [config] read by [DisruptionAgent.__init__]; [None] is an
    absent key.  The record holds the configs whose [duration] and
    [start_step] are ints where they are present: [config.get] returns a
    value of another type as it is, and the comparisons of [step] then
    raise [TypeError]. *)
Record DisruptionConfig := {
  cfg_disruption_type : option string;
  cfg_magnitude : option string;
  cfg_duration : option Z;
  cfg_target_scope : option string;
  cfg_start_step : option Z
}.

(** [dict.get(key, default)] *)
Definition get {V} (o : option V) (default : V) : V :=
  match o with Some v => v | None => default end.

(** class [DisruptionAgent].  [duration_remaining] is assigned for the
    first time when the agent activates: until then the attribute does not
    exist ([None]).  [magnitude] is only ever printed and is kept as its
    printed form. *)
Record DisruptionAgent := {
  d_agent_id : string;
  disruption_type : string;
  magnitude : string;
  duration : Z;
  target_scope : string;
  start_step : Z;
  active : bool;
  duration_remaining : option Z
}.

Definition DisruptionAgent_repr_head (self : DisruptionAgent) : string :=
  self.(d_agent_id) ++ " (" ++ self.(disruption_type) ++ ")".

(** [DisruptionAgent.__init__] *)
Definition DisruptionAgent_init (agent_id : string) (uuid4 : string)
    (config : DisruptionConfig) : DisruptionAgent * list Effect :=
  let base := BaseAgent_init agent_id uuid4 in
  let self :=
    {| d_agent_id := base_agent_id base;
       disruption_type := get (cfg_disruption_type config) "GenericDisruption";
       magnitude := get (cfg_magnitude config) "0.1";
       duration := get (cfg_duration config) 1;
       target_scope := get (cfg_target_scope config) "all";
       start_step := get (cfg_start_step config) (-1);
       active := false;
       duration_remaining := None |} in
  (self,
   [Log INFO ("DisruptionAgent " ++ DisruptionAgent_repr_head self
              ++ " initialized. Target: " ++ target_scope self
              ++ ", Mag: " ++ magnitude self
              ++ ", Dur: " ++ str_Z (duration self)
              ++ ", Start: " ++ str_Z (start_step self))]).

Definition set_active (self : DisruptionAgent) (a : bool) (r : option Z)
  : DisruptionAgent :=
  {| d_agent_id := d_agent_id self;
     disruption_type := disruption_type self;
     magnitude := magnitude self;
     duration := duration self;
     target_scope := target_scope self;
     start_step := start_step self;
     active := a;
     duration_remaining := r |}.

(** [DisruptionAgent.apply_impact]: a placeholder that logs. *)
Definition apply_impact (self : DisruptionAgent) (current_step : Z)
  : list Effect :=
  [Call (apply_impact_call (d_agent_id self) current_step);
   Log WARNING ("Disruption " ++ d_agent_id self
                ++ " apply_impact: Targeting '" ++ target_scope self
                ++ "' - actual impact logic not yet implemented.")].

(** [DisruptionAgent.remove_impact]: a placeholder that logs. *)
Definition remove_impact (self : DisruptionAgent) (current_step : Z)
  : list Effect :=
  [Call (remove_impact_call (d_agent_id self) current_step);
   Log WARNING ("Disruption " ++ d_agent_id self
                ++ " remove_impact: Targeting '" ++ target_scope self
                ++ "' - actual removal logic not yet implemented.")].

(** [DisruptionAgent.step] *)
Definition DisruptionAgent_step (self : DisruptionAgent) (current_step : Z)
  : DisruptionAgent * list Effect * Result unit :=
  if negb (active self) && (start_step self >=? 0)
     && (current_step >=? start_step self)
  then
    let self' := set_active self true (Some (duration self)) in
    (self',
     (Log INFO ("Disruption " ++ DisruptionAgent_repr_head self'
                ++ " now ACTIVE at step " ++ str_Z current_step
                ++ ". Target: " ++ target_scope self')
      :: apply_impact self' current_step)%list,
     Returned tt)
  else if active self then
    match duration_remaining self with
    | None =>
        (self, [],
         Raised (AttributeError
           "'DisruptionAgent' object has no attribute 'duration_remaining'"))
    | Some remaining =>
        if remaining >? 0 then
          (set_active self true (Some (remaining - 1)),
           [Log DEBUG ("Disruption " ++ d_agent_id self ++ " ongoing. "
                       ++ str_Z remaining ++ " steps remaining.")],
           Returned tt)
        else
          let self' := set_active self false (Some remaining) in
          (self',
           (Log INFO ("Disruption " ++ DisruptionAgent_repr_head self'
                      ++ " has ENDED at step " ++ str_Z current_step ++ ".")
            :: remove_impact self' current_step)%list,
           Returned tt)
    end
  else (self, [], Returned tt).

(** ** The agents of the repository as one type *)

Inductive AnyAgent :=
| Base (a : BaseAgent)
| OnNode (a : NodeAgent)
| Disruption (a : DisruptionAgent).

Definition AnyAgent_id (a : AnyAgent) : string :=
  match a with
  | Base a => base_agent_id a
  | OnNode a => node_agent_id a
  | Disruption a => d_agent_id a
  end.

Definition AnyAgent_step (a : AnyAgent) (current_step : Z)
  : AnyAgent * list Effect * Result unit :=
  match a with
  | Base a =>
      let '(a', fx, r) := BaseAgent_step a current_step in (Base a', fx, r)
  | OnNode a =>
      let '(a', fx, r) := NodeAgent_step a current_step in (OnNode a', fx, r)
  | Disruption a =>
      let '(a', fx, r) := DisruptionAgent_step a current_step in
      (Disruption a', fx, r)
  end.

#[global] Instance DisruptionAgent_Agent : Agent DisruptionAgent :=
  {| agent_id := d_agent_id; step := DisruptionAgent_step |}.

#[global] Instance AnyAgent_Agent : Agent AnyAgent :=
  {| agent_id := AnyAgent_id; step := AnyAgent_step |}.

(** Steps [self] once for each tick of [ticks], in order, as the engine
    does; returns the agent reached and everything the steps did. *)
Fixpoint steps {A} `{Agent A} (self : A) (ticks : list Z)
  : A * list Effect :=
  match ticks with
  | [] => (self, [])
  | t :: ticks' =>
      let '(self', fx, _) := step self t in
      let (self'', fx') := steps self' ticks' in
      (self'', (fx ++ fx')%list)
  end.

(** [range(a, b)] *)
Definition range (a b : Z) : list Z :=
  map (fun i => a + Z.of_nat i) (seq 0 (Z.to_nat (b - a))).

Definition is_apply (c : AgentCall) : bool :=
  match c with apply_impact_call _ _ => true | _ => false end.

Definition is_remove (c : AgentCall) : bool :=
  match c with remove_impact_call _ _ => true | _ => false end.

(** Number of calls of [apply_impact] and of [remove_impact] in a trace. *)
Definition apply_calls (fx : list Effect) : nat :=
  List.length (filter is_apply (calls fx)).

Definition remove_calls (fx : list Effect) : nat :=
  List.length (filter is_remove (calls fx)).

(** The results of the calls [steps] makes, in order. *)
Fixpoint step_results {A} `{Agent A} (self : A) (ticks : list Z)
  : list (Result unit) :=
  match ticks with
  | [] => []
  | t :: ticks' =>
      let '(self', _, r) := step self t in r :: step_results self' ticks'
  end.

(** An active agent has its countdown: [duration_remaining] is assigned
    whenever [active] is set. *)
Definition has_countdown (a : DisruptionAgent) : Prop :=
  active a = true -> exists r, duration_remaining a = Some r.

(** The impacts an agent has applied and not yet removed. *)
Definition owes (a : DisruptionAgent) : nat :=
  if active a then 1%nat else 0%nat.

End Agents.

(* ===================================================================== *)
(** * src/simulation_core/engine.py *)
(* ===================================================================== *)

Module Engine.
Import Py.

(** A call recorded in the trace of the engine: the action of an event
    called by the event manager, [agent.step(current_step)] called by the
    loop, or a call an agent makes during its step. *)
Inductive EngineCall :=
| action_call (e : EventManager.Event)
| step_call (agent_id : string) (current_step : Z)
| agent_call (c : Agents.AgentCall).

Abbreviation Effect := (Py.Effect EngineCall).

Definition of_events (fx : list EventManager.Effect) : list Effect :=
  map (lift action_call) fx.
Definition of_agents (fx : list Agents.Effect) : list Effect :=
  map (lift agent_call) fx.

(** The calls [agent.step(day)] of an engine trace, as pairs of agent
    identity and day, in call order. *)
Fixpoint step_calls (fx : list Effect) : list (string * Z) :=
  match fx with
  | [] => []
  | Call (step_call id day) :: fx' => (id, day) :: step_calls fx'
  | _ :: fx' => step_calls fx'
  end.

(** The part of [config] the loop and the constructor read: the entries
    [simulation_name] and [total_steps] of its [simulation_settings],
    [None] when absent. *)
Record Config := {
  simulation_name : option string;
  total_steps : option Z
}.

(** [self.results]: a dict from metric name to value, in insertion order. *)
Definition Results : Type := list (string * Z).

(** [d[k] = v] *)
Fixpoint dict_set (d : Results) (k : string) (v : Z) : Results :=
  match d with
  | [] => [(k, v)]
  | (k', v') :: d' =>
      if String.eqb k' k then (k, v) :: d' else (k', v') :: dict_set d' k v
  end.

(** [d.get(k)] *)
Fixpoint dict_get (d : Results) (k : string) : option Z :=
  match d with
  | [] => None
  | (k', v') :: d' => if String.eqb k' k then Some v' else dict_get d' k
  end.

(** [repr] of the results dict *)
Fixpoint items_repr (d : Results) : string :=
  match d with
  | [] => EmptyString
  | [(k, v)] => "'" ++ k ++ "': " ++ str_Z v
  | (k, v) :: d' => "'" ++ k ++ "': " ++ str_Z v ++ ", " ++ items_repr d'
  end.
Definition dict_repr (d : Results) : string := "{" ++ items_repr d ++ "}".

Section Engine.
Context {A : Type} `{Agents.Agent A}.

(** class [SimulationEngine].  [env_now] is [self.env.now] of the simpy
    environment the engine creates; the network is only read when agents
    are created and is not part of the loop's state. *)
Record SimulationEngine := {
  config : Config;
  env_now : Z;
  event_manager : EventManager.EventManager;
  agents : list A;
  current_step : Z;
  running : bool;
  results : Results
}.

(** [SimulationEngine.__init__] *)
Definition SimulationEngine_init (config : Config)
  : SimulationEngine * list Effect :=
  let (em, fx) := EventManager.EventManager_init in
  ({| config := config;
      env_now := 0;
      event_manager := em;
      agents := [];
      current_step := 0;
      running := false;
      results := [] |},
   (of_events fx
    ++ [Log INFO ("SimulationEngine initialized for: "
                  ++ Agents.get (simulation_name config) "N/A")])%list).

(** [SimulationEngine._register_agent] *)
Definition _register_agent (self : SimulationEngine) (agent : A)
  : SimulationEngine * list Effect :=
  ({| config := config self;
      env_now := env_now self;
      event_manager := event_manager self;
      agents := (agents self ++ [agent])%list;
      current_step := current_step self;
      running := running self;
      results := results self |},
   [Log DEBUG ("Agent " ++ Agents.agent_id agent ++ " registered.")]).

(** [SimulationEngine.stop] *)
Definition stop (self : SimulationEngine) : SimulationEngine * list Effect :=
  if running self then
    ({| config := config self;
        env_now := env_now self;
        event_manager := event_manager self;
        agents := agents self;
        current_step := current_step self;
        running := false;
        results := results self |},
     [Log INFO
        "Stop signal received. Simulation will terminate after the current step."])
  else (self, []).

(** The agent loop of one day:
    [for agent in self.agents: try: agent.step(...) except Exception ...] *)
Fixpoint step_agents (agents : list A) (current_step : Z)
  : list A * list Effect :=
  match agents with
  | [] => ([], [])
  | agent :: rest =>
      let '(agent', fx, r) := Agents.step agent current_step in
      let handler :=
        match r with
        | Returned _ => []
        | Raised e =>
            [Log ERROR ("Error during step for agent "
                        ++ Agents.agent_id agent' ++ ": " ++ exc_str e)]
        end in
      let (rest', fx') := step_agents rest current_step in
      (agent' :: rest',
       (Call (step_call (Agents.agent_id agent) current_step)
        :: of_agents fx ++ handler ++ fx')%list)
  end.

(** [SimulationEngine._collect_step_metrics]: [pass] *)
Definition _collect_step_metrics (self : SimulationEngine)
  : SimulationEngine := self.

(** [SimulationEngine._collect_final_results] *)
Definition _collect_final_results (self : SimulationEngine)
  : SimulationEngine * list Effect :=
  let results1 :=
    dict_set (results self) "total_simulation_days" (current_step self + 1) in
  let results2 :=
    dict_set results1 "total_agents" (Z.of_nat (List.length (agents self))) in
  ({| config := config self;
      env_now := env_now self;
      event_manager := event_manager self;
      agents := agents self;
      current_step := current_step self;
      running := running self;
      results := results2 |},
   [Log INFO "Collecting final simulation results...";
    Log INFO ("Final results: " ++ dict_repr results2)]).

(** The body of [for day in range(total_steps)], over the days still to
    run.  [stop_signal day] tells whether [stop()] is called during [day]
    by a holder of the engine reference (nothing in the kernel itself calls
    it); the flag it clears is read once per day, after the [yield]. *)
Fixpoint days_loop (stop_signal : Z -> bool) (days : list Z)
    (self : SimulationEngine) : SimulationEngine * list Effect :=
  match days with
  | [] => (self, [])
  | day :: rest =>
      let entry :=
        Log INFO ("--- Simulation Day: " ++ str_Z (day + 1) ++ " ---") in
      (* 1. process scheduled events *)
      let '(em', fx_events, _) :=
        EventManager.process_events (event_manager self) day in
      (* 2. agents take their steps *)
      let (agents', fx_agents) := step_agents (agents self) day in
      (* 3. _collect_step_metrics; 4. yield self.env.timeout(1) *)
      let self1 :=
        {| config := config self;
           env_now := env_now self + 1;
           event_manager := em';
           agents := agents';
           current_step := day;
           running := running self;
           results := results self |} in
      let (self2, fx_stop) :=
        if stop_signal day then stop self1 else (self1, []) in
      let fx := (entry :: of_events fx_events ++ fx_agents ++ fx_stop)%list in
      if negb (running self2) then
        (self2, (fx ++ [Log INFO "Simulation run terminated early."])%list)
      else
        let (self3, fx') := days_loop stop_signal rest self2 in
        (self3, (fx ++ fx')%list)
  end.

(** [SimulationEngine._simulation_loop], run to completion by simpy.
    [elapsed] is the printed wall-clock time of the run. *)
Definition _simulation_loop (stop_signal : Z -> bool) (elapsed : string)
    (self : SimulationEngine) : SimulationEngine * list Effect :=
  let total_steps := Agents.get (total_steps (config self)) 100 in
  let self1 :=
    {| config := config self;
       env_now := env_now self;
       event_manager := event_manager self;
       agents := agents self;
       current_step := current_step self;
       running := true;
       results := results self |} in
  let (self2, fx_loop) :=
    days_loop stop_signal (Agents.range 0 total_steps) self1 in
  let self3 :=
    {| config := config self2;
       env_now := env_now self2;
       event_manager := event_manager self2;
       agents := agents self2;
       current_step := current_step self2;
       running := false;
       results := results self2 |} in
  let (self4, fx_final) := _collect_final_results self3 in
  (self4,
   (Log INFO ("Simulation starting. Duration: " ++ str_Z total_steps
              ++ " steps/days.")
    :: fx_loop
    ++ Log INFO ("Simulation finished. Total duration: "
                 ++ str_Z (current_step self3 + 1)
                 ++ " days. Real time elapsed: " ++ elapsed ++ " seconds.")
    :: fx_final)%list).

(** [SimulationEngine.run_simulation]; the last component is the returned
    dict. *)
Definition run_simulation (stop_signal : Z -> bool) (elapsed : string)
    (self : SimulationEngine) : SimulationEngine * list Effect * Results :=
  match agents self with
  | [] =>
      (self,
       [Log ERROR "No agents registered. Aborting simulation. Ensure setup_simulation() was called and created agents."],
       [])
  | _ :: _ =>
      let (self', fx) := _simulation_loop stop_signal elapsed self in
      (self', fx, results self')
  end.

(** Registers the agents of [l], one after the other. *)
Definition register_all (self : SimulationEngine) (l : list A)
  : SimulationEngine :=
  fold_left (fun e a => fst (_register_agent e a)) l self.

End Engine.

Arguments SimulationEngine A : clear implicits.

(** No one calls [stop()]. *)
Definition never (day : Z) : bool := false.

(** The calls [agent.step(day)] of one day, in registration order. *)
Definition day_calls {A} `{Agents.Agent A} (agents : list A) (day : Z)
  : list (string * Z) :=
  map (fun a => (Agents.agent_id a, day)) agents.

(** The agents as one day of stepping leaves them. *)
Definition after_day {A} `{Agents.Agent A} (agents : list A) (day : Z)
  : list A :=
  map (fun a => fst (fst (Agents.step a day))) agents.

(** The calls [agent.step] of a run over [days] in which every agent is
    stepped on every day. *)
Fixpoint run_calls {A} `{Agents.Agent A} (agents : list A) (days : list Z)
  : list (string * Z) :=
  match days with
  | [] => []
  | day :: rest =>
      (day_calls agents day ++ run_calls (after_day agents day) rest)%list
  end.

(** The record the loop logs when the step of [agent] raised [e]. *)
Definition step_error {A} `{Agents.Agent A} (agent : A) (e : Exc) : Effect :=
  Log ERROR ("Error during step for agent " ++ Agents.agent_id agent
             ++ ": " ++ exc_str e).

(** The events whose action is called in an engine trace, in call
    order. *)
Fixpoint action_calls (fx : list Effect) : list EventManager.Event :=
  match fx with
  | [] => []
  | Call (action_call e) :: fx' => e :: action_calls fx'
  | _ :: fx' => action_calls fx'
  end.

(** Whether a run of [total] days processes the step of [e] while [e] is
    unfired. *)
Definition in_run (total : Z) (e : EventManager.Event) : bool :=
  (0 <=? EventManager.step e) && (EventManager.step e <? total)
  && negb (EventManager.triggered e).

(** The engine after the body of the loop has run for [day] with nobody
    calling [stop()], and what the body did. *)
Definition day_done {A} `{Agents.Agent A} (eng : SimulationEngine A)
    (day : Z) : SimulationEngine A :=
  {| config := config eng;
     env_now := env_now eng + 1;
     event_manager :=
       fst (fst (EventManager.process_events (event_manager eng) day));
     agents := after_day (agents eng) day;
     current_step := day;
     running := running eng;
     results := results eng |}.

Definition day_trace {A} `{Agents.Agent A} (eng : SimulationEngine A)
    (day : Z) : list Effect :=
  (Log INFO ("--- Simulation Day: " ++ str_Z (day + 1) ++ " ---")
   :: of_events (EventManager.effects_of
                   (EventManager.process_events (event_manager eng) day))
   ++ snd (step_agents (agents eng) day))%list.

(** The same for a sequence of days. *)
Definition days_done {A} `{Agents.Agent A} (eng : SimulationEngine A)
    (days : list Z) : SimulationEngine A :=
  fold_left day_done days eng.

Fixpoint days_trace {A} `{Agents.Agent A} (eng : SimulationEngine A)
    (days : list Z) : list Effect :=
  match days with
  | [] => []
  | day :: rest => (day_trace eng day ++ days_trace (day_done eng day) rest)%list
  end.

End Engine.

(* ===================================================================== *)
(** * Python objects of the network model *)
(* ===================================================================== *)

Module Obj.
Import Py.

(** Python values as the network model meets them.  An instance is its
    class name and its instance dictionary; attributes are looked up by
    name at run time, as [getattr] does, so that an object may lack an
    attribute a function reads.  Numbers are Python ints; [VInf] is
    [float('inf')]. *)
#[local] Set Warnings "-register-all".
Inductive Value :=
| VNone
| VBool (b : bool)
| VNum (z : Z)
| VInf
| VStr (s : string)
| VDict (items : list (string * Value))
| VMethod (cls name : string)
| VObj (cls : string) (fields : list (string * Value)).

Record Object := {
  class_name : string;
  fields : list (string * Value)
}.

Definition to_value (o : Object) : Value := VObj (class_name o) (fields o).

(** [d.get(k)] on a dict with string keys *)
Fixpoint lookup {V} (d : list (string * V)) (k : string) : option V :=
  match d with
  | [] => None
  | (k', v) :: d' => if String.eqb k' k then Some v else lookup d' k
  end.

(** [k in d] *)
Definition mem {V} (d : list (string * V)) (k : string) : bool :=
  match lookup d k with Some _ => true | None => false end.

(** [d[k] = v]: replaces the value of an existing key in place, appends a
    new key. *)
Fixpoint store {V} (d : list (string * V)) (k : string) (v : V)
  : list (string * V) :=
  match d with
  | [] => [(k, v)]
  | (k', v') :: d' =>
      if String.eqb k' k then (k, v) :: d' else (k', v') :: store d' k v
  end.

(** [d.update(e)] *)
Definition update {V} (d e : list (string * V)) : list (string * V) :=
  fold_left (fun acc kv => store acc (fst kv) (snd kv)) e d.

(** The methods defined by the classes of nodes.py and edges.py: each
    class defines or inherits [__init__], [__repr__] and [to_dict], and
    nothing else. *)
Definition network_classes : list string :=
  ["BaseNode"; "FactoryNode"; "PortNode"; "WarehouseNode"; "MarketNode";
   "TransportHubNode"; "Edge"; "TransportEdge"; "ContractualEdge"].

Definition class_methods (cls : string) : list string :=
  if existsb (String.eqb cls) network_classes
  then ["__init__"; "__repr__"; "to_dict"]
  else [].

(** The message of the [AttributeError] of a failed lookup. *)
Definition no_attribute (cls name : string) : Exc :=
  AttributeError ("'" ++ cls ++ "' object has no attribute '" ++ name ++ "'").

(** The [TypeError] of using a dict where a hashable value is needed. *)
Definition unhashable_dict : Exc := TypeError "unhashable type: 'dict'".

(** [getattr(o, name)]: the instance dictionary first, then the class. *)
Definition getattr (o : Object) (name : string) : Result Value :=
  match lookup (fields o) name with
  | Some v => Returned v
  | None =>
      if existsb (String.eqb name) (class_methods (class_name o))
      then Returned (VMethod (class_name o) name)
      else Raised (no_attribute (class_name o) name)
  end.

(** [hasattr(o, name)] *)
Definition hasattr (o : Object) (name : string) : bool :=
  negb (is_raised (getattr o name)).

(** [setattr(o, name, v)] *)
Definition setattr (o : Object) (name : string) (v : Value) : Object :=
  {| class_name := class_name o; fields := store (fields o) name v |}.

(** [type(v).__name__] *)
Definition type_name (v : Value) : string :=
  match v with
  | VNone => "NoneType"
  | VBool _ => "bool"
  | VNum _ => "int"
  | VInf => "float"
  | VStr _ => "str"
  | VDict _ => "dict"
  | VMethod _ _ => "method"
  | VObj cls _ => cls
  end.

(** [v.name] for an arbitrary value [v] *)
Definition getattr_value (v : Value) (name : string) : Result Value :=
  match v with
  | VObj cls fs => getattr {| class_name := cls; fields := fs |} name
  | _ => Raised (no_attribute (type_name v) name)
  end.

(** [str(v)], as an f-string prints it; containers and instances are
    abbreviated. *)
Definition str (v : Value) : string :=
  match v with
  | VNone => "None"
  | VBool b => str_bool b
  | VNum z => str_Z z
  | VInf => "inf"
  | VStr s => s
  | VDict _ => "{...}"
  | VMethod cls name => "<bound method " ++ cls ++ "." ++ name ++ ">"
  | VObj cls _ => "<" ++ cls ++ ">"
  end.

(** Identifiers are [str] by the annotations of nodes.py and edges.py, and
    the dicts of this model have string keys.  A value of another type
    used as an identifier is outside this model: where the Python code
    would store under it, the model reports a [TypeError] and stores
    nothing, so what is stated about additions is stated for string
    identifiers. *)
Definition as_id (v : Value) : Result string :=
  match v with
  | VStr s => Returned s
  | _ => Raised (TypeError ("identifier of type '" ++ type_name v ++ "'"))
  end.

(** ** nodes.py *)

(** [BaseNode.__init__]; [uuid4] is the value [str(uuid.uuid4())] would
    take. *)
Definition BaseNode_init (cls : string) (node_id name node_type : string)
    (location capacity : Value) (attributes : list (string * Value))
    (uuid4 : string) : Object :=
  {| class_name := cls;
     fields :=
       [("id",
         VStr (if String.eqb node_id EmptyString then uuid4 else node_id));
        ("name", VStr name);
        ("type", VStr node_type);
        ("location", location);
        ("capacity", capacity);
        ("attributes", VDict attributes);
        ("agent_id", VNone)] |}.

(** [FactoryNode.__init__] *)
Definition FactoryNode_init (node_id name factory_type : string)
    (production_capacity_units_per_day : Value)
    (raw_material_requirements : list (string * Value))
    (initial_inventory_units : Value) (operational_status : string)
    (location capacity : Value) (attributes : list (string * Value))
    (uuid4 : string) : Object :=
  let self :=
    BaseNode_init "FactoryNode" node_id name "Factory" location capacity
      attributes uuid4 in
  let own :=
    [("factory_type", VStr factory_type);
     ("production_capacity_units_per_day", production_capacity_units_per_day);
     ("raw_material_requirements", VDict raw_material_requirements);
     ("initial_inventory_units", initial_inventory_units);
     ("operational_status", VStr operational_status)] in
  let self := fold_left (fun o kv => setattr o (fst kv) (snd kv)) own self in
  setattr self "attributes" (VDict (update attributes own)).

(** [PortNode.__init__] *)
Definition PortNode_init (node_id name : string)
    (processing_rate_teu_per_hour berthing_capacity storage_capacity_teu
     current_congestion_level : Value) (operational_status : string)
    (location capacity : Value) (attributes : list (string * Value))
    (uuid4 : string) : Object :=
  let self :=
    BaseNode_init "PortNode" node_id name "Port" location capacity
      attributes uuid4 in
  let own :=
    [("processing_rate_teu_per_hour", processing_rate_teu_per_hour);
     ("berthing_capacity", berthing_capacity);
     ("storage_capacity_teu", storage_capacity_teu);
     ("current_congestion_level", current_congestion_level);
     ("operational_status", VStr operational_status)] in
  let self := fold_left (fun o kv => setattr o (fst kv) (snd kv)) own self in
  setattr self "attributes" (VDict (update attributes own)).

(** ** edges.py *)

(** [Edge.__init__] *)
Definition Edge_init (cls : string) (source_node_id target_node_id
    edge_type : string) (capacity travel_time_hours cost_per_unit : Value)
    (attributes : list (string * Value)) : Object :=
  {| class_name := cls;
     fields :=
       [("source_id", VStr source_node_id);
        ("target_id", VStr target_node_id);
        ("type", VStr edge_type);
        ("capacity", capacity);
        ("travel_time_hours", travel_time_hours);
        ("cost_per_unit", cost_per_unit);
        ("attributes", VDict attributes);
        ("is_active", VBool true);
        ("current_flow", VNum 0)] |}.

(** [TransportEdge.__init__] *)
Definition TransportEdge_init (source_node_id target_node_id
    transport_mode : string) (capacity travel_time_hours cost_per_unit : Value)
    (attributes : list (string * Value)) : Object :=
  let self :=
    Edge_init "TransportEdge" source_node_id target_node_id
      ("Transport::" ++ transport_mode) capacity travel_time_hours
      cost_per_unit attributes in
  setattr self "attributes"
    (VDict (store attributes "mode" (VStr transport_mode))).

(** ** to_dict *)

(** [BaseNode.to_dict] *)
Definition BaseNode_to_dict (self : Object)
  : Result (list (string * Value)) :=
  id <- getattr self "id" ;;
  nm <- getattr self "name" ;;
  ty <- getattr self "type" ;;
  location <- getattr self "location" ;;
  capacity <- getattr self "capacity" ;;
  attributes <- getattr self "attributes" ;;
  agent <- getattr self "agent_id" ;;
  Returned [("id", id); ("name", nm); ("type", ty); ("location", location);
            ("capacity", capacity); ("attributes", attributes);
            ("agent_id", agent)].

(** [FactoryNode.to_dict] *)
Definition FactoryNode_to_dict (self : Object)
  : Result (list (string * Value)) :=
  data <- BaseNode_to_dict self ;;
  factory_type <- getattr self "factory_type" ;;
  production <- getattr self "production_capacity_units_per_day" ;;
  requirements <- getattr self "raw_material_requirements" ;;
  inventory <- getattr self "initial_inventory_units" ;;
  status <- getattr self "operational_status" ;;
  Returned (update data
              [("factory_type", factory_type);
               ("production_capacity_units_per_day", production);
               ("raw_material_requirements", requirements);
               ("initial_inventory_units", inventory);
               ("operational_status", status)]).

(** [d[k][k']] for a dict [d] of dicts; [None] stands for a [KeyError] or
    a value that is no dict. *)
Definition lookup_in (d : list (string * Value)) (k k' : string)
  : option Value :=
  match lookup d k with
  | Some (VDict inner) => lookup inner k'
  | _ => None
  end.

End Obj.

(* ===================================================================== *)
(** * networkx, as far as network_model.py uses it

    networkx is a dependency of the repository, not part of it.  The
    definitions below follow its [MultiDiGraph] and the two searches that
    [nx.shortest_path] dispatches to when source and target are given:
    [bidirectional_shortest_path] without a weight, and
    [bidirectional_dijkstra] with one.  A weight given as a function is
    called as [weight(u, v, d)], where [d] is what the adjacency structure
    stores for the pair [(u, v)]: in a multigraph, the dict from edge key
    to edge attribute dict. *)
(* ===================================================================== *)

Module nx.
Import Py Obj.

Definition Attrs : Type := list (string * Value).

Record EdgeEntry := {
  e_u : string;
  e_v : string;
  e_key : string;
  e_attr : Attrs
}.

(** [MultiDiGraph]: node attribute dicts, and the edges in insertion
    order.  The views [succ] and [pred] give the adjacency dicts in the
    order networkx iterates them. *)
Record MultiDiGraph := {
  _node : list (string * Attrs);
  _edges : list EdgeEntry
}.

Definition empty : MultiDiGraph := {| _node := []; _edges := [] |}.

(** [n in G] *)
Definition has_node (G : MultiDiGraph) (n : string) : bool := mem (_node G) n.

(** [G.add_node(n, **attr)] *)
Definition add_node (G : MultiDiGraph) (n : string) (attr : Attrs)
  : MultiDiGraph :=
  {| _node :=
       match lookup (_node G) n with
       | Some old => store (_node G) n (update old attr)
       | None => store (_node G) n attr
       end;
     _edges := _edges G |}.

Definition same_edge (u v key : string) (e : EdgeEntry) : bool :=
  String.eqb (e_u e) u && String.eqb (e_v e) v && String.eqb (e_key e) key.

(** [G.add_edge(u, v, key, **attr)]: missing end points are created, an
    existing [(u, v, key)] has its attributes updated, a new one is added
    behind the others. *)
Definition add_edge (G : MultiDiGraph) (u v key : string) (attr : Attrs)
  : MultiDiGraph :=
  let nodes1 := if mem (_node G) u then _node G else store (_node G) u [] in
  let nodes2 := if mem nodes1 v then nodes1 else store nodes1 v [] in
  {| _node := nodes2;
     _edges :=
       if existsb (same_edge u v key) (_edges G)
       then map (fun e =>
                   if same_edge u v key e
                   then {| e_u := u; e_v := v; e_key := key;
                           e_attr := update (e_attr e) attr |}
                   else e) (_edges G)
       else (_edges G ++ [{| e_u := u; e_v := v; e_key := key;
                             e_attr := attr |}])%list |}.

(** Keeps the first occurrence of each name. *)
Fixpoint uniq (l : list string) : list string :=
  match l with
  | [] => []
  | x :: l' => x :: filter (fun y => negb (String.eqb y x)) (uniq l')
  end.

(** [G._adj[u][v]]: edge key to attribute dict, as a Python value *)
Definition keydict (G : MultiDiGraph) (u v : string) : Value :=
  VDict (map (fun e => (e_key e, VDict (e_attr e)))
             (filter (fun e => String.eqb (e_u e) u && String.eqb (e_v e) v)
                     (_edges G))).

(** [G._succ[u].items()] *)
Definition succ (G : MultiDiGraph) (u : string) : list (string * Value) :=
  map (fun v => (v, keydict G u v))
      (uniq (map e_v (filter (fun e => String.eqb (e_u e) u) (_edges G)))).

(** [G._pred[v].items()] *)
Definition pred (G : MultiDiGraph) (v : string) : list (string * Value) :=
  map (fun u => (u, keydict G u v))
      (uniq (map e_u (filter (fun e => String.eqb (e_v e) v) (_edges G)))).

(** ** Distances *)

Inductive Dist := Fin (z : Z) | Inf.

Definition dist_lt (a b : Dist) : bool :=
  match a, b with
  | Fin x, Fin y => x <? y
  | Fin _, Inf => true
  | Inf, _ => false
  end.

Definition dist_eqb (a b : Dist) : bool :=
  match a, b with
  | Fin x, Fin y => x =? y
  | Inf, Inf => true
  | _, _ => false
  end.

Definition dist_plus (a b : Dist) : Dist :=
  match a, b with
  | Fin x, Fin y => Fin (x + y)
  | _, _ => Inf
  end.

(** [d + cost] for a distance [d] and whatever the weight function
    returned. *)
Definition add_cost (d : Dist) (cost : Value) : Result Dist :=
  match cost with
  | VNum z => Returned (dist_plus d (Fin z))
  | VBool b => Returned (dist_plus d (Fin (if b then 1 else 0)))
  | VInf => Returned Inf
  | _ => Raised (TypeError ("unsupported operand type(s) for +: 'int' and '"
                            ++ type_name cost ++ "'"))
  end.

(** ** bidirectional_dijkstra *)

Definition WeightFn : Type := string -> string -> Value -> Result Value.

Definition no_path (source target : string) : Exc :=
  NetworkXNoPath ("No path between " ++ source ++ " and " ++ target ++ ".").

Definition Entry : Type := (Dist * nat * string)%type.

(** Tuple order on heap entries; the counter makes them distinct. *)
Definition entry_lt (a b : Entry) : bool :=
  let '(da, ca, _) := a in
  let '(db, cb, _) := b in
  dist_lt da db || (dist_eqb da db && (ca <? cb)%nat).

Fixpoint heap_min (x : Entry) (h : list Entry) : Entry :=
  match h with
  | [] => x
  | y :: h' => heap_min (if entry_lt y x then y else x) h'
  end.

Definition entry_eqb (a b : Entry) : bool :=
  let '(da, ca, na) := a in
  let '(db, cb, nb) := b in
  dist_eqb da db && (ca =? cb)%nat && String.eqb na nb.

Fixpoint remove_first (x : Entry) (h : list Entry) : list Entry :=
  match h with
  | [] => []
  | y :: h' => if entry_eqb y x then h' else y :: remove_first x h'
  end.

(** [heappop]: the least entry and the rest of the heap. *)
Definition heappop (h : list Entry) : option (Entry * list Entry) :=
  match h with
  | [] => None
  | x :: h' => let m := heap_min x h' in Some (m, remove_first m h)
  end.

(** The dicts and the heap of one search direction. *)
Record Side := {
  dists : list (string * Dist);
  paths : list (string * list string);
  fringe : list Entry;
  seen : list (string * Dist)
}.

(** The locals of the search; [backward] is [dir == 1]. *)
Record Search := {
  forward : Side;
  reverse : Side;
  counter : nat;
  finaldist : Dist;
  finalpath : list string;
  backward : bool
}.

Definition side (b : bool) (st : Search) : Side :=
  if b then reverse st else forward st.

Definition with_side (b : bool) (sd : Side) (st : Search) : Search :=
  {| forward := if b then forward st else sd;
     reverse := if b then sd else reverse st;
     counter := counter st;
     finaldist := finaldist st;
     finalpath := finalpath st;
     backward := backward st |}.

(** The loop [for w, d in neighs[dir][v].items()] *)
Fixpoint relax (weight : WeightFn) (v : string) (dv : Dist)
    (nbrs : list (string * Value)) (st : Search) : Result Search :=
  match nbrs with
  | [] => Returned st
  | (w, d) :: rest =>
      let b := backward st in
      cost <- (if b then weight w v d else weight v w d) ;;
      match cost with
      | VNone => relax weight v dv rest st
      | _ =>
          vwLength <- add_cost dv cost ;;
          let this := side b st in
          match lookup (dists this) w with
          | Some dw =>
              if dist_lt vwLength dw
              then Raised (ValueError
                     "Contradictory paths found: negative weights?")
              else relax weight v dv rest st
          | None =>
              let better :=
                match lookup (seen this) w with
                | None => true
                | Some sw => dist_lt vwLength sw
                end in
              if better then
                let this' :=
                  {| dists := dists this;
                     paths := store (paths this) w
                                (match lookup (paths this) v with
                                 | Some pv => pv ++ [w]
                                 | None => [w]
                                 end)%list;
                     fringe := ((vwLength, counter st, w) :: fringe this);
                     seen := store (seen this) w vwLength |} in
                let st1 := with_side b this' st in
                let st2 :=
                  {| forward := forward st1; reverse := reverse st1;
                     counter := S (counter st1);
                     finaldist := finaldist st1; finalpath := finalpath st1;
                     backward := backward st1 |} in
                let st3 :=
                  match lookup (seen (forward st2)) w,
                        lookup (seen (reverse st2)) w with
                  | Some s0, Some s1 =>
                      let totaldist := dist_plus s0 s1 in
                      if match finalpath st2 with [] => true | _ => false end
                         || dist_lt totaldist (finaldist st2)
                      then
                        let p0 := match lookup (paths (forward st2)) w with
                                  | Some p => p | None => [] end in
                        let p1 := match lookup (paths (reverse st2)) w with
                                  | Some p => p | None => [] end in
                        {| forward := forward st2; reverse := reverse st2;
                           counter := counter st2;
                           finaldist := totaldist;
                           finalpath := (p0 ++ tl (rev p1))%list;
                           backward := backward st2 |}
                      else st2
                  | _, _ => st2
                  end in
                relax weight v dv rest st3
              else relax weight v dv rest st
          end
      end
  end.

(** The [while fringe[0] and fringe[1]] loop; [None] when [fuel] runs
    out before the loop ends. *)
Fixpoint search_loop (fuel : nat) (G : MultiDiGraph) (weight : WeightFn)
    (source target : string) (st : Search)
  : option (Result (Dist * list string)) :=
  match fuel with
  | O => None
  | S fuel' =>
      match fringe (forward st), fringe (reverse st) with
      | [], _ | _, [] =>
          Some (Raised (no_path source target))
      | _ :: _, _ :: _ =>
          let b := negb (backward st) in
          let st :=
            {| forward := forward st; reverse := reverse st;
               counter := counter st; finaldist := finaldist st;
               finalpath := finalpath st; backward := b |} in
          match heappop (fringe (side b st)) with
          | None => None
          | Some ((dist, _, v), rest) =>
              let this := side b st in
              let popped :=
                {| dists := dists this; paths := paths this;
                   fringe := rest; seen := seen this |} in
              if mem (dists this) v then
                search_loop fuel' G weight source target
                  (with_side b popped st)
              else
                let this' :=
                  {| dists := store (dists this) v dist;
                     paths := paths this; fringe := rest;
                     seen := seen this |} in
                let st' := with_side b this' st in
                if mem (dists (side (negb b) st')) v then
                  Some (Returned (finaldist st', finalpath st'))
                else
                  match relax weight v dist
                          (if b then pred G v else succ G v) st' with
                  | Raised e => Some (Raised e)
                  | Returned st'' =>
                      search_loop fuel' G weight source target st''
                  end
          end
      end
  end.

(** Every turn of the loop pops one entry, and an entry is pushed at most
    once for each edge and direction, besides the two initial ones. *)
Definition search_fuel (G : MultiDiGraph) : nat :=
  (2 * List.length (_edges G) + 3)%nat.

(** [nx.bidirectional_dijkstra(G, source, target, weight)] with [weight]
    a function *)
Definition bidirectional_dijkstra (G : MultiDiGraph) (source target : string)
    (weight : WeightFn) : option (Result (Dist * list string)) :=
  if negb (has_node G source) || negb (has_node G target) then
    Some (Raised (NodeNotFound ("Either source " ++ source ++ " or target "
                                ++ target ++ " is not in G")))
  else if String.eqb source target then
    Some (Returned (Fin 0, [source]))
  else
    search_loop (search_fuel G) G weight source target
      {| forward := {| dists := []; paths := [(source, [source])];
                       fringe := [(Fin 0, 0%nat, source)];
                       seen := [(source, Fin 0)] |};
         reverse := {| dists := []; paths := [(target, [target])];
                       fringe := [(Fin 0, 1%nat, target)];
                       seen := [(target, Fin 0)] |};
         counter := 2;
         finaldist := Inf;
         finalpath := [];
         backward := true |}.

(** ** bidirectional_shortest_path *)

(** [pred] and [succ] of the breadth-first search: the neighbour a node
    was reached from, [None] for the start node. *)
Definition Links : Type := list (string * option string).

(** The loop [for w in Gsucc[v]] (or [Gpred[v]]): [mine] and [fr] are the
    link dict and the fringe of the searching side, [other] the link dict
    of the opposite side; [Some w] in the result is an early return. *)
Fixpoint expand (v : string) (nbrs : list string) (mine other : Links)
    (fr : list string) : Links * list string * option string :=
  match nbrs with
  | [] => (mine, fr, None)
  | w :: rest =>
      let (mine', fr') :=
        if mem mine w then (mine, fr)
        else (store mine w (Some v), (fr ++ [w])%list) in
      if mem other w then (mine', fr', Some w)
      else expand v rest mine' other fr'
  end.

(** The loop [for v in this_level] *)
Fixpoint expand_level (G : MultiDiGraph) (b : bool) (this_level : list string)
    (mine other : Links) (fr : list string)
  : Links * list string * option string :=
  match this_level with
  | [] => (mine, fr, None)
  | v :: rest =>
      let nbrs := map fst (if b then pred G v else succ G v) in
      let '(mine', fr', met) := expand v nbrs mine other fr in
      match met with
      | Some w => (mine', fr', Some w)
      | None => expand_level G b rest mine' other fr'
      end
  end.

(** The [while forward_fringe and reverse_fringe] loop of
    [_bidirectional_pred_succ]. *)
Fixpoint bfs_loop (fuel : nat) (G : MultiDiGraph) (source target : string)
    (pred_ succ_ : Links) (forward_fringe reverse_fringe : list string)
  : option (Result (Links * Links * string)) :=
  match fuel with
  | O => None
  | S fuel' =>
      match forward_fringe, reverse_fringe with
      | [], _ | _, [] =>
          Some (Raised (no_path source target))
      | _ :: _, _ :: _ =>
          if (List.length forward_fringe <=? List.length reverse_fringe)%nat
          then
            let '(pred', fr, met) :=
              expand_level G false forward_fringe pred_ succ_ [] in
            match met with
            | Some w => Some (Returned (pred', succ_, w))
            | None =>
                bfs_loop fuel' G source target pred' succ_ fr reverse_fringe
            end
          else
            let '(succ', fr, met) :=
              expand_level G true reverse_fringe succ_ pred_ [] in
            match met with
            | Some w => Some (Returned (pred_, succ', w))
            | None =>
                bfs_loop fuel' G source target pred_ succ' forward_fringe fr
            end
      end
  end.

(** [while w is not None: path.append(w); w = links[w]] *)
Fixpoint follow (fuel : nat) (links : Links) (w : option string)
  : list string :=
  match fuel, w with
  | S fuel', Some n =>
      n :: follow fuel' links
             (match lookup links n with Some next => next | None => None end)
  | _, _ => []
  end.

(** [nx.bidirectional_shortest_path(G, source, target)] *)
Definition bidirectional_shortest_path (G : MultiDiGraph)
    (source target : string) : option (Result (list string)) :=
  if negb (has_node G source) || negb (has_node G target) then
    Some (Raised (NodeNotFound ("Either source " ++ source ++ " or target "
                                ++ target ++ " is not in G")))
  else
    let found :=
      if String.eqb target source then
        Some (Returned ([(target, None)], [(source, None)], source))
      else
        bfs_loop (2 * (List.length (_node G) + 2 * List.length (_edges G)) + 3)
          G source target [(source, None)] [(target, None)]
          [source] [target] in
    match found with
    | None => None
    | Some (Raised e) => Some (Raised e)
    | Some (Returned (pred_, succ_, w)) =>
        let path := rev (follow (S (List.length pred_)) pred_ (Some w)) in
        let w' :=
          match lookup succ_ (last path w) with
          | Some next => next
          | None => None
          end in
        Some (Returned (path ++ follow (S (List.length succ_)) succ_ w')%list)
    end.

(** [nx.shortest_path(G, source=..., target=..., weight=...)] with the
    default method: without a weight the breadth-first search, with a
    weight function the path found by [bidirectional_dijkstra]. *)
Definition shortest_path (G : MultiDiGraph) (source target : string)
    (weight : option WeightFn) : option (Result (list string)) :=
  match weight with
  | None => bidirectional_shortest_path G source target
  | Some w =>
      match bidirectional_dijkstra G source target w with
      | None => None
      | Some (Raised e) => Some (Raised e)
      | Some (Returned (_, paths)) => Some (Returned paths)
      end
  end.

(** ** Search trees *)

(** [G] has an edge from [u] to [v]. *)
Definition has_edge (G : MultiDiGraph) (u v : string) : Prop :=
  exists e, In e (_edges G) /\ e_u e = u /\ e_v e = v.

(** Each node of [p] is related by [R] to the next one. *)
Fixpoint linked (R : string -> string -> Prop) (p : list string) : Prop :=
  match p with
  | u :: (v :: _) as p' => R u v /\ linked R p'
  | _ => True
  end.

(** [trail R links root w p]: following [links] from [w] visits the nodes
    [p], each related by [R] to the next one, and ends at [root], the
    node linked to [None]. *)
Inductive trail (R : string -> string -> Prop) (links : Links)
    (root : string) : string -> list string -> Prop :=
| trail_root :
    lookup links root = Some None -> trail R links root root [root]
| trail_link w v p :
    lookup links w = Some (Some v) -> R w v -> trail R links root v p ->
    trail R links root w (w :: p).

(** How a node [w] and the node [v] it was reached from are joined: by an
    edge from [v] in the search from the source, by an edge to [v] in the
    search from the target. *)
Definition reached_from (G : MultiDiGraph) (backward : bool) (w v : string)
  : Prop :=
  if backward then has_edge G w v else has_edge G v w.

(** A link dict of the search from [root]: no node twice, only [root] and
    ends of edges, and from every node a trail to [root]. *)
Record links_ok (G : MultiDiGraph) (backward : bool) (root : string)
    (links : Links) : Prop := {
  links_unique : NoDup (map fst links);
  links_known :
    incl (map fst links)
         (root :: map (if backward then e_u else e_v) (_edges G));
  links_lead :
    forall w, mem links w = true ->
      exists p, trail (reached_from G backward) links root w p
                /\ (List.length p <= List.length links)%nat
}.

End nx.

(* ===================================================================== *)
(** * src/supply_chain_network/network_model.py *)
(* ===================================================================== *)

Module Network.
Import Py Obj.

Abbreviation Effect := (Py.Effect Empty_set).

(** class [SupplyChainNetwork] *)
Record SupplyChainNetwork := {
  name : string;
  graph : nx.MultiDiGraph;
  nodes_dict : list (string * Object);
  edges_dict : list (string * Object)
}.

(** What a method call leaves behind: the network, what was logged, and
    the returned value or the exception. *)
Definition Outcome : Type := (SupplyChainNetwork * list Effect * Result Value)%type.

Definition network_of (o : Outcome) : SupplyChainNetwork := fst (fst o).
Definition effects_of (o : Outcome) : list Effect := snd (fst o).
Definition result_of (o : Outcome) : Result Value := snd o.

(** [SupplyChainNetwork.__init__] *)
Definition SupplyChainNetwork_init (name : string)
  : SupplyChainNetwork * list Effect :=
  ({| name := name; graph := nx.empty; nodes_dict := []; edges_dict := [] |},
   [Log INFO ("SupplyChainNetwork '" ++ name ++ "' initialized.")]).

(** [o.id] as an identifier *)
Definition id_of (o : Object) : Result string :=
  v <- getattr o "id" ;; as_id v.

(** [o.<end>.id] as an identifier, for [source_node] and
    [destination_node] *)
Definition end_id (o : Object) (which : string) : Result string :=
  n <- getattr o which ;; v <- getattr_value n "id" ;; as_id v.

(** [o.<end>.name] *)
Definition end_name (o : Object) (which : string) : Result Value :=
  n <- getattr o which ;; getattr_value n "name".

(** [SupplyChainNetwork.add_node_object] *)
Definition add_node_object (self : SupplyChainNetwork) (node_obj : Object)
  : Outcome :=
  match id_of node_obj with
  | Raised e => (self, [], Raised e)
  | Returned id =>
      if mem (nodes_dict self) id then
        match getattr node_obj "name" with
        | Raised e => (self, [], Raised e)
        | Returned nm =>
            (self,
             [Log WARNING ("Node with ID " ++ id ++ " (" ++ str nm
                           ++ ") already exists. Skipping addition.")],
             Returned VNone)
        end
      else
        let self' :=
          {| name := name self;
             graph := nx.add_node (graph self) id
                        [("data", to_value node_obj)];
             nodes_dict := store (nodes_dict self) id node_obj;
             edges_dict := edges_dict self |} in
        match getattr node_obj "name" with
        | Raised e => (self', [], Raised e)
        | Returned nm =>
            (self',
             [Log DEBUG ("Added node to network: " ++ str nm ++ " (ID: "
                         ++ id ++ ")")],
             Returned VNone)
        end
  end.

(** [SupplyChainNetwork.get_node] *)
Definition get_node (self : SupplyChainNetwork) (node_id : string)
  : option Object := lookup (nodes_dict self) node_id.

(** [SupplyChainNetwork.get_edge] *)
Definition get_edge (self : SupplyChainNetwork) (edge_id : string)
  : option Object := lookup (edges_dict self) edge_id.

(** [SupplyChainNetwork.get_all_nodes], [get_all_edges] *)
Definition get_all_nodes (self : SupplyChainNetwork) : list Object :=
  map snd (nodes_dict self).
Definition get_all_edges (self : SupplyChainNetwork) : list Object :=
  map snd (edges_dict self).

(** [SupplyChainNetwork.add_edge_object] *)
Definition add_edge_object (self : SupplyChainNetwork) (edge_obj : Object)
  : Outcome :=
  match id_of edge_obj with
  | Raised e => (self, [], Raised e)
  | Returned id =>
      if mem (edges_dict self) id then
        (self,
         [Log WARNING ("Edge with ID " ++ id
                       ++ " already exists. Skipping addition.")],
         Returned VNone)
      else
        let rejected : Outcome :=
          (self,
           [Log ERROR ("Cannot add edge " ++ id
                       ++ ": Source or destination node not in network.")],
           Returned VNone) in
        match end_id edge_obj "source_node" with
        | Raised e => (self, [], Raised e)
        | Returned src =>
            if negb (mem (nodes_dict self) src) then rejected
            else
              match end_id edge_obj "destination_node" with
              | Raised e => (self, [], Raised e)
              | Returned dst =>
                  if negb (mem (nodes_dict self) dst) then rejected
                  else
                    let self' :=
                      {| name := name self;
                         graph := nx.add_edge (graph self) src dst id
                                    [("data", to_value edge_obj)];
                         nodes_dict := nodes_dict self;
                         edges_dict := store (edges_dict self) id edge_obj |} in
                    match end_name edge_obj "source_node" with
                    | Raised e => (self', [], Raised e)
                    | Returned sn =>
                        match end_name edge_obj "destination_node" with
                        | Raised e => (self', [], Raised e)
                        | Returned dn =>
                            (self',
                             [Log DEBUG ("Added edge to network: " ++ id
                                         ++ " from " ++ str sn ++ " to "
                                         ++ str dn)],
                             Returned VNone)
                        end
                    end
              end
        end
  end.

(** [edge_obj_dict.get(key)] for an arbitrary [key]: a dict is not
    hashable, and of the hashable values only a string can be a key of
    [edges_dict]. *)
Definition dict_get (d : list (string * Object)) (key : Value)
  : Result (option Object) :=
  match key with
  | VStr s => Returned (lookup d s)
  | VDict _ => Raised unhashable_dict
  | _ => Returned None
  end.

(** The local function [get_edge_weight] of [find_path], closed over
    [weight_attribute]. *)
Definition get_edge_weight (weight_attribute : string) (u v : string)
    (key : Value) (edge_obj_dict : list (string * Object)) : Result Value :=
  edge_obj <- dict_get edge_obj_dict key ;;
  match edge_obj with
  | Some o =>
      if hasattr o weight_attribute then
        val <- getattr o weight_attribute ;;
        Returned (match val with VNone => VInf | _ => val end)
      else Returned VInf
  | None => Returned VInf
  end.

(** The weight the claims about [find_path] describe for a pair of nodes:
    the least of the weights [get_edge_weight] gives for the keys of the
    parallel edges of the pair.  [find_path] does not use it; it is here
    to run the library search on the weights that were meant. *)
Definition value_min (a b : Value) : Value :=
  match a, b with
  | VNum x, VNum y => VNum (Z.min x y)
  | VInf, _ => b
  | _, _ => a
  end.

Definition least_weight (weight_attribute : string)
    (edge_obj_dict : list (string * Object)) : nx.WeightFn :=
  fun u v d =>
    match d with
    | VDict items =>
        fold_left
          (fun acc kv =>
             a <- acc ;;
             c <- get_edge_weight weight_attribute u v (VStr (fst kv))
                    edge_obj_dict ;;
             Returned (value_min a c))
          items (Returned VInf)
    | _ => Returned VInf
    end.

(** [repr] of the optional [weight_attribute] in the log messages *)
Definition weight_str (weight_attribute : option string) : string :=
  match weight_attribute with Some w => w | None => "None" end.

(** [repr] of a list of strings *)
Definition list_repr (l : list string) : string :=
  "[" ++ String.concat ", " (map (fun s => "'" ++ s ++ "'") l) ++ "]".

(** [SupplyChainNetwork.find_path].  The result is [None] only if the
    search of the library model runs out of fuel; otherwise it is what
    was logged and the returned value: [Some path], or [None] for
    Python's [None]. *)
Definition find_path (self : SupplyChainNetwork)
    (source_node_id destination_node_id : string)
    (weight_attribute : option string)
  : option (list Effect * option (list string)) :=
  if negb (mem (nodes_dict self) source_node_id)
     || negb (mem (nodes_dict self) destination_node_id)
  then
    Some ([Log ERROR ("Source '" ++ source_node_id ++ "' or destination '"
                      ++ destination_node_id ++ "' node not found in network.")],
          None)
  else
    let weight :=
      match weight_attribute with
      | None | Some EmptyString => None
      | Some w =>
          Some (fun u v k => get_edge_weight w u v k (edges_dict self))
      end in
    match nx.shortest_path (graph self) source_node_id destination_node_id
            weight with
    | None => None
    | Some (Returned path_nodes) =>
        Some ([Log DEBUG ("Path from " ++ source_node_id ++ " to "
                          ++ destination_node_id ++ " (weight: "
                          ++ weight_str weight_attribute ++ "): "
                          ++ list_repr path_nodes)],
              Some path_nodes)
    | Some (Raised (NetworkXNoPath _)) =>
        Some ([Log WARNING ("No path found between " ++ source_node_id
                            ++ " and " ++ destination_node_id
                            ++ " with weight '"
                            ++ weight_str weight_attribute ++ "'.")],
              None)
    | Some (Raised (NodeNotFound _)) =>
        Some ([Log ERROR ("Node not found during path calculation: "
                          ++ source_node_id ++ " or " ++ destination_node_id)],
              None)
    | Some (Raised e) =>
        Some ([Log ERROR ("Error finding path for " ++ source_node_id
                          ++ " -> " ++ destination_node_id ++ " (weight: "
                          ++ weight_str weight_attribute ++ "): "
                          ++ exc_str e)],
              None)
    end.

(** [target.update_status(status, details)].  No class of nodes.py or
    edges.py defines [update_status], so the attribute lookup decides the
    call: it raises unless the instance itself carries an attribute of
    that name, and a data attribute is not callable. *)
Definition update_status (target : Object) (status : string) (details : Value)
  : Object * Result Value :=
  match getattr target "update_status" with
  | Raised e => (target, Raised e)
  | Returned f =>
      (target,
       Raised (TypeError ("'" ++ type_name f ++ "' object is not callable")))
  end.

(** [SupplyChainNetwork.apply_disruption_to_node] *)
Definition apply_disruption_to_node (self : SupplyChainNetwork)
    (node_id : string) (disruption_details : Value) : Outcome :=
  match get_node self node_id with
  | Some node =>
      match update_status node "DISRUPTED" disruption_details with
      | (node', Raised e) =>
          ({| name := name self; graph := graph self;
              nodes_dict := store (nodes_dict self) node_id node';
              edges_dict := edges_dict self |}, [], Raised e)
      | (node', Returned _) =>
          ({| name := name self; graph := graph self;
              nodes_dict := store (nodes_dict self) node_id node';
              edges_dict := edges_dict self |},
           [Log INFO ("Applied disruption to node " ++ node_id ++ ": "
                      ++ str disruption_details)],
           Returned VNone)
      end
  | None =>
      (self,
       [Log WARNING ("Cannot apply disruption: Node " ++ node_id
                     ++ " not found.")],
       Returned VNone)
  end.

(** [SupplyChainNetwork.apply_disruption_to_edge] *)
Definition apply_disruption_to_edge (self : SupplyChainNetwork)
    (edge_id : string) (disruption_details : Value) : Outcome :=
  match get_edge self edge_id with
  | Some edge =>
      match update_status edge "DISRUPTED" disruption_details with
      | (edge', Raised e) =>
          ({| name := name self; graph := graph self;
              nodes_dict := nodes_dict self;
              edges_dict := store (edges_dict self) edge_id edge' |},
           [], Raised e)
      | (edge', Returned _) =>
          ({| name := name self; graph := graph self;
              nodes_dict := nodes_dict self;
              edges_dict := store (edges_dict self) edge_id edge' |},
           [Log INFO ("Applied disruption to edge " ++ edge_id ++ ": "
                      ++ str disruption_details)],
           Returned VNone)
      end
  | None =>
      (self,
       [Log WARNING ("Cannot apply disruption: Edge " ++ edge_id
                     ++ " not found.")],
       Returned VNone)
  end.

(** A call signals an error to its caller when it raises. *)
Definition signals_error (o : Outcome) : Prop :=
  exists e, result_of o = Raised e.

(** The value of the attribute [attr] of the object stored under [id], if
    both exist. *)
Definition node_attr (self : SupplyChainNetwork) (id attr : string)
  : option Value :=
  match get_node self id with
  | Some o => lookup (fields o) attr
  | None => None
  end.

(** ** Building a network *)

(** The keys of a dict, in insertion order. *)
Definition keys {V} (d : list (string * V)) : list string := map fst d.

Inductive Build :=
| AddNode (node_obj : Object)
| AddEdge (edge_obj : Object).

Definition build_step (net : SupplyChainNetwork) (b : Build)
  : SupplyChainNetwork :=
  match b with
  | AddNode o => network_of (add_node_object net o)
  | AddEdge o => network_of (add_edge_object net o)
  end.

(** The network after the additions of [bs], made one after the other,
    whatever each of them returned or raised. *)
Definition build (bs : list Build) (net : SupplyChainNetwork)
  : SupplyChainNetwork :=
  fold_left build_step bs net.

(** The graph entry of an edge agrees with the edge object stored under
    its key. *)
Definition edge_entry_ok (net : SupplyChainNetwork) (e : nx.EdgeEntry)
  : Prop :=
  mem (nodes_dict net) (nx.e_u e) = true
  /\ mem (nodes_dict net) (nx.e_v e) = true
  /\ exists o,
       lookup (edges_dict net) (nx.e_key e) = Some o
       /\ end_id o "source_node" = Returned (nx.e_u e)
       /\ end_id o "destination_node" = Returned (nx.e_v e)
       /\ nx.e_attr e = [("data", to_value o)].

(** The two lookup maps and the graph describe the same network. *)
Record consistent (net : SupplyChainNetwork) : Prop := {
  nodes_match : keys (nodes_dict net) = keys (nx._node (graph net));
  edges_match : keys (edges_dict net) = map nx.e_key (nx._edges (graph net));
  node_ids_unique : NoDup (keys (nodes_dict net));
  edge_ids_unique : NoDup (keys (edges_dict net));
  node_keys_are_ids :
    forall k o, lookup (nodes_dict net) k = Some o -> id_of o = Returned k;
  edge_keys_are_ids :
    forall k o, lookup (edges_dict net) k = Some o -> id_of o = Returned k;
  edge_entries_ok : Forall (edge_entry_ok net) (nx._edges (graph net))
}.


(** ** Paths *)

(** Some stored edge object leads from [u] to [v]. *)
Definition joined (net : SupplyChainNetwork) (u v : string) : Prop :=
  exists id o,
    get_edge net id = Some o
    /\ end_id o "source_node" = Returned u
    /\ end_id o "destination_node" = Returned v.

(** Each node of [p] is joined to the next one. *)
Definition walk (net : SupplyChainNetwork) (p : list string) : Prop :=
  nx.linked (joined net) p.

(** An addition whose edge object, if it adds one, was built by [Edge] or
    [TransportEdge] of edges.py. *)
Definition edges_py_only (b : Build) : Prop :=
  match b with
  | AddNode _ => True
  | AddEdge o =>
      (exists s t ty cap tt cost attrs,
         o = Edge_init "Edge" s t ty cap tt cost attrs)
      \/ (exists s t mode cap tt cost attrs,
            o = TransportEdge_init s t mode cap tt cost attrs)
  end.

(** The call returned a string, if it returned. *)
Definition returns_str (r : Result Value) : Prop :=
  match r with
  | Returned (VStr _) | Raised _ => True
  | Returned _ => False
  end.

(** The identifiers an addition reads are strings, as nodes.py and
    edges.py annotate them: the [id] of the object and, for an edge
    object, the [id]s of its two end nodes. *)
Definition str_ids (b : Build) : Prop :=
  match b with
  | AddNode o => returns_str (getattr o "id")
  | AddEdge o =>
      returns_str (getattr o "id")
      /\ returns_str (n <- getattr o "source_node" ;; getattr_value n "id")
      /\ returns_str (n <- getattr o "destination_node" ;;
                      getattr_value n "id")
  end.
End Network.

(* ===================================================================== *)
(** * Concrete inputs *)
(* ===================================================================== *)

Module Examples.
Import Py Obj.

(** ** Events *)

Definition ping : Callable := {| fn_name := "ping"; fn_raises := None |}.

Definition boom : Callable :=
  {| fn_name := "boom"; fn_raises := Some (RuntimeError "boom") |}.

(** A manager holding one event for step 1. *)
Definition one_queued : EventManager.EventManager :=
  fst (EventManager.schedule_event EventManager.new_manager 0 1
         EventManager.GENERAL boom "alarm" [] []).

(** ** Agents *)

Definition stub : Agents.AnyAgent :=
  Agents.Base (Agents.BaseAgent_init "stub" "uuid").

Definition storm : Agents.AnyAgent :=
  Agents.Disruption
    (fst (Agents.DisruptionAgent_init "storm" "uuid"
            {| Agents.cfg_disruption_type := None;
               Agents.cfg_magnitude := None;
               Agents.cfg_duration := Some 3;
               Agents.cfg_target_scope := None;
               Agents.cfg_start_step := Some 5 |})).

Definition two_day_engine : Engine.SimulationEngine Agents.AnyAgent :=
  Engine.register_all
    (fst (Engine.SimulationEngine_init
            {| Engine.simulation_name := None;
               Engine.total_steps := Some 2 |}))
    [stub; storm].

(** ** Networks *)

Definition port (id : string) : Object :=
  PortNode_init id ("Port " ++ id) VNone VNone VNone VNone "OPERATIONAL"
    VNone VNone [] "uuid".

Definition factory (id : string) : Object :=
  FactoryNode_init id ("Factory " ++ id) "RMG" (VNum 500) [] (VNum 0)
    "OPERATIONAL" VNone VNone [] "uuid".

(** An edge object as network_model.py reads it: an [Edge] that also
    carries [id], [source_node], [destination_node], and an attribute
    [weight]. *)
Definition link (id source_id target_id : string) (weight : Z) : Object :=
  let edge :=
    Edge_init "Edge" source_id target_id "Road" VNone VNone VNone [] in
  let edge := setattr edge "id" (VStr id) in
  let edge := setattr edge "source_node" (to_value (port source_id)) in
  let edge := setattr edge "destination_node" (to_value (port target_id)) in
  setattr edge "weight" (VNum weight).

Definition add_nodes (net : Network.SupplyChainNetwork) (l : list Object)
  : Network.SupplyChainNetwork :=
  fold_left (fun n o => Network.network_of (Network.add_node_object n o)) l net.

Definition add_edges (net : Network.SupplyChainNetwork) (l : list Object)
  : Network.SupplyChainNetwork :=
  fold_left (fun n o => Network.network_of (Network.add_edge_object n o)) l net.

(** Nodes [A], [B], [C]; edges [A -> B] of weight 5, [A -> C] and
    [C -> B] of weight 1. *)
Definition abc : Network.SupplyChainNetwork :=
  add_edges
    (add_nodes (fst (Network.SupplyChainNetwork_init "abc"))
       [port "A"; port "B"; port "C"])
    [link "AB" "A" "B" 5; link "AC" "A" "C" 1; link "CB" "C" "B" 1].

(** One factory [X], and an edge from it to itself. *)
Definition with_factory : Network.SupplyChainNetwork :=
  let net :=
    add_nodes (fst (Network.SupplyChainNetwork_init "x")) [factory "X"] in
  let loop := setattr (link "XX" "X" "X" 1) "source_node"
                (to_value (factory "X")) in
  let loop := setattr loop "destination_node" (to_value (factory "X")) in
  add_edges net [loop].

Definition flood : Value :=
  VDict [("type", VStr "Flood"); ("severity", VNum 3)].


(** ** Further instances *)

(** A disruption that starts at step 5 and lasts 3 steps. *)
Definition gale : Agents.DisruptionAgent :=
  fst (Agents.DisruptionAgent_init "gale" "uuid"
         {| Agents.cfg_disruption_type := None;
            Agents.cfg_magnitude := None;
            Agents.cfg_duration := Some 3;
            Agents.cfg_target_scope := None;
            Agents.cfg_start_step := Some 5 |}).

(** The two-day engine during its run, with one event queued for step 1. *)
Definition engine_on_day_1 : Engine.SimulationEngine Agents.AnyAgent :=
  {| Engine.config := Engine.config two_day_engine;
     Engine.env_now := 1;
     Engine.event_manager := one_queued;
     Engine.agents := Engine.agents two_day_engine;
     Engine.current_step := 0;
     Engine.running := true;
     Engine.results := Engine.results two_day_engine |}.

(** Ports [A] and [B] and an edge [A -> B], as a list of additions. *)
Definition ab : list Network.Build :=
  [Network.AddNode (port "A"); Network.AddNode (port "B");
   Network.AddEdge (link "AB" "A" "B" 5)].

(** A port and an [Edge] as edges.py constructs it. *)
Definition plain : list Network.Build :=
  [Network.AddNode (port "A");
   Network.AddEdge (Edge_init "Edge" "A" "A" "Road" VNone VNone VNone [])].
End Examples.

(* ===================================================================== *)
(** * Properties of the event manager *)
(* ===================================================================== *)

Local Open Scope list_scope.

Section EventManagerProperties.
Import Py EventManager.

Lemma calls_app {C} (a b : list (Py.Effect C)) :
  calls (a ++ b) = calls a ++ calls b.
Proof.
  induction a as [|x a IH]; simpl; [reflexivity|].
  destruct x; simpl; now rewrite IH.
Qed.

Lemma invoked_app (a b : list Effect) :
  invoked (a ++ b) = invoked a ++ invoked b.
Proof. apply calls_app. Qed.

(** ** What one call of [process_events] does *)

Lemma process_events_queue em t :
  queue_of (process_events em t)
  = filter (fun e => negb (due t e)) (event_queue em).
Proof.
  unfold queue_of, process_events.
  rewrite partition_as_filter.
  now destruct (filter (due t) (event_queue em)).
Qed.

Lemma process_events_next_id em t :
  next_id (fst (fst (process_events em t))) = next_id em.
Proof.
  unfold process_events.
  rewrite partition_as_filter.
  now destruct (filter (due t) (event_queue em)).
Qed.

Lemma trigger_invoked e :
  triggered e = false -> invoked (snd (trigger e)) = [e].
Proof.
  intros Hu. unfold trigger. rewrite Hu. simpl.
  now destruct (call (action e)).
Qed.

Lemma invoked_triggers l :
  Forall (fun e => triggered e = false) l ->
  invoked (flat_map (fun e => snd (trigger e)) l) = l.
Proof.
  induction 1 as [|e l He _ IH]; [reflexivity|].
  cbn [flat_map]. unfold invoked in *. rewrite calls_app, IH.
  change (calls (snd (trigger e))) with (invoked (snd (trigger e))).
  now rewrite (trigger_invoked e He).
Qed.

Lemma due_unfired t l :
  Forall (fun e => triggered e = false) (filter (due t) l).
Proof.
  apply Forall_forall. intros e He. apply filter_In in He.
  destruct He as [_ He]. unfold due in He.
  apply andb_true_iff in He. destruct He as [_ He].
  now apply negb_true_iff in He.
Qed.

Lemma process_events_invoked em t :
  invoked (effects_of (process_events em t)) = filter (due t) (event_queue em).
Proof.
  unfold effects_of, process_events.
  rewrite partition_as_filter.
  pose proof (due_unfired t (event_queue em)) as Hu.
  destruct (filter (due t) (event_queue em)) as [|e l] eqn:E; [reflexivity|].
  cbn [fst snd]. unfold invoked. cbn [calls]. apply (invoked_triggers _ Hu).
Qed.

(** The returned count is the number of due events, whether or not their
    actions raised. *)
Lemma process_events_count em t :
  snd (process_events em t)
  = Z.of_nat (List.length (filter (due t) (event_queue em))).
Proof.
  unfold process_events.
  rewrite partition_as_filter.
  now destruct (filter (due t) (event_queue em)).
Qed.

(** ** Sorting *)

Lemma list_sort_snoc_fold q e :
  list_sort (q ++ [e]) = fold_right insert_sorted [e] q.
Proof. unfold list_sort. now rewrite fold_right_app. Qed.

Lemma insert_sorted_least y l :
  Forall (by_step y) l -> insert_sorted y l = y :: l.
Proof.
  destruct 1 as [|z l Hz _]; [reflexivity|].
  unfold by_step in Hz. simpl. unfold Event_lt.
  destruct (Z.ltb_spec (step z) (step y)); [lia|reflexivity].
Qed.

Lemma place_least e l :
  Forall (fun z => step e < step z) l -> place e l = e :: l.
Proof.
  destruct 1 as [|z l Hz _]; [reflexivity|].
  simpl. destruct (Z.ltb_spec (step e) (step z)); [reflexivity|lia].
Qed.

Lemma in_place x e q : In x (place e q) <-> x = e \/ In x q.
Proof.
  induction q as [|y q IH]; cbn [place].
  - simpl. intuition.
  - destruct (step e <? step y); simpl in *; intuition.
Qed.

Lemma Forall_place (P : Event -> Prop) e q :
  P e -> Forall P q -> Forall P (place e q).
Proof.
  intros He Hq. apply Forall_forall. intros x Hx.
  apply in_place in Hx. destruct Hx as [->|Hx]; [exact He|].
  now apply (proj1 (Forall_forall P q) Hq).
Qed.

Lemma insert_sorted_place y e q :
  Forall (by_step y) q ->
  insert_sorted y (place e q) = place e (y :: q).
Proof.
  intros Hy. cbn [place].
  destruct (Z.ltb_spec (step e) (step y)) as [Hlt|Hge].
  - rewrite place_least.
    + cbn [insert_sorted]. unfold Event_lt.
      destruct (Z.ltb_spec (step e) (step y)); [|lia].
      now rewrite insert_sorted_least.
    + eapply Forall_impl; [|exact Hy]. unfold by_step. intros; lia.
  - apply insert_sorted_least. now apply Forall_place.
Qed.

(** Appending an event to a queue ordered by step and sorting puts the
    event behind the events that are not later than it. *)
Lemma list_sort_snoc q e :
  StronglySorted by_step q -> list_sort (q ++ [e]) = place e q.
Proof.
  rewrite list_sort_snoc_fold.
  induction 1 as [|y q Hq IH Hy]; [reflexivity|].
  cbn [fold_right]. rewrite IH. now apply insert_sorted_place.
Qed.

Lemma event_before_by_step a b : event_before a b -> by_step a b.
Proof. unfold event_before, by_step. lia. Qed.

Lemma StronglySorted_weaken {X} (R S : X -> X -> Prop) l :
  (forall a b, R a b -> S a b) -> StronglySorted R l -> StronglySorted S l.
Proof.
  intros HRS. induction 1 as [|a l Hl IH Ha]; constructor; [assumption|].
  eapply Forall_impl; [|exact Ha]. auto.
Qed.

Lemma StronglySorted_filter_keep {X} (R : X -> X -> Prop) (f : X -> bool) l :
  StronglySorted R l -> StronglySorted R (filter f l).
Proof.
  induction 1 as [|a l Hl IH Ha]; simpl; [constructor|].
  destruct (f a); [|assumption].
  constructor; [assumption|].
  apply Forall_forall. intros x Hx. apply filter_In in Hx.
  now apply (proj1 (Forall_forall _ _) Ha).
Qed.

Lemma StronglySorted_among {X} (R S : X -> X -> Prop) (P : X -> Prop) l :
  (forall a b, P a -> P b -> R a b -> S a b) ->
  Forall P l -> StronglySorted R l -> StronglySorted S l.
Proof.
  intros HRS HP. induction 1 as [|a l Hl IH Ha]; [constructor|].
  inversion HP as [|? ? Pa Pl]; subst.
  constructor; [now apply IH|].
  apply Forall_forall. intros b Hb.
  apply HRS; try assumption.
  - now apply (proj1 (Forall_forall _ _) Pl).
  - now apply (proj1 (Forall_forall _ _) Ha).
Qed.

Lemma Forall_filter_keep {X} (P : X -> Prop) (f : X -> bool) l :
  Forall P l -> Forall P (filter f l).
Proof.
  intros H. apply Forall_forall. intros x Hx. apply filter_In in Hx.
  now apply (proj1 (Forall_forall _ _) H).
Qed.

Lemma place_sorted e q :
  StronglySorted event_before q ->
  Forall (fun x => (ev_id x < ev_id e)%nat) q ->
  StronglySorted event_before (place e q).
Proof.
  induction 1 as [|y q Hq IH Hy]; intros Hid; cbn [place].
  - repeat constructor.
  - inversion Hid as [|? ? Hy_id Hq_id]; subst.
    destruct (Z.ltb_spec (step e) (step y)) as [Hlt|Hge].
    + constructor; [now constructor|].
      constructor; [now left|].
      eapply Forall_impl; [|exact Hy].
      unfold event_before. intros; lia.
    + constructor; [now apply IH|].
      apply Forall_place; [|assumption].
      unfold event_before. lia.
Qed.

Lemma in_insert_sorted x y l : In x (insert_sorted y l) <-> x = y \/ In x l.
Proof.
  induction l as [|z l IH]; cbn [insert_sorted].
  - simpl. intuition.
  - destruct (Event_lt z y); simpl in *; intuition.
Qed.

Lemma in_list_sort x l : In x (list_sort l) <-> In x l.
Proof.
  unfold list_sort. induction l as [|y l IH]; cbn [fold_right]; [tauto|].
  rewrite in_insert_sorted, IH. simpl. intuition.
Qed.

Lemma filter_insert_sorted_skip (f : Event -> bool) y l :
  f y = false -> filter f (insert_sorted y l) = filter f l.
Proof.
  intros Hy. induction l as [|z l IH]; cbn [insert_sorted].
  - simpl. now rewrite Hy.
  - destruct (Event_lt z y); simpl; rewrite ?Hy, ?IH; reflexivity.
Qed.

Lemma filter_sort_snoc (f : Event -> bool) q e :
  Forall (fun x => f x = false) q ->
  filter f (list_sort (q ++ [e])) = filter f [e].
Proof.
  rewrite list_sort_snoc_fold.
  induction 1 as [|y q Hy _ IH]; [reflexivity|].
  cbn [fold_right]. now rewrite filter_insert_sorted_skip.
Qed.

Lemma filter_twice {X} (f g : X -> bool) l :
  filter f (filter g l) = filter (fun x => g x && f x) l.
Proof.
  induction l as [|x l IH]; simpl; [reflexivity|].
  destruct (g x); simpl; rewrite IH; reflexivity.
Qed.

Lemma filter_none {X} (f : X -> bool) l :
  Forall (fun x => f x = false) l -> filter f l = [].
Proof.
  induction 1 as [|x l Hx _ IH]; simpl; [reflexivity|]. now rewrite Hx.
Qed.

(** ** What one call of [schedule_event] does *)

Lemma schedule_event_rejects em now s ty a d ar kw :
  s < now ->
  exists msg, schedule_event em now s ty a d ar kw = (em, [Log WARNING msg]).
Proof.
  intros H. unfold schedule_event.
  destruct (Z.ltb_spec s now); [|lia]. eauto.
Qed.

Lemma schedule_event_accepts em now s ty a d ar kw :
  now <= s ->
  fst (schedule_event em now s ty a d ar kw)
  = {| event_queue :=
         list_sort (event_queue em
                    ++ [Event_init (next_id em) s ty a d ar kw]);
       next_id := S (next_id em) |}.
Proof.
  intros H. unfold schedule_event.
  destruct (Z.ltb_spec s now); [lia|reflexivity].
Qed.

Lemma schedule_event_invoked em now s ty a d ar kw :
  invoked (snd (schedule_event em now s ty a d ar kw)) = [].
Proof.
  unfold schedule_event. now destruct (s <? now).
Qed.

Lemma schedule_event_queue_in em now s ty a d ar kw x :
  In x (event_queue (fst (schedule_event em now s ty a d ar kw))) ->
  In x (event_queue em) \/ x = Event_init (next_id em) s ty a d ar kw.
Proof.
  unfold schedule_event. destruct (s <? now); cbn [fst event_queue].
  - now left.
  - rewrite in_list_sort, in_app_iff. simpl. intuition.
Qed.

Lemma schedule_event_keeps em now s ty a d ar kw x :
  In x (event_queue em) ->
  In x (event_queue (fst (schedule_event em now s ty a d ar kw))).
Proof.
  unfold schedule_event. destruct (s <? now); cbn [fst event_queue].
  - trivial.
  - rewrite in_list_sort, in_app_iff. now left.
Qed.

(** ** The state between calls *)

Lemma new_manager_ok : queue_ok new_manager.
Proof. split; simpl; constructor. Qed.

Lemma schedule_event_ok em now s ty a d ar kw :
  queue_ok em -> queue_ok (fst (schedule_event em now s ty a d ar kw)).
Proof.
  intros [Hs Hf Hu].
  destruct (Z.ltb_spec s now) as [Hlt|Hge].
  - destruct (schedule_event_rejects em now s ty a d ar kw Hlt) as [msg ->].
    now split.
  - rewrite schedule_event_accepts by assumption.
    rewrite list_sort_snoc
      by (eapply StronglySorted_weaken; [apply event_before_by_step|exact Hs]).
    split; cbn [event_queue next_id].
    + apply place_sorted; assumption.
    + unfold ids_fresh. cbn [event_queue next_id].
      apply Forall_place; [simpl; lia|].
      eapply Forall_impl; [|exact Hf]. simpl. intros; lia.
    + apply Forall_place; [reflexivity|assumption].
Qed.

Lemma process_events_ok em t :
  queue_ok em -> queue_ok (fst (fst (process_events em t))).
Proof.
  intros [Hs Hf Hu].
  pose proof (process_events_queue em t) as Hq. unfold queue_of in Hq.
  split; unfold ids_fresh; rewrite ?process_events_next_id, Hq.
  - now apply StronglySorted_filter_keep.
  - now apply Forall_filter_keep.
  - now apply Forall_filter_keep.
Qed.

Lemma run_op_ok em op : queue_ok em -> queue_ok (fst (run_op em op)).
Proof.
  destruct op; cbn [run_op].
  - apply schedule_event_ok.
  - apply process_events_ok.
Qed.

Lemma run_ops_ok ops :
  forall em, queue_ok em -> queue_ok (fst (run_ops ops em)).
Proof.
  induction ops as [|op ops IH]; intros em Hok; cbn [run_ops]; [assumption|].
  pose proof (run_op_ok em op Hok) as H1.
  destruct (run_op em op) as [em1 fx1]. cbn [fst] in H1.
  specialize (IH em1 H1).
  destruct (run_ops ops em1) as [em2 fx2]. exact IH.
Qed.

(** ** Histories *)

(** Whatever a history of calls fires was queued before or is scheduled
    by one of the calls. *)
Lemma run_ops_invoked_origin ops : forall em x,
  In x (invoked (snd (run_ops ops em))) ->
  In (action x) (map action (event_queue em))
  \/ In (Some (action x)) (map op_action ops).
Proof.
  induction ops as [|op ops IH]; intros em x; cbn [run_ops].
  - simpl. tauto.
  - destruct (run_op em op) as [em1 fx1] eqn:E1.
    specialize (IH em1 x).
    destruct (run_ops ops em1) as [em2 fx2]. cbn [snd] in *.
    rewrite invoked_app, in_app_iff. intros [H1|H2].
    + destruct op as [now s ty a d ar kw|t]; cbn [run_op] in E1.
      * pose proof (schedule_event_invoked em now s ty a d ar kw) as Hn.
        rewrite E1 in Hn. cbn [snd] in Hn. rewrite Hn in H1. destruct H1.
      * pose proof (process_events_invoked em t) as Hp.
        unfold effects_of in Hp. rewrite E1 in Hp. cbn [snd] in Hp.
        rewrite Hp in H1. apply filter_In in H1. left.
        apply in_map. tauto.
    + destruct (IH H2) as [Hq|Hs]; [|right; now right].
      apply in_map_iff in Hq. destruct Hq as [y [Hy Hin]].
      destruct op as [now s ty a d ar kw|t]; cbn [run_op] in E1.
      * assert (em1 = fst (schedule_event em now s ty a d ar kw)) as ->
          by now rewrite E1.
        apply schedule_event_queue_in in Hin. destruct Hin as [Hin| ->].
        -- left. rewrite <- Hy. now apply in_map.
        -- right. left. cbn [op_action]. now rewrite <- Hy.
      * pose proof (process_events_queue em t) as Hp.
        unfold queue_of in Hp. rewrite E1 in Hp. cbn [fst] in Hp.
        rewrite Hp in Hin. apply filter_In in Hin. left.
        rewrite <- Hy. apply in_map. tauto.
Qed.

(** An event stays queued and unfired through every history of calls
    that never processes its step. *)
Lemma run_ops_keeps ops : forall em e,
  In e (event_queue em) ->
  Forall (fun op => match op with
                    | OProcess t => step e <> t
                    | OSchedule _ _ _ _ _ _ _ => True
                    end) ops ->
  In e (event_queue (fst (run_ops ops em)))
  /\ ~ In e (invoked (snd (run_ops ops em))).
Proof.
  induction ops as [|op ops IH]; intros em e Hin Hops; cbn [run_ops].
  - simpl. tauto.
  - inversion Hops as [|? ? Hop Hrest]; subst.
    destruct (run_op em op) as [em1 fx1] eqn:E1.
    assert (In e (event_queue em1) /\ ~ In e (invoked fx1)) as [Hin1 Hno1].
    { destruct op as [now s ty a d ar kw|t]; cbn [run_op] in E1.
      - pose proof (schedule_event_keeps em now s ty a d ar kw e Hin) as Hk.
        pose proof (schedule_event_invoked em now s ty a d ar kw) as Hn.
        rewrite E1 in Hk, Hn. cbn [fst snd] in Hk, Hn.
        rewrite Hn. split; [assumption|tauto].
      - pose proof (process_events_queue em t) as Hq.
        pose proof (process_events_invoked em t) as Hf.
        unfold queue_of, effects_of in Hq, Hf.
        rewrite E1 in Hq, Hf. cbn [fst snd] in Hq, Hf.
        assert (due t e = false) as Hd.
        { unfold due. destruct (Z.eqb_spec (step e) t); [contradiction|].
          reflexivity. }
        rewrite Hq, Hf. split.
        + apply filter_In. now rewrite Hd.
        + intros Hx. apply filter_In in Hx. destruct Hx as [_ Hx]. congruence. }
    specialize (IH em1 e Hin1 Hrest).
    destruct (run_ops ops em1) as [em2 fx2]. cbn [fst snd] in *.
    rewrite invoked_app, in_app_iff. tauto.
Qed.

(** ** The claims about the event manager *)

(** C4.  Scheduling an event for a step that is not past and then
    processing that step calls the action of the new event exactly once,
    whether or not the action raises, and removes the event; processing
    the same step again calls no action at all. *)
Theorem schedule_then_process_fires_once :
  forall (em : EventManager) (now tick : Z) (ty : EventType) (a : Callable)
         (d : string) (ar : list string) (kw : list (string * string)),
  ids_fresh em ->
  now <= tick ->
  let e := Event_init (next_id em) tick ty a d ar kw in
  let em1 := fst (schedule_event em now tick ty a d ar kw) in
  let first := process_events em1 tick in
  let second := process_events (fst (fst first)) tick in
  In e (event_queue em1)
  /\ action e = a
  /\ invocations (ev_id e) (effects_of first) = [e]
  /\ ~ In e (queue_of first)
  /\ invoked (effects_of second) = [].
Proof.
  intros em now tick ty a d ar kw Hfresh Hle e em1 first second.
  assert (event_queue em1 = list_sort (event_queue em ++ [e])) as Hq1.
  { unfold em1. now rewrite schedule_event_accepts. }
  assert (due tick e = true) as Hdue.
  { unfold due, e. simpl. now rewrite Z.eqb_refl. }
  split; [|split; [|split; [|split]]].
  - rewrite Hq1, in_list_sort, in_app_iff. right. now left.
  - reflexivity.
  - unfold invocations, first.
    rewrite process_events_invoked, filter_twice, Hq1.
    rewrite filter_sort_snoc.
    + simpl. fold e. rewrite Hdue. simpl. now rewrite Nat.eqb_refl.
    + eapply Forall_impl; [|exact Hfresh]. intros x Hx. simpl in Hx |- *.
      destruct (Nat.eqb_spec (ev_id x) (next_id em)); [lia|].
      apply andb_false_r.
  - unfold first. rewrite process_events_queue. intros Hin.
    apply filter_In in Hin. rewrite Hdue in Hin. now destruct Hin.
  - unfold second. rewrite process_events_invoked.
    fold (queue_of first). unfold first. rewrite process_events_queue.
    apply filter_none. apply Forall_forall. intros x Hx.
    apply filter_In in Hx. destruct Hx as [_ Hx].
    now apply negb_true_iff in Hx.
Qed.

(** C6.  A call of [schedule_event] for a step below the current time
    leaves the manager as it was and logs one record, at warning level;
    and if the callable is not queued already and is not scheduled again,
    no later history of calls ever calls it. *)
Theorem past_schedule_never_fires :
  forall (em : EventManager) (now T : Z) (ty : EventType) (a : Callable)
         (d : string) (ar : list string) (kw : list (string * string)),
  T < now ->
  let r := schedule_event em now T ty a d ar kw in
  fst r = em
  /\ (exists msg, snd r = [Log WARNING msg])
  /\ forall ops : list Op,
       ~ In a (map action (event_queue em)) ->
       ~ In (Some a) (map op_action ops) ->
       ~ In a (map action (invoked (snd (run_ops ops (fst r))))).
Proof.
  intros em now T ty a d ar kw Hlt r.
  destruct (schedule_event_rejects em now T ty a d ar kw Hlt) as [msg Hr].
  unfold r. rewrite Hr. cbn [fst snd].
  split; [reflexivity|]. split; [now exists msg|].
  intros ops Hq Hops Hin.
  apply in_map_iff in Hin. destruct Hin as [x [Hx Hin]].
  apply run_ops_invoked_origin in Hin. rewrite Hx in Hin. tauto.
Qed.

(** ** Histories and the order of scheduling *)

Lemma insert_sorted_perm x l : Permutation (insert_sorted x l) (x :: l).
Proof.
  induction l as [|y l IH]; cbn [insert_sorted]; [reflexivity|].
  destruct (Event_lt y x); [|reflexivity].
  rewrite IH. apply perm_swap.
Qed.

Lemma list_sort_perm l : Permutation (list_sort l) l.
Proof.
  unfold list_sort. induction l as [|x l IH]; cbn [fold_right]; [reflexivity|].
  rewrite insert_sorted_perm. now constructor.
Qed.

Lemma Permutation_filter_keep {X} (f : X -> bool) l l' :
  Permutation l l' -> Permutation (filter f l) (filter f l').
Proof.
  induction 1 as [|x l l' _ IH|x y l|l l' l'' _ IH1 _ IH2]; cbn [filter].
  - constructor.
  - destruct (f x); [now constructor|assumption].
  - destruct (f x), (f y); try reflexivity. apply perm_swap.
  - now transitivity (filter f l').
Qed.

Lemma filter_comm {X} (f g : X -> bool) l :
  filter f (filter g l) = filter g (filter f l).
Proof.
  rewrite !filter_twice. apply filter_ext. intros x. apply andb_comm.
Qed.

Lemma StronglySorted_snoc {X} (R : X -> X -> Prop) l x :
  StronglySorted R l -> Forall (fun y => R y x) l ->
  StronglySorted R (l ++ [x]).
Proof.
  induction 1 as [|y l Hl IH Hy]; intros Hx; cbn [app].
  - repeat constructor.
  - inversion Hx as [|? ? Hyx Hlx]; subst.
    constructor; [now apply IH|].
    apply Forall_app. split; [assumption|]. now repeat constructor.
Qed.

(** Among the events of one step, [place] puts the new event last. *)
Lemma filter_place e q t :
  StronglySorted by_step q ->
  filter (fun x => step x =? t) (place e q)
  = filter (fun x => step x =? t) q ++ filter (fun x => step x =? t) [e].
Proof.
  induction 1 as [|y q Hq IH Hy]; [reflexivity|]. cbn [place].
  destruct (Z.ltb_spec (step e) (step y)) as [Hlt|Hge].
  - cbn [filter]. destruct (Z.eqb_spec (step e) t) as [He|He].
    + assert (filter (fun x => step x =? t) (y :: q) = []) as Hnone.
      { apply filter_none. constructor.
        - apply Z.eqb_neq. lia.
        - eapply Forall_impl; [|exact Hy]. unfold by_step.
          intros z Hz. cbn beta. apply Z.eqb_neq. lia. }
      cbn [filter] in Hnone. now rewrite Hnone.
    + now rewrite app_nil_r.
  - cbn [filter]. rewrite IH. now destruct (step y =? t).
Qed.

(** The queue holds the waiting events of the history, and for each step
    it holds them in the order in which they were scheduled. *)
Lemma run_ops_pending ops : forall em waiting,
  queue_ok em ->
  (forall t, filter (fun e => step e =? t) (event_queue em)
             = filter (fun e => step e =? t) waiting) ->
  Permutation (event_queue em) waiting ->
  StronglySorted (fun a b => (ev_id a < ev_id b)%nat) waiting ->
  let em' := fst (run_ops ops em) in
  let waiting' := pending_from (next_id em) waiting ops in
  (forall t, filter (fun e => step e =? t) (event_queue em')
             = filter (fun e => step e =? t) waiting')
  /\ Permutation (event_queue em') waiting'
  /\ StronglySorted (fun a b => (ev_id a < ev_id b)%nat) waiting'.
Proof.
  induction ops as [|op ops IH]; intros em waiting Hok Hf Hp Hs;
    [cbn; auto|].
  assert (fst (run_ops (op :: ops) em) = fst (run_ops ops (fst (run_op em op))))
    as ->.
  { cbn [run_ops]. destruct (run_op em op) as [em1 fx1]. cbn [fst].
    now destruct (run_ops ops em1). }
  destruct op as [now s ty a d ar kw|t]; cbn [run_op pending_from].
  - destruct (Z.ltb_spec s now) as [Hlt|Hge].
    + destruct (schedule_event_rejects em now s ty a d ar kw Hlt) as [msg ->].
      cbn [fst]. apply IH; assumption.
    + pose proof (schedule_event_ok em now s ty a d ar kw Hok) as Hok1.
      rewrite schedule_event_accepts in * by assumption.
      destruct Hok as [Hsorted Hfresh Hunfired].
      assert (StronglySorted by_step (event_queue em)) as Hby
        by (eapply StronglySorted_weaken;
            [apply event_before_by_step|exact Hsorted]).
      apply (IH _ (waiting ++ [Event_init (next_id em) s ty a d ar kw]) Hok1);
        cbn [event_queue next_id].
      * intros t. rewrite list_sort_snoc by assumption.
        rewrite filter_place by assumption. now rewrite filter_app, Hf.
      * rewrite list_sort_perm. now apply Permutation_app_tail.
      * apply StronglySorted_snoc; [assumption|].
        apply Forall_forall. intros x Hx. cbn [ev_id Event_init].
        apply (Permutation_in _ (Permutation_sym Hp)) in Hx.
        exact (proj1 (Forall_forall _ _) Hfresh x Hx).
  - pose proof (process_events_ok em t Hok) as Hok1.
    pose proof (process_events_queue em t) as Hq. unfold queue_of in Hq.
    assert (event_queue (fst (fst (process_events em t)))
            = filter (fun e => negb (step e =? t)) (event_queue em)) as Hq'.
    { rewrite Hq. apply filter_ext_in. intros e He. unfold due.
      rewrite (proj1 (Forall_forall _ _) (ok_unfired _ Hok) e He).
      now rewrite andb_true_r. }
    rewrite <- (process_events_next_id em t).
    apply (IH _ _ Hok1).
    + intros t'. rewrite Hq'. rewrite filter_comm, Hf. apply filter_comm.
    + rewrite Hq'. now apply Permutation_filter_keep.
    + now apply StronglySorted_filter_keep.
Qed.

(** C8.  After any history of [schedule_event] and [process_events] calls
    on a new manager, the queue holds exactly the waiting events of the
    history (those scheduled for a step that was not in the past and not
    yet taken out by a [process_events] of their step), ordered by step
    and, among equal steps, by creation, and creation order is the order
    of the [schedule_event] calls.  [process_events T] calls the actions
    of the waiting events of step [T] in the order in which they were
    scheduled: the first scheduled fires first. *)
Theorem first_scheduled_first_fired : forall (ops : list Op) (T : Z),
  let em := fst (run_ops ops new_manager) in
  let fired := invoked (effects_of (process_events em T)) in
  StronglySorted event_before (event_queue em)
  /\ ids_fresh em
  /\ fired = filter (fun e => step e =? T) (event_queue em)
  /\ StronglySorted (fun a b => (ev_id a < ev_id b)%nat) fired
  /\ Permutation (event_queue em) (pending ops)
  /\ StronglySorted (fun a b => (ev_id a < ev_id b)%nat) (pending ops)
  /\ fired = filter (fun e => step e =? T) (pending ops).
Proof.
  intros ops T em fired.
  destruct (run_ops_ok ops new_manager new_manager_ok) as [Hs Hf Hu].
  fold em in Hs, Hf, Hu.
  assert (fired = filter (fun e => step e =? T) (event_queue em)) as Hfired.
  { unfold fired. rewrite process_events_invoked.
    apply filter_ext_in. intros e He. unfold due.
    rewrite (proj1 (Forall_forall _ _) Hu e He). apply andb_true_r. }
  destruct (run_ops_pending ops new_manager [] new_manager_ok)
    as (Pf & Pp & Ps);
    [reflexivity|constructor|constructor|].
  cbv zeta in Pf, Pp, Ps. fold em in Pf, Pp.
  change (pending_from (next_id new_manager) [] ops) with (pending ops) in *.
  split; [assumption|]. split; [assumption|]. split; [assumption|].
  split.
  { rewrite Hfired.
    apply StronglySorted_among
      with (R := event_before) (P := fun e => step e = T).
    - unfold event_before. intros a b Ha Hb. lia.
    - apply Forall_forall. intros e He. apply filter_In in He.
      now apply Z.eqb_eq.
    - now apply StronglySorted_filter_keep. }
  split; [assumption|]. split; [assumption|].
  rewrite Hfired. apply Pf.
Qed.

(** C10.  [process_events t] keeps exactly the events that are not due at
    [t], in their order, and calls the actions of exactly the due ones,
    whether or not an action raises.  Hence an event whose step is below
    [t] is neither fired nor removed by that call, nor by any later
    history of calls that only processes steps above [t]. *)
Theorem process_events_removes_exactly_due :
  forall (em : EventManager) (t : Z),
  let r := process_events em t in
  queue_of r = filter (fun e => negb (due t e)) (event_queue em)
  /\ invoked (effects_of r) = filter (due t) (event_queue em)
  /\ forall (e : Event) (later : list Op),
       In e (event_queue em) ->
       step e < t ->
       Forall (fun op => match op with
                         | OProcess t' => t < t'
                         | OSchedule _ _ _ _ _ _ _ => True
                         end) later ->
       let r' := run_ops (OProcess t :: later) em in
       In e (event_queue (fst r')) /\ ~ In e (invoked (snd r')).
Proof.
  intros em t r. unfold r.
  split; [apply process_events_queue|].
  split; [apply process_events_invoked|].
  intros e later Hin Hlt Hlater.
  apply run_ops_keeps; [assumption|].
  constructor; [lia|].
  eapply Forall_impl; [|exact Hlater].
  intros [ | t'] Hop; [trivial|lia].
Qed.

End EventManagerProperties.

(** ** The claims at concrete inputs *)

Section EventManagerInstances.
Import Py EventManager Examples.

Lemma schedule_then_process_fires_once_witness :
  ids_fresh new_manager
  /\ 0 <= 2
  /\ invocations 0
       (effects_of
          (process_events
             (fst (schedule_event new_manager 0 2 GENERAL boom "alarm" [] [])) 2))
     = [Event_init 0 2 GENERAL boom "alarm" [] []].
Proof.
  assert (ids_fresh new_manager) as H1 by apply Forall_nil.
  assert (0 <= 2) as H2 by lia.
  split; [exact H1|]. split; [exact H2|].
  exact (proj1 (proj2 (proj2
           (schedule_then_process_fires_once
              new_manager 0 2 GENERAL boom "alarm" [] [] H1 H2)))).
Defined.

Lemma past_schedule_never_fires_witness :
  2 < 3
  /\ fst (schedule_event one_queued 3 2 GENERAL ping "late" [] []) = one_queued
  /\ ~ In ping
         (map action
            (invoked
               (snd (run_ops [OProcess 1; OProcess 2; OProcess 3]
                       (fst (schedule_event one_queued 3 2 GENERAL ping
                               "late" [] [])))))).
Proof.
  assert (2 < 3) as H by lia.
  pose proof (past_schedule_never_fires
                one_queued 3 2 GENERAL ping "late" [] [] H) as [H1 [_ H3]].
  split; [exact H|]. split; [exact H1|].
  apply (H3 [OProcess 1; OProcess 2; OProcess 3]).
  - simpl. intros [E|[]]. discriminate E.
  - simpl. intros [E|[E|[E|[]]]]; discriminate E.
Defined.

Lemma process_events_removes_exactly_due_witness :
  In (Event_init 0 1 GENERAL boom "alarm" [] []) (event_queue one_queued)
  /\ 1 < 2
  /\ In (Event_init 0 1 GENERAL boom "alarm" [] [])
       (event_queue (fst (run_ops [OProcess 2; OProcess 3] one_queued)))
  /\ ~ In (Event_init 0 1 GENERAL boom "alarm" [] [])
         (invoked (snd (run_ops [OProcess 2; OProcess 3] one_queued))).
Proof.
  assert (In (Event_init 0 1 GENERAL boom "alarm" [] []) (event_queue one_queued))
    as H1 by (simpl; left; reflexivity).
  assert (1 < 2) as H2 by lia.
  split; [exact H1|]. split; [exact H2|].
  apply (proj2 (proj2 (process_events_removes_exactly_due one_queued 2))
           (Event_init 0 1 GENERAL boom "alarm" [] []) [OProcess 3] H1 H2).
  constructor; [lia|constructor].
Defined.

End EventManagerInstances.

(* ===================================================================== *)
(** * Properties of the disruption agent *)
(* ===================================================================== *)

Section AgentProperties.
Import Py Agents.

Lemma steps_app {A} `{Agent A} (a : A) (l1 l2 : list Z) :
  steps a (l1 ++ l2)
  = let (a1, fx1) := steps a l1 in
    let (a2, fx2) := steps a1 l2 in (a2, fx1 ++ fx2).
Proof.
  revert a. induction l1 as [|t l1 IH]; intros a; cbn [steps app].
  - now destruct (steps a l2).
  - destruct (step a t) as [[a' fx] r]. rewrite IH.
    destruct (steps a' l1) as [a1 fx1].
    destruct (steps a1 l2) as [a2 fx2]. now rewrite app_assoc.
Qed.

(** The transitions of [DisruptionAgent.step]. *)

Lemma step_waits (a : DisruptionAgent) (t : Z) :
  active a = false -> start_step a < 0 \/ t < start_step a ->
  DisruptionAgent_step a t = (a, [], Returned tt).
Proof.
  intros Ha Hs. unfold DisruptionAgent_step. rewrite Ha.
  destruct (Z.geb_spec (start_step a) 0);
    destruct (Z.geb_spec t (start_step a)); try reflexivity; lia.
Qed.

Lemma step_activates (a : DisruptionAgent) (t : Z) :
  active a = false -> 0 <= start_step a <= t ->
  exists msg,
    DisruptionAgent_step a t
    = (set_active a true (Some (duration a)),
       Log INFO msg :: apply_impact (set_active a true (Some (duration a))) t,
       Returned tt).
Proof.
  intros Ha [H0 Ht]. unfold DisruptionAgent_step. rewrite Ha.
  destruct (Z.geb_spec (start_step a) 0); [|lia].
  destruct (Z.geb_spec t (start_step a)); [|lia]. cbn [negb andb]. eauto.
Qed.

Lemma step_counts_down (a : DisruptionAgent) (t r : Z) :
  active a = true -> duration_remaining a = Some r -> 0 < r ->
  exists msg,
    DisruptionAgent_step a t
    = (set_active a true (Some (r - 1)), [Log DEBUG msg], Returned tt).
Proof.
  intros Ha Hr H0. unfold DisruptionAgent_step. rewrite Ha, Hr.
  cbn [negb andb].
  destruct (Z.gtb_spec r 0); [eauto|lia].
Qed.

Lemma step_ends (a : DisruptionAgent) (t r : Z) :
  active a = true -> duration_remaining a = Some r -> r <= 0 ->
  exists msg,
    DisruptionAgent_step a t
    = (set_active a false (Some r),
       Log INFO msg :: remove_impact (set_active a false (Some r)) t,
       Returned tt).
Proof.
  intros Ha Hr H0. unfold DisruptionAgent_step. rewrite Ha, Hr.
  cbn [negb andb].
  destruct (Z.gtb_spec r 0); [lia|eauto].
Qed.

(** An active agent with [r] steps remaining stays active for [r] more
    steps and ends on the step after them. *)
Lemma countdown_then_end (r : nat) :
  forall (a : DisruptionAgent) (ticks : list Z) (t : Z),
  active a = true ->
  duration_remaining a = Some (Z.of_nat r) ->
  List.length ticks = r ->
  active (fst (steps a ticks)) = true
  /\ calls (snd (steps a ticks)) = []
  /\ active (fst (steps a (ticks ++ [t]))) = false
  /\ calls (snd (steps a (ticks ++ [t])))
     = [remove_impact_call (d_agent_id a) t].
Proof.
  induction r as [|r IH]; intros a ticks t Ha Hr Hlen.
  - destruct ticks; [|discriminate]. cbn [steps app step DisruptionAgent_Agent].
    destruct (step_ends a t 0 Ha Hr) as [msg ->]; [lia|]. cbn.
    repeat split; assumption.
  - destruct ticks as [|t0 ticks]; [discriminate|].
    injection Hlen as Hlen.
    cbn [steps app step DisruptionAgent_Agent].
    destruct (step_counts_down a t0 _ Ha Hr) as [msg ->]; [lia|].
    set (a1 := set_active a true (Some (Z.of_nat (S r) - 1))).
    assert (duration_remaining a1 = Some (Z.of_nat r)) as Hr1
      by (unfold a1, set_active; cbn [duration_remaining]; f_equal; lia).
    destruct (IH a1 ticks t eq_refl Hr1 Hlen) as (H1 & H2 & H3 & H4).
    change (@step _ DisruptionAgent_Agent) with DisruptionAgent_step in *.
    destruct (steps a1 ticks) as [a2 fx2].
    destruct (steps a1 (ticks ++ [t])) as [a3 fx3].
    cbn [fst snd calls app] in *. repeat split; assumption.
Qed.

(** From activation to the end: an inactive agent whose start step has
    come applies its impact on its next step [t0], is still active after
    [duration] further steps, and removes the impact on the step after
    those. *)
Lemma activation_then_end :
  forall (a : DisruptionAgent) (t0 : Z) (ticks : list Z) (t : Z),
  active a = false ->
  0 <= start_step a <= t0 ->
  0 <= duration a ->
  List.length ticks = Z.to_nat (duration a) ->
  active (fst (steps a (t0 :: ticks))) = true
  /\ calls (snd (steps a (t0 :: ticks)))
     = [apply_impact_call (d_agent_id a) t0]
  /\ active (fst (steps a (t0 :: ticks ++ [t]))) = false
  /\ calls (snd (steps a (t0 :: ticks ++ [t])))
     = [apply_impact_call (d_agent_id a) t0;
        remove_impact_call (d_agent_id a) t].
Proof.
  intros a t0 ticks t Ha Hs Hd Hlen.
  cbn [steps step DisruptionAgent_Agent].
  destruct (step_activates a t0 Ha Hs) as [msg ->].
  set (a1 := set_active a true (Some (duration a))).
  assert (duration_remaining a1 = Some (Z.of_nat (Z.to_nat (duration a))))
    as Hr1 by (unfold a1, set_active; cbn [duration_remaining]; f_equal; lia).
  destruct (countdown_then_end _ a1 ticks t eq_refl Hr1 Hlen)
    as (H1 & H2 & H3 & H4).
  change (@step _ DisruptionAgent_Agent) with DisruptionAgent_step in *.
  destruct (steps a1 ticks) as [a2 fx2].
  destruct (steps a1 (ticks ++ [t])) as [a3 fx3].
  cbn [fst snd calls app apply_impact] in *.
  rewrite H2, H4. repeat split; assumption.
Qed.

(** C1.  A disruption agent configured with [start_step = 5] and
    [duration = 3], stepped for ticks 0, 1, 2, ...: it is inactive
    through [step(4)] and activates and applies its impact once at
    [step(5)]; it is active after [step(6)], [step(7)] and also after
    [step(8)], where no impact is removed; the impact is removed at
    [step(9)], and [step(10)] activates the agent and applies the impact a
    second time. *)
Theorem disruption_start_5_duration_3 :
  forall (id uuid : string) (kind magnitude scope : option string),
  let config :=
    {| cfg_disruption_type := kind; cfg_magnitude := magnitude;
       cfg_duration := Some 3; cfg_target_scope := scope;
       cfg_start_step := Some 5 |} in
  let agent := fst (DisruptionAgent_init id uuid config) in
  let name := d_agent_id agent in
  let upto n := steps agent (range 0 (n + 1)) in
  active (fst (upto 4)) = false /\ calls (snd (upto 4)) = []
  /\ active (fst (upto 5)) = true
  /\ calls (snd (upto 5)) = [apply_impact_call name 5]
  /\ active (fst (upto 6)) = true /\ active (fst (upto 7)) = true
  /\ active (fst (upto 8)) = true
  /\ calls (snd (upto 8)) = [apply_impact_call name 5]
  /\ active (fst (upto 9)) = false
  /\ calls (snd (upto 9))
     = [apply_impact_call name 5; remove_impact_call name 9]
  /\ active (fst (upto 10)) = true
  /\ calls (snd (upto 10))
     = [apply_impact_call name 5; remove_impact_call name 9;
        apply_impact_call name 10].
Proof.
  intros id uuid kind magnitude scope config agent name upto.
  repeat split; reflexivity.
Qed.

End AgentProperties.

(* ===================================================================== *)
(** * Properties of the simulation loop *)
(* ===================================================================== *)

Section EngineProperties.
Import Py Engine.
Context {A : Type} `{Agents.Agent A}.

Lemma step_calls_app (a b : list Effect) :
  step_calls (a ++ b) = step_calls a ++ step_calls b.
Proof.
  induction a as [|x a IH]; [reflexivity|].
  destruct x as [l m|[e|id day|c]]; cbn [step_calls app]; now rewrite IH.
Qed.

Lemma step_calls_of_agents fx : step_calls (of_agents fx) = [].
Proof.
  induction fx as [|x fx IH]; [reflexivity|]. now destruct x.
Qed.

Lemma step_calls_of_events fx : step_calls (of_events fx) = [].
Proof.
  induction fx as [|x fx IH]; [reflexivity|]. now destruct x.
Qed.

Lemma step_agents_app (l1 l2 : list A) day :
  step_agents (l1 ++ l2) day
  = (fst (step_agents l1 day) ++ fst (step_agents l2 day),
     snd (step_agents l1 day) ++ snd (step_agents l2 day)).
Proof.
  induction l1 as [|a l1 IH]; cbn [step_agents app].
  - now destruct (step_agents l2 day).
  - destruct (Agents.step a day) as [[a' fx] r]. rewrite IH.
    destruct (step_agents l1 day) as [r1 f1]. cbn [fst snd].
    f_equal. cbn [app]. f_equal. now rewrite <- !app_assoc.
Qed.

(** Every agent is stepped once, in registration order. *)
Lemma step_agents_calls (agents : list A) day :
  step_calls (snd (step_agents agents day)) = day_calls agents day.
Proof.
  unfold day_calls.
  induction agents as [|a l IH]; [reflexivity|].
  cbn [step_agents map].
  destruct (Agents.step a day) as [[a' fx] r].
  destruct (step_agents l day) as [l' fx']. cbn [fst snd] in *.
  cbn [step_calls]. rewrite !step_calls_app, step_calls_of_agents.
  cbn [app]. f_equal. rewrite <- IH. now destruct r.
Qed.

Lemma step_agents_agents (agents : list A) day :
  fst (step_agents agents day) = after_day agents day.
Proof.
  unfold after_day.
  induction agents as [|a l IH]; [reflexivity|].
  cbn [step_agents map].
  destruct (Agents.step a day) as [[a' fx] r].
  destruct (step_agents l day) as [l' fx']. cbn [fst snd] in *.
  now rewrite <- IH.
Qed.

(** The trace of a day around an agent whose step raises. *)
Lemma step_agents_error (before after : list A) (agent : A) day e :
  snd (Agents.step agent day) = Raised e ->
  snd (step_agents (before ++ agent :: after) day)
  = snd (step_agents before day)
    ++ Call (step_call (Agents.agent_id agent) day)
       :: of_agents (snd (fst (Agents.step agent day)))
    ++ step_error (fst (fst (Agents.step agent day))) e
       :: snd (step_agents after day).
Proof.
  intros He. rewrite step_agents_app. cbn [snd step_agents].
  destruct (Agents.step agent day) as [[a' fx] r]. cbn [fst snd] in *.
  subst r. destruct (step_agents after day) as [l' fx'].
  cbn [snd]. reflexivity.
Qed.

Lemma days_loop_calls (days : list Z) :
  forall eng : SimulationEngine A,
  running eng = true ->
  step_calls (snd (days_loop never days eng)) = run_calls (agents eng) days
  /\ agents (fst (days_loop never days eng))
     = fold_left after_day days (agents eng).
Proof.
  induction days as [|day rest IH]; intros eng Hrun; [split; reflexivity|].
  cbn [days_loop run_calls fold_left].
  destruct (EventManager.process_events (event_manager eng) day)
    as [[em' fx_ev] n].
  pose proof (step_agents_calls (agents eng) day) as Hc.
  pose proof (step_agents_agents (agents eng) day) as Ha.
  destruct (step_agents (agents eng) day) as [agents' fx_ag].
  cbn [fst snd never] in *. rewrite Hrun. cbn [negb].
  match goal with |- context [days_loop never rest ?e] =>
    specialize (IH e eq_refl); destruct (days_loop never rest e) as [eng3 fx3]
  end.
  cbn [fst snd agents] in *. subst agents'.
  destruct IH as [IH1 IH2]. split; [|exact IH2].
  cbn [running negb snd app step_calls].
  rewrite !step_calls_app, step_calls_of_events, app_nil_r.
  cbn [app]. now rewrite Hc, IH1.
Qed.

(** Unless someone stops the run, every agent is stepped on every day of
    it. *)
Lemma simulation_loop_calls (eng : SimulationEngine A) (elapsed : string) :
  step_calls (snd (_simulation_loop never elapsed eng))
  = run_calls (agents eng)
      (Agents.range 0 (Agents.get (total_steps (config eng)) 100)).
Proof.
  unfold _simulation_loop.
  match goal with |- context [days_loop never ?d ?e] =>
    destruct (days_loop_calls d e eq_refl) as [Hc _];
    destruct (days_loop never d e) as [eng2 fx]
  end.
  cbn [snd fst agents] in *.
  cbn [_collect_final_results snd step_calls].
  rewrite step_calls_app. cbn [step_calls]. now rewrite app_nil_r.
Qed.

Lemma register_all_fields (l : list A) : forall eng,
  agents (register_all eng l) = agents eng ++ l
  /\ config (register_all eng l) = config eng
  /\ current_step (register_all eng l) = current_step eng
  /\ results (register_all eng l) = results eng.
Proof.
  unfold register_all.
  induction l as [|a l IH]; intros eng; cbn [fold_left].
  - now rewrite app_nil_r.
  - destruct (IH (fst (_register_agent eng a))) as (H1 & H2 & H3 & H4).
    rewrite H1, H2, H3, H4. cbn. now rewrite <- app_assoc.
Qed.

Lemma dict_get_set_same (d : Results) k v :
  dict_get (dict_set d k v) k = Some v.
Proof.
  induction d as [|[k' v'] d IH]; cbn [dict_set dict_get].
  - now rewrite String.eqb_refl.
  - destruct (String.eqb k' k) eqn:E; cbn [dict_get].
    + now rewrite String.eqb_refl.
    + now rewrite E.
Qed.

Lemma dict_get_set_other (d : Results) k k' v :
  k' <> k -> dict_get (dict_set d k' v) k = dict_get d k.
Proof.
  intros Hne. induction d as [|[k0 v0] d IH]; cbn [dict_set dict_get].
  - apply String.eqb_neq in Hne. now rewrite Hne.
  - destruct (String.eqb_spec k0 k') as [->|H0]; cbn [dict_get].
    + apply String.eqb_neq in Hne. now rewrite Hne.
    + now rewrite IH.
Qed.

Lemma days_loop_last (days : list Z) :
  forall e : SimulationEngine A,
  running e = true ->
  days <> [] ->
  current_step (fst (days_loop never days e)) = last days 0
  /\ results (fst (days_loop never days e)) = results e.
Proof.
  induction days as [|day rest IH]; intros e Hrun Hne; [contradiction|].
  cbn [days_loop].
  destruct (EventManager.process_events (event_manager e) day)
    as [[em' fx_ev] k].
  destruct (step_agents (agents e) day) as [agents' fx_ag].
  cbn [never running negb]. rewrite Hrun. cbn [negb].
  destruct rest as [|day' rest'].
  - cbn [days_loop fst current_step results last]. split; reflexivity.
  - match goal with |- context [days_loop never (day' :: rest') ?e1] =>
      destruct (IH e1 eq_refl ltac:(discriminate)) as [I1 I2];
      destruct (days_loop never (day' :: rest') e1) as [e3 fx3]
    end.
    cbn [fst] in *. split; [exact I1|exact I2].
Qed.

Lemma range_last n : last (Agents.range 0 (Z.of_nat (S n))) 0 = Z.of_nat n.
Proof.
  unfold Agents.range. rewrite Z.sub_0_r, Nat2Z.id.
  rewrite <- Nat.add_1_r, seq_app, map_app. cbn [seq map Nat.add].
  rewrite last_last. lia.
Qed.

(** For a run of at least one day that nobody stops, the reported metric
    is the number of days of the run. *)
Lemma final_results_count (eng : SimulationEngine A) (elapsed : string) n :
  total_steps (config eng) = Some (Z.of_nat (S n)) ->
  dict_get (results (fst (_simulation_loop never elapsed eng)))
    "total_simulation_days"
  = Some (Z.of_nat (S n)).
Proof.
  intros Hn. unfold _simulation_loop. rewrite Hn. cbn [Agents.get].
  match goal with |- context [days_loop never ?d ?e] =>
    assert (d <> []) as Hne
      by (unfold Agents.range; rewrite Z.sub_0_r, Nat2Z.id; discriminate);
    destruct (days_loop_last d e eq_refl Hne) as [H1 H2];
    destruct (days_loop never d e) as [eng2 fx]
  end.
  cbn [fst snd] in *. cbn [_collect_final_results fst results current_step].
  rewrite dict_get_set_other by discriminate.
  rewrite dict_get_set_same, H1, range_last. f_equal. lia.
Qed.

End EngineProperties.

Section EngineClaims.
Import Py Engine.

(** C7.  An engine configured with [total_steps = 0] on which at least
    one agent is registered runs no day and calls no [step]; the results
    it returns, which are also the ones it stores, report
    [total_simulation_days] as 1. *)
Theorem zero_steps_run_reports_one_day :
  forall (A : Type) (agent_class : Agents.Agent A) (agent : A)
         (others : list A) (stop_signal : Z -> bool) (elapsed : string)
         (name : option string),
  let eng0 :=
    fst (SimulationEngine_init
           {| simulation_name := name; total_steps := Some 0 |}) in
  let eng := register_all eng0 (agent :: others) in
  let run := run_simulation stop_signal elapsed eng in
  dict_get (snd run) "total_simulation_days" = Some 1
  /\ results (fst (fst run)) = snd run
  /\ step_calls (snd (fst run)) = []
  /\ agents (fst (fst run)) = agent :: others.
Proof.
  intros A agent_class agent others stop_signal elapsed name eng0 eng run.
  destruct (register_all_fields (agent :: others) eng0) as (Ha & Hc & Hs & Hr).
  fold eng in Ha, Hc, Hs, Hr.
  change (agents eng0) with (@nil A) in Ha.
  change (config eng0)
    with {| simulation_name := name; total_steps := Some 0 |} in Hc.
  change (current_step eng0) with 0 in Hs.
  change (results eng0) with (@nil (string * Z)) in Hr.
  cbn [app] in Ha. clearbody eng.
  unfold run, run_simulation. rewrite Ha.
  unfold _simulation_loop. rewrite Hc. cbn [total_steps Agents.get].
  cbn [Agents.range Z.sub Z.opp Z.add Z.to_nat seq map days_loop].
  cbn [_collect_final_results fst snd results current_step agents].
  rewrite Hs, Hr, Ha. cbn. auto.
Qed.

(** C9.  On every day the loop calls [step] on every registered agent, in
    registration order; when the step of an agent raises, the loop logs
    an error record that names the agent and goes on with the agents
    registered after it; and a run that nobody stops steps every agent on
    every one of its days, whatever raised. *)
Theorem every_agent_steps_despite_errors :
  forall (A : Type) (agent_class : Agents.Agent A)
         (registered : list A) (day : Z),
  step_calls (snd (step_agents registered day)) = day_calls registered day
  /\ (forall (before after : list A) (agent : A) (e : Exc),
       registered = before ++ agent :: after ->
       snd (Agents.step agent day) = Raised e ->
       snd (step_agents registered day)
       = snd (step_agents before day)
         ++ Call (step_call (Agents.agent_id agent) day)
            :: of_agents (snd (fst (Agents.step agent day)))
         ++ step_error (fst (fst (Agents.step agent day))) e
            :: snd (step_agents after day))
  /\ (forall (eng : SimulationEngine A) (elapsed : string),
       agents eng = registered ->
       step_calls (snd (_simulation_loop never elapsed eng))
       = run_calls registered
           (Agents.range 0 (Agents.get (total_steps (config eng)) 100))).
Proof.
  intros A agent_class registered day.
  split; [apply step_agents_calls|]. split.
  - intros before after agent e -> He. now apply step_agents_error.
  - intros eng elapsed <-. apply simulation_loop_calls.
Qed.

Lemma every_agent_steps_despite_errors_witness :
  [Examples.stub; Examples.storm] = [] ++ Examples.stub :: [Examples.storm]
  /\ snd (Agents.step Examples.stub 0)
     = Raised (NotImplementedError
                 "Subclasses must implement the 'step' method.")
  /\ agents Examples.two_day_engine = [Examples.stub; Examples.storm]
  /\ snd (step_agents [Examples.stub; Examples.storm] 0)
     = [Call (step_call "stub" 0);
        Log ERROR
          "Error during step for agent stub: Subclasses must implement the 'step' method.";
        Call (step_call "storm" 0)]
  /\ step_calls (snd (_simulation_loop never "0.00" Examples.two_day_engine))
     = [("stub", 0); ("storm", 0); ("stub", 1); ("storm", 1)].
Proof.
  pose proof (every_agent_steps_despite_errors
                Agents.AnyAgent _ [Examples.stub; Examples.storm] 0)
    as [_ [H2 H3]].
  split; [reflexivity|]. split; [reflexivity|]. split; [reflexivity|]. split.
  - exact (H2 [] [Examples.storm] Examples.stub _ eq_refl eq_refl).
  - exact (H3 Examples.two_day_engine "0.00" eq_refl).
Defined.

End EngineClaims.

(* ===================================================================== *)
(** * Properties of the network model *)
(* ===================================================================== *)

Section NetworkProperties.
Import Py Obj Network.

Lemma store_same {V} (d : list (string * V)) k v :
  lookup d k = Some v -> store d k v = d.
Proof.
  induction d as [|[k' v'] d IH]; cbn [lookup store]; [discriminate|].
  destruct (String.eqb_spec k' k) as [->|Hne].
  - now intros [= ->].
  - intros Hl. now rewrite IH.
Qed.

Lemma network_eta (self : SupplyChainNetwork) :
  {| name := name self; graph := graph self;
     nodes_dict := nodes_dict self; edges_dict := edges_dict self |} = self.
Proof. now destruct self. Qed.

(** ** Disruptions *)

(** No class defines [update_status]. *)
Lemma no_update_status_method cls :
  existsb (String.eqb "update_status") (class_methods cls) = false.
Proof. unfold class_methods. now destruct (existsb _ network_classes). Qed.

Lemma update_status_raises (target : Object) status details :
  lookup (fields target) "update_status" = None ->
  update_status target status details
  = (target, Raised (no_attribute (class_name target) "update_status")).
Proof.
  intros Hf. unfold update_status, getattr.
  now rewrite Hf, no_update_status_method.
Qed.

(** Applying a disruption to a node that is in the network raises and
    changes nothing, unless the node object carries an attribute
    [update_status] of its own. *)
Lemma apply_disruption_to_node_raises self node_id node details :
  get_node self node_id = Some node ->
  lookup (fields node) "update_status" = None ->
  apply_disruption_to_node self node_id details
  = (self, [], Raised (no_attribute (class_name node) "update_status")).
Proof.
  intros Hn Hf. unfold apply_disruption_to_node. rewrite Hn.
  rewrite (update_status_raises _ _ _ Hf).
  unfold get_node in Hn. rewrite (store_same _ _ _ Hn).
  now rewrite network_eta.
Qed.

Lemma apply_disruption_to_edge_raises self edge_id edge details :
  get_edge self edge_id = Some edge ->
  lookup (fields edge) "update_status" = None ->
  apply_disruption_to_edge self edge_id details
  = (self, [], Raised (no_attribute (class_name edge) "update_status")).
Proof.
  intros Hn Hf. unfold apply_disruption_to_edge. rewrite Hn.
  rewrite (update_status_raises _ _ _ Hf).
  unfold get_edge in Hn. rewrite (store_same _ _ _ Hn).
  now rewrite network_eta.
Qed.

(** The objects the constructors of nodes.py and edges.py build carry no
    such attribute. *)
Lemma constructed_without_update_status :
  (forall cls id nm ty loc cap attrs uuid4,
     lookup (fields (BaseNode_init cls id nm ty loc cap attrs uuid4))
       "update_status" = None)
  /\ (forall id nm ft pc rm inv st loc cap attrs uuid4,
       lookup (fields (FactoryNode_init id nm ft pc rm inv st loc cap attrs
                         uuid4)) "update_status" = None)
  /\ (forall id nm pr bc sc cl st loc cap attrs uuid4,
       lookup (fields (PortNode_init id nm pr bc sc cl st loc cap attrs
                         uuid4)) "update_status" = None)
  /\ (forall cls s t ty cap tt cost attrs,
       lookup (fields (Edge_init cls s t ty cap tt cost attrs))
         "update_status" = None)
  /\ (forall s t mode cap tt cost attrs,
       lookup (fields (TransportEdge_init s t mode cap tt cost attrs))
         "update_status" = None).
Proof. repeat split; reflexivity. Qed.

(** ** Rejected additions *)

Lemma add_node_object_duplicate self node_obj id nm :
  id_of node_obj = Returned id ->
  getattr node_obj "name" = Returned nm ->
  mem (nodes_dict self) id = true ->
  add_node_object self node_obj
  = (self,
     [Log WARNING ("Node with ID " ++ id ++ " (" ++ str nm
                   ++ ") already exists. Skipping addition.")%string],
     Returned VNone).
Proof.
  intros Hid Hnm Hmem. unfold add_node_object. now rewrite Hid, Hmem, Hnm.
Qed.

Lemma add_edge_object_duplicate self edge_obj id :
  id_of edge_obj = Returned id ->
  mem (edges_dict self) id = true ->
  add_edge_object self edge_obj
  = (self,
     [Log WARNING ("Edge with ID " ++ id
                   ++ " already exists. Skipping addition.")%string],
     Returned VNone).
Proof.
  intros Hid Hmem. unfold add_edge_object. now rewrite Hid, Hmem.
Qed.

Lemma add_edge_object_unknown_end self edge_obj id src :
  id_of edge_obj = Returned id ->
  mem (edges_dict self) id = false ->
  end_id edge_obj "source_node" = Returned src ->
  mem (nodes_dict self) src = false
  \/ (exists dst, end_id edge_obj "destination_node" = Returned dst
                  /\ mem (nodes_dict self) dst = false) ->
  add_edge_object self edge_obj
  = (self,
     [Log ERROR ("Cannot add edge " ++ id
                 ++ ": Source or destination node not in network.")%string],
     Returned VNone).
Proof.
  intros Hid Hmem Hs Hends. unfold add_edge_object.
  rewrite Hid, Hmem, Hs.
  destruct (mem (nodes_dict self) src); cbn [negb]; [|reflexivity].
  destruct Hends as [Hs'|[dst [Hd Hd']]]; [discriminate|].
  now rewrite Hd, Hd'.
Qed.

(** An addition changes nothing or inserts into the node map and into the
    graph together, also when it raises. *)
Lemma add_node_object_whole self node_obj :
  network_of (add_node_object self node_obj) = self
  \/ exists id,
       id_of node_obj = Returned id
       /\ mem (nodes_dict self) id = false
       /\ network_of (add_node_object self node_obj)
          = {| name := name self;
               graph := nx.add_node (graph self) id
                          [("data", to_value node_obj)];
               nodes_dict := store (nodes_dict self) id node_obj;
               edges_dict := edges_dict self |}.
Proof.
  unfold add_node_object.
  destruct (id_of node_obj) as [id|e]; [|now left].
  destruct (mem (nodes_dict self) id) eqn:Hm.
  - left. now destruct (getattr node_obj "name").
  - right. exists id. now destruct (getattr node_obj "name").
Qed.

Lemma add_edge_object_whole self edge_obj :
  network_of (add_edge_object self edge_obj) = self
  \/ exists id src dst,
       id_of edge_obj = Returned id
       /\ mem (edges_dict self) id = false
       /\ mem (nodes_dict self) src = true
       /\ mem (nodes_dict self) dst = true
       /\ network_of (add_edge_object self edge_obj)
          = {| name := name self;
               graph := nx.add_edge (graph self) src dst id
                          [("data", to_value edge_obj)];
               nodes_dict := nodes_dict self;
               edges_dict := store (edges_dict self) id edge_obj |}.
Proof.
  unfold add_edge_object.
  destruct (id_of edge_obj) as [id|e]; [|now left].
  destruct (mem (edges_dict self) id) eqn:Hm; [now left|].
  destruct (end_id edge_obj "source_node") as [src|e]; [|now left].
  destruct (mem (nodes_dict self) src) eqn:Hs; cbn [negb]; [|now left].
  destruct (end_id edge_obj "destination_node") as [dst|e]; [|now left].
  destruct (mem (nodes_dict self) dst) eqn:Hd; cbn [negb]; [|now left].
  right. exists id, src, dst.
  destruct (end_name edge_obj "source_node");
    [destruct (end_name edge_obj "destination_node")|]; auto.
Qed.

(** An [Edge] as edges.py constructs it has no [id]: adding it raises. *)
Lemma add_edge_object_plain_edge self cls s t ty cap tt cost attrs :
  existsb (String.eqb "id") (class_methods cls) = false ->
  add_edge_object self (Edge_init cls s t ty cap tt cost attrs)
  = (self, [], Raised (no_attribute cls "id")).
Proof.
  intros Hc.
  assert (getattr (Edge_init cls s t ty cap tt cost attrs) "id"
          = Raised (no_attribute cls "id")) as Hg.
  { unfold getattr.
    change (lookup (fields (Edge_init cls s t ty cap tt cost attrs)) "id")
      with (@None Value).
    cbn [class_name Edge_init]. now rewrite Hc. }
  unfold add_edge_object, id_of. now rewrite Hg.
Qed.

(** ** The weight function of [find_path] *)

(** Called on an edge key, [get_edge_weight] returns the value of the
    named attribute, and infinity when the edge is unknown or the
    attribute is absent or [None]. *)
Lemma get_edge_weight_on_key w u v key edges :
  get_edge_weight w u v (VStr key) edges
  = Returned (match lookup edges key with
              | None => VInf
              | Some o =>
                  match getattr o w with
                  | Raised _ | Returned VNone => VInf
                  | Returned val => val
                  end
              end).
Proof.
  unfold get_edge_weight. cbn [dict_get bind].
  destruct (lookup edges key) as [o|]; [|reflexivity].
  unfold hasattr. destruct (getattr o w) as [val|e]; reflexivity.
Qed.

(** Called on what networkx passes for a pair of nodes, it raises. *)
Lemma get_edge_weight_on_keydict w u v items edges :
  get_edge_weight w u v (VDict items) edges = Raised unhashable_dict.
Proof. reflexivity. Qed.

Lemma relax_raises w edges v dv st (nbrs : list (string * Value)) :
  nbrs <> [] ->
  Forall (fun p => exists items, snd p = VDict items) nbrs ->
  nx.relax (fun a b k => get_edge_weight w a b k edges) v dv nbrs st
  = Raised unhashable_dict.
Proof.
  intros Hne Hall. destruct nbrs as [|[n d] rest]; [contradiction|].
  inversion Hall as [|? ? [items Hd] _]; subst. cbn [snd] in Hd. subst d.
  cbn [nx.relax]. now destruct (nx.backward st).
Qed.

Lemma succ_keydicts G u :
  Forall (fun p => exists items, snd p = VDict items) (nx.succ G u).
Proof.
  unfold nx.succ. apply Forall_forall. intros p Hp.
  apply in_map_iff in Hp. destruct Hp as [x [<- _]]. unfold nx.keydict.
  cbn [snd]. eauto.
Qed.

Lemma heappop_one (e : nx.Entry) : nx.heappop [e] = Some (e, []).
Proof.
  destruct e as [[d c] n]. cbn [nx.heappop nx.heap_min nx.remove_first].
  unfold nx.entry_eqb.
  assert (nx.dist_eqb d d = true) as ->
    by (destruct d; cbn; auto using Z.eqb_refl).
  now rewrite Nat.eqb_refl, String.eqb_refl.
Qed.

(** With the weight function of [find_path], the search ends on the first
    node it expands: with an error if the node has a successor, without a
    path if it has none. *)
Lemma dijkstra_with_find_path_weight G source target w edges :
  nx.has_node G source = true ->
  nx.has_node G target = true ->
  source <> target ->
  nx.bidirectional_dijkstra G source target
    (fun a b k => get_edge_weight w a b k edges)
  = Some (Raised
      (match nx.succ G source with
       | [] => nx.no_path source target
       | _ :: _ => unhashable_dict
       end)).
Proof.
  intros Hs Ht Hne. unfold nx.bidirectional_dijkstra.
  rewrite Hs, Ht. cbn [negb orb].
  destruct (String.eqb_spec source target) as [|_]; [contradiction|].
  unfold nx.search_fuel.
  replace (2 * List.length (nx._edges G) + 3)%nat
    with (S (S (S (2 * List.length (nx._edges G))))) by lia.
  cbn [nx.search_loop nx.fringe nx.forward nx.reverse nx.backward negb
       nx.side].
  rewrite heappop_one.
  cbn [nx.dists nx.side nx.with_side nx.forward nx.reverse negb mem lookup
       nx.paths nx.seen nx.fringe nx.counter nx.finaldist nx.finalpath
       nx.backward].
  destruct (nx.succ G source) as [|p rest] eqn:Hsucc.
  - reflexivity.
  - rewrite relax_raises; [reflexivity|discriminate|].
    rewrite <- Hsucc. apply succ_keydicts.
Qed.

(** Between two different nodes, [find_path] with a weight attribute
    returns [None], whatever the network and the weights. *)
Lemma find_path_weighted_is_none self source target w :
  w <> EmptyString ->
  source <> target ->
  exists fx, find_path self source target (Some w) = Some (fx, None).
Proof.
  intros Hw Hne. unfold find_path.
  destruct (negb (mem (nodes_dict self) source)
            || negb (mem (nodes_dict self) target)); [eauto|].
  destruct w as [|c w']; [contradiction|].
  unfold nx.shortest_path.
  destruct (nx.has_node (graph self) source) eqn:Hs;
    [destruct (nx.has_node (graph self) target) eqn:Ht|].
  - rewrite dijkstra_with_find_path_weight by assumption.
    unfold nx.no_path, unhashable_dict.
    destruct (nx.succ (graph self) source); eauto.
  - unfold nx.bidirectional_dijkstra. rewrite Hs, Ht. cbn. eauto.
  - unfold nx.bidirectional_dijkstra. rewrite Hs. cbn. eauto.
Qed.

End NetworkProperties.

Section NetworkClaims.
Import Py Obj Network Examples.

(** C2.  On the network with nodes [A], [B], [C], an edge [A -> B] of
    weight 5 and edges [A -> C] and [C -> B] of weight 1, the edge
    weights read by key are 5, 1 and 1 and the search of the library
    finds [A, C, B] when it is given the least weight among the parallel
    edges of a pair; [find_path] without a weight returns [A, B]; and
    [find_path] with the weight attribute logs an error and returns
    [None]. *)
Theorem find_path_weighted_on_abc :
  get_edge_weight "weight" "A" "B" (VStr "AB") (edges_dict abc)
  = Returned (VNum 5)
  /\ get_edge_weight "weight" "A" "C" (VStr "AC") (edges_dict abc)
     = Returned (VNum 1)
  /\ get_edge_weight "weight" "C" "B" (VStr "CB") (edges_dict abc)
     = Returned (VNum 1)
  /\ nx.shortest_path (graph abc) "A" "B"
       (Some (least_weight "weight" (edges_dict abc)))
     = Some (Returned ["A"; "C"; "B"])
  /\ option_map snd (find_path abc "A" "B" None) = Some (Some ["A"; "B"])
  /\ find_path abc "A" "B" (Some "weight")
     = Some ([Log ERROR
                "Error finding path for A -> B (weight: weight): unhashable type: 'dict'"],
             None).
Proof. repeat split; reflexivity. Qed.

(** C3.  On a network that holds the factory [X] in status
    [OPERATIONAL], applying a disruption to [X] raises an
    [AttributeError]: the network is left as it was, the status of [X] is
    still [OPERATIONAL] and no details are stored on it.  The same holds
    for the edge [XX]. *)
Theorem apply_disruption_on_factory :
  node_attr with_factory "X" "operational_status" = Some (VStr "OPERATIONAL")
  /\ apply_disruption_to_node with_factory "X" flood
     = (with_factory, [],
        Raised (no_attribute "FactoryNode" "update_status"))
  /\ apply_disruption_to_edge with_factory "XX" flood
     = (with_factory, [], Raised (no_attribute "Edge" "update_status")).
Proof. repeat split; reflexivity. Qed.

(** C5, as stated, at a concrete input: the node [A] is already in the
    network [abc], and adding it again signals no error to the caller. *)
Lemma duplicate_node_signals_no_error :
  id_of (port "A") = Returned "A"%string
  /\ mem (nodes_dict abc) "A" = true
  /\ ~ signals_error (add_node_object abc (port "A")).
Proof.
  split; [reflexivity|]. split; [reflexivity|].
  intros [e He]. discriminate He.
Qed.

(** C5, amended.  An addition that is rejected (a node whose id is in the
    node map; an edge whose id is in the edge map, or one of whose end
    nodes is not in the node map) returns [None] without raising, logs one
    record (a warning for a duplicate id, an error for an unknown end
    node), and leaves the network (node map, edge map and graph) as it
    was. *)
Theorem rejected_additions_change_nothing :
  forall self : SupplyChainNetwork,
  (forall (node_obj : Object) (id : string) (nm : Value),
     id_of node_obj = Returned id ->
     getattr node_obj "name" = Returned nm ->
     mem (nodes_dict self) id = true ->
     exists msg,
       add_node_object self node_obj
       = (self, [Log WARNING msg], Returned VNone))
  /\ (forall (edge_obj : Object) (id : string),
       id_of edge_obj = Returned id ->
       mem (edges_dict self) id = true ->
       exists msg,
         add_edge_object self edge_obj
         = (self, [Log WARNING msg], Returned VNone))
  /\ (forall (edge_obj : Object) (id src : string),
       id_of edge_obj = Returned id ->
       mem (edges_dict self) id = false ->
       end_id edge_obj "source_node" = Returned src ->
       mem (nodes_dict self) src = false
       \/ (exists dst, end_id edge_obj "destination_node" = Returned dst
                       /\ mem (nodes_dict self) dst = false) ->
       exists msg,
         add_edge_object self edge_obj
         = (self, [Log ERROR msg], Returned VNone)).
Proof.
  intros self. split; [|split].
  - intros node_obj id nm Hid Hnm Hmem.
    rewrite (add_node_object_duplicate _ _ _ _ Hid Hnm Hmem). eauto.
  - intros edge_obj id Hid Hmem.
    rewrite (add_edge_object_duplicate _ _ _ Hid Hmem). eauto.
  - intros edge_obj id src Hid Hmem Hs Hends.
    rewrite (add_edge_object_unknown_end _ _ _ _ Hid Hmem Hs Hends). eauto.
Qed.

Lemma rejected_additions_change_nothing_witness :
  (id_of (port "A") = Returned "A"%string
   /\ getattr (port "A") "name" = Returned (VStr "Port A")
   /\ mem (nodes_dict abc) "A" = true
   /\ network_of (add_node_object abc (port "A")) = abc)
  /\ (id_of (link "AB" "B" "C" 7) = Returned "AB"%string
      /\ mem (edges_dict abc) "AB" = true
      /\ network_of (add_edge_object abc (link "AB" "B" "C" 7)) = abc)
  /\ (id_of (link "BZ" "B" "Z" 1) = Returned "BZ"%string
      /\ mem (edges_dict abc) "BZ" = false
      /\ end_id (link "BZ" "B" "Z" 1) "source_node" = Returned "B"%string
      /\ end_id (link "BZ" "B" "Z" 1) "destination_node"
         = Returned "Z"%string
      /\ mem (nodes_dict abc) "Z" = false
      /\ network_of (add_edge_object abc (link "BZ" "B" "Z" 1)) = abc).
Proof.
  pose proof (rejected_additions_change_nothing abc) as [H1 [H2 H3]].
  split; [|split].
  - assert (id_of (port "A") = Returned "A"%string) as Hid by reflexivity.
    assert (getattr (port "A") "name" = Returned (VStr "Port A")) as Hnm
      by reflexivity.
    assert (mem (nodes_dict abc) "A" = true) as Hmem by reflexivity.
    repeat (split; [assumption|]).
    destruct (H1 (port "A") "A"%string (VStr "Port A") Hid Hnm Hmem)
      as [msg ->]. reflexivity.
  - assert (id_of (link "AB" "B" "C" 7) = Returned "AB"%string) as Hid
      by reflexivity.
    assert (mem (edges_dict abc) "AB" = true) as Hmem by reflexivity.
    repeat (split; [assumption|]).
    destruct (H2 (link "AB" "B" "C" 7) "AB"%string Hid Hmem) as [msg ->].
    reflexivity.
  - assert (id_of (link "BZ" "B" "Z" 1) = Returned "BZ"%string) as Hid
      by reflexivity.
    assert (mem (edges_dict abc) "BZ" = false) as Hmem by reflexivity.
    assert (end_id (link "BZ" "B" "Z" 1) "source_node"
            = Returned "B"%string) as Hs by reflexivity.
    assert (end_id (link "BZ" "B" "Z" 1) "destination_node"
            = Returned "Z"%string) as Hd by reflexivity.
    assert (mem (nodes_dict abc) "Z" = false) as Hz by reflexivity.
    repeat (split; [assumption|]).
    destruct (H3 (link "BZ" "B" "Z" 1) "BZ"%string "B"%string Hid Hmem Hs
                (or_intror (ex_intro _ "Z"%string (conj Hd Hz))))
      as [msg ->].
    reflexivity.
Defined.

End NetworkClaims.

(* ===================================================================== *)
(** * Further properties of the event manager *)
(* ===================================================================== *)

Section EventManagerMore.
Import Py EventManager.

Lemma filter_split_perm {X} (f : X -> bool) l :
  Permutation (filter f l ++ filter (fun x => negb (f x)) l) l.
Proof.
  induction l as [|x l IH]; [reflexivity|]. cbn [filter].
  destruct (f x); cbn [negb app].
  - now constructor.
  - rewrite <- Permutation_middle. now constructor.
Qed.

Lemma errors_app {C} (a b : list (Py.Effect C)) :
  errors (a ++ b) = errors a ++ errors b.
Proof.
  induction a as [|x a IH]; [reflexivity|].
  destruct x as [[] m|c]; cbn [errors app]; now rewrite IH.
Qed.

(** X1.  Triggering an event that has not fired calls its action exactly
    once.  If the action returns, the event is marked as triggered and a
    second [trigger] changes nothing, calls nothing and logs one warning.
    If the action raises, one error is logged, the event stays untriggered
    and unchanged, and a second [trigger] calls the action again. *)
Theorem trigger_twice : forall e : Event,
  triggered e = false ->
  invoked (snd (trigger e)) = [e]
  /\ (raises e = false ->
      triggered (fst (trigger e)) = true
      /\ fst (trigger (fst (trigger e))) = fst (trigger e)
      /\ invoked (snd (trigger (fst (trigger e)))) = []
      /\ exists msg, snd (trigger (fst (trigger e))) = [Log WARNING msg])
  /\ (raises e = true ->
      fst (trigger e) = e
      /\ invoked (snd (trigger (fst (trigger e)))) = [e]
      /\ exists msg, errors (snd (trigger e)) = [msg]).
Proof.
  intros e Hu. split; [now apply trigger_invoked|].
  assert (trigger e
          = match call (action e) with
            | Returned _ => (set_triggered e true, snd (trigger e))
            | Raised _ => (e, snd (trigger e))
            end) as Ht.
  { unfold trigger. rewrite Hu. cbn [negb].
    now destruct (call (action e)). }
  unfold raises. split; intros Hr.
  - destruct (call (action e)) as [u|x] eqn:Hc; [|discriminate].
    rewrite Ht. cbn [fst]. unfold trigger.
    cbn [triggered set_triggered negb fst snd]. eauto.
  - destruct (call (action e)) as [u|x] eqn:Hc; [discriminate|].
    rewrite Ht. cbn [fst].
    split; [reflexivity|]. split; [now apply trigger_invoked|].
    unfold trigger. rewrite Hu, Hc. cbn. eauto.
Qed.

(** X2.  Scheduling an event for a step that is not in the past adds
    exactly one event to the queue, built from the arguments and numbered
    with the next creation number; the events already queued are kept,
    the creation counter advances by one, no action is called and one
    debug record is logged. *)
Theorem schedule_event_inserts :
  forall (em : EventManager) (now s : Z) (ty : EventType) (a : Callable)
         (d : string) (ar : list string) (kw : list (string * string)),
  now <= s ->
  let r := schedule_event em now s ty a d ar kw in
  Permutation (event_queue (fst r))
    (Event_init (next_id em) s ty a d ar kw :: event_queue em)
  /\ next_id (fst r) = S (next_id em)
  /\ invoked (snd r) = []
  /\ exists msg, snd r = [Log DEBUG msg].
Proof.
  intros em now s ty a d ar kw Hle r. unfold r, schedule_event.
  destruct (Z.ltb_spec s now); [lia|]. cbn [fst snd event_queue next_id].
  split; [|split; [reflexivity|split; [reflexivity|eauto]]].
  rewrite list_sort_perm. rewrite Permutation_app_comm. reflexivity.
Qed.

Lemma trigger_errors e :
  triggered e = false ->
  List.length (errors (snd (trigger e))) = if raises e then 1%nat else 0%nat.
Proof.
  intros Hu. unfold trigger, raises. rewrite Hu. cbn [negb].
  now destruct (call (action e)).
Qed.

Lemma errors_triggers l :
  Forall (fun e => triggered e = false) l ->
  List.length (errors (flat_map (fun e => snd (trigger e)) l))
  = List.length (filter raises l).
Proof.
  induction 1 as [|e l He _ IH]; [reflexivity|].
  cbn [flat_map filter]. rewrite errors_app, length_app, IH.
  rewrite (trigger_errors e He). now destruct (raises e).
Qed.

(** X3.  [process_events] loses and invents no event: the events whose
    action it called together with the events it left queued are the
    events that were queued before.  It schedules nothing, the count it
    returns is the number of actions it called, and it logs one error for
    each called action that raised. *)
Theorem process_events_accounts : forall (em : EventManager) (t : Z),
  let r := process_events em t in
  Permutation (invoked (effects_of r) ++ queue_of r) (event_queue em)
  /\ next_id (fst (fst r)) = next_id em
  /\ snd r = Z.of_nat (List.length (invoked (effects_of r)))
  /\ List.length (errors (effects_of r))
     = List.length (filter raises (invoked (effects_of r))).
Proof.
  intros em t r. unfold r.
  rewrite process_events_invoked, process_events_queue, process_events_next_id.
  split; [apply filter_split_perm|]. split; [reflexivity|].
  split; [apply process_events_count|].
  unfold effects_of, process_events. rewrite partition_as_filter.
  pose proof (due_unfired t (event_queue em)) as Hu.
  destruct (filter (due t) (event_queue em)) as [|e l]; [reflexivity|].
  cbn [fst snd errors]. now apply errors_triggers.
Qed.

Lemma due_exclusive t1 t2 e : t1 <> t2 -> due t2 e = true -> due t1 e = false.
Proof.
  unfold due. intros Hne H2. apply andb_true_iff in H2. destruct H2 as [H2 _].
  apply Z.eqb_eq in H2. destruct (Z.eqb_spec (step e) t1); [lia|reflexivity].
Qed.

(** X4.  Processing two different steps does not interfere: processing
    step [t1] first does not change which actions a later processing of
    step [t2] calls, and the queue left behind is the same in either
    order. *)
Theorem process_events_independent : forall (em : EventManager) (t1 t2 : Z),
  t1 <> t2 ->
  let after1 := fst (fst (process_events em t1)) in
  let after2 := fst (fst (process_events em t2)) in
  invoked (effects_of (process_events after1 t2))
  = invoked (effects_of (process_events em t2))
  /\ fst (fst (process_events after1 t2)) = fst (fst (process_events after2 t1)).
Proof.
  intros em t1 t2 Hne after1 after2.
  assert (forall m, fst (fst (process_events m t1))
                    = {| event_queue := filter (fun e => negb (due t1 e))
                                          (event_queue m);
                         next_id := next_id m |}) as H1.
  { intros m. unfold process_events. rewrite partition_as_filter.
    now destruct (filter (due t1) (event_queue m)). }
  assert (forall m, fst (fst (process_events m t2))
                    = {| event_queue := filter (fun e => negb (due t2 e))
                                          (event_queue m);
                         next_id := next_id m |}) as H2.
  { intros m. unfold process_events. rewrite partition_as_filter.
    now destruct (filter (due t2) (event_queue m)). }
  split.
  - rewrite !process_events_invoked. unfold after1. rewrite H1.
    cbn [event_queue]. rewrite filter_twice.
    apply filter_ext. intros e.
    destruct (due t2 e) eqn:D2; [|apply andb_false_r].
    now rewrite (due_exclusive t1 t2 e Hne D2).
  - unfold after1, after2. rewrite H1, H2, H1, H2. cbn [event_queue next_id].
    f_equal. rewrite !filter_twice. apply filter_ext. intros e.
    apply andb_comm.
Qed.

End EventManagerMore.

(* ===================================================================== *)
(** * Further properties of the disruption agent *)
(* ===================================================================== *)

Section AgentMore.
Import Py Agents.

(** X5.  A disruption agent that is inactive and whose start step is
    negative or still ahead of every tick it is stepped with does nothing:
    it is unchanged, logs nothing, calls neither [apply_impact] nor
    [remove_impact], and every [step] returns. *)
Theorem disruption_dormant :
  forall (a : DisruptionAgent) (ticks : list Z),
  active a = false ->
  Forall (fun t => start_step a < 0 \/ t < start_step a) ticks ->
  steps a ticks = (a, [])
  /\ Forall (fun r => r = Returned tt) (step_results a ticks).
Proof.
  intros a ticks Ha. induction 1 as [|t ticks Ht _ IH].
  - split; [reflexivity|constructor].
  - cbn [steps step_results step DisruptionAgent_Agent].
    rewrite (step_waits a t Ha Ht).
    change (@step _ DisruptionAgent_Agent) with DisruptionAgent_step in *.
    destruct IH as [-> IH2]. split; [reflexivity|]. now constructor.
Qed.

Lemma calls_count_app (a b : list Effect) :
  apply_calls (a ++ b) = (apply_calls a + apply_calls b)%nat
  /\ remove_calls (a ++ b) = (remove_calls a + remove_calls b)%nat.
Proof.
  unfold apply_calls, remove_calls.
  now rewrite calls_app, !filter_app, !length_app.
Qed.

(** One step keeps the countdown, returns, and keeps the balance between
    impacts applied and removed. *)
Lemma step_balance (a : DisruptionAgent) (t : Z) :
  has_countdown a ->
  has_countdown (fst (fst (DisruptionAgent_step a t)))
  /\ snd (DisruptionAgent_step a t) = Returned tt
  /\ (apply_calls (snd (fst (DisruptionAgent_step a t))) + owes a
      = remove_calls (snd (fst (DisruptionAgent_step a t)))
        + owes (fst (fst (DisruptionAgent_step a t))))%nat.
Proof.
  intros Hc. unfold has_countdown in Hc.
  destruct (active a) eqn:Ha.
  - destruct (Hc eq_refl) as [r Hr].
    destruct (Z_lt_le_dec 0 r) as [Hpos|Hle].
    + destruct (step_counts_down a t r Ha Hr Hpos) as [msg ->].
      cbn [fst snd]. unfold owes, has_countdown. rewrite Ha. cbn. eauto.
    + destruct (step_ends a t r Ha Hr Hle) as [msg ->].
      cbn [fst snd]. unfold owes, has_countdown. rewrite Ha. cbn.
      repeat split. discriminate.
  - destruct (Z_lt_le_dec (start_step a) 0) as [Hneg|Hnn];
      [|destruct (Z_lt_le_dec t (start_step a)) as [Hearly|Hdue]].
    + rewrite (step_waits a t Ha (or_introl Hneg)).
      cbn [fst snd]. unfold owes, has_countdown. rewrite Ha.
      repeat split. discriminate.
    + rewrite (step_waits a t Ha (or_intror Hearly)).
      cbn [fst snd]. unfold owes, has_countdown. rewrite Ha.
      repeat split. discriminate.
    + destruct (step_activates a t Ha (conj Hnn Hdue)) as [msg ->].
      cbn [fst snd]. unfold owes, has_countdown. rewrite Ha. cbn. eauto.
Qed.

Lemma steps_balance (ticks : list Z) :
  forall a : DisruptionAgent,
  has_countdown a ->
  Forall (fun r => r = Returned tt) (step_results a ticks)
  /\ has_countdown (fst (steps a ticks))
  /\ (apply_calls (snd (steps a ticks)) + owes a
      = remove_calls (snd (steps a ticks)) + owes (fst (steps a ticks)))%nat.
Proof.
  induction ticks as [|t ticks IH]; intros a Hc.
  - cbn. repeat split; [constructor|assumption].
  - cbn [steps step_results step DisruptionAgent_Agent].
    destruct (step_balance a t Hc) as (H1 & H2 & H3).
    destruct (DisruptionAgent_step a t) as [[a1 fx1] r1]. cbn [fst snd] in *.
    destruct (IH a1 H1) as (I1 & I2 & I3).
    change (@step _ DisruptionAgent_Agent) with DisruptionAgent_step in *.
    destruct (steps a1 ticks) as [a2 fx2]. cbn [fst snd] in *.
    destruct (calls_count_app fx1 fx2) as [-> ->].
    split; [now constructor|]. split; [assumption|lia].
Qed.

(** X7.  A disruption agent as its constructor builds it from a config
    whose [duration] and [start_step] are ints where they are present,
    stepped with any ticks in any order: no [step] ever raises (the
    countdown is assigned before it is read), and the impacts applied are
    the impacts removed plus one if the agent is active at the end, so no
    impact is removed that was not applied and at most one is
    outstanding. *)
Theorem disruption_never_raises_and_balances :
  forall (id uuid : string) (config : DisruptionConfig) (ticks : list Z),
  let agent := fst (DisruptionAgent_init id uuid config) in
  Forall (fun r => r = Returned tt) (step_results agent ticks)
  /\ apply_calls (snd (steps agent ticks))
     = (remove_calls (snd (steps agent ticks))
        + owes (fst (steps agent ticks)))%nat.
Proof.
  intros id uuid config ticks agent.
  assert (has_countdown agent) as Hc by (intros H; discriminate H).
  destruct (steps_balance ticks agent Hc) as (H1 & _ & H3).
  split; [exact H1|]. change (owes agent) with 0%nat in H3. lia.
Qed.

(** A step changes neither the identifier nor the configured start and
    duration. *)
Lemma step_keeps_config (a : DisruptionAgent) (t : Z) :
  let a' := fst (fst (DisruptionAgent_step a t)) in
  d_agent_id a' = d_agent_id a /\ start_step a' = start_step a
  /\ duration a' = duration a.
Proof.
  unfold DisruptionAgent_step.
  destruct (negb (active a) && (start_step a >=? 0) && (t >=? start_step a));
    [cbn; auto|].
  destruct (active a); [|cbn; auto].
  destruct (duration_remaining a) as [r|]; [|cbn; auto].
  destruct (r >? 0); cbn; auto.
Qed.

Lemma steps_keep_config (ticks : list Z) : forall a : DisruptionAgent,
  let a' := fst (steps a ticks) in
  d_agent_id a' = d_agent_id a /\ start_step a' = start_step a
  /\ duration a' = duration a.
Proof.
  induction ticks as [|t ticks IH]; intros a; [cbn; auto|].
  cbn [steps step DisruptionAgent_Agent].
  pose proof (step_keeps_config a t) as Hs. cbn zeta in Hs.
  destruct (DisruptionAgent_step a t) as [[a1 fx1] r1]. cbn [fst snd] in Hs.
  specialize (IH a1). cbn zeta in IH.
  change (@step _ DisruptionAgent_Agent) with DisruptionAgent_step in *.
  destruct (steps a1 ticks) as [a2 fx2]. cbn [fst snd] in *.
  destruct Hs as (E1 & E2 & E3). destruct IH as (I1 & I2 & I3).
  repeat split; congruence.
Qed.

(** X6.  The whole cycle of a disruption: an inactive agent whose start
    step has come applies its impact at its next step [t0], is still
    active after [duration] further steps, and removes the impact at the
    step [t] after those.  Nothing records that the disruption already
    ran: at the next step [t'] at or after the start step the agent is
    active again with the full duration and has applied the impact a
    second time. *)
Theorem disruption_recurs :
  forall (a : DisruptionAgent) (t0 : Z) (ticks : list Z) (t t' : Z),
  active a = false ->
  0 <= start_step a <= t0 ->
  0 <= duration a ->
  List.length ticks = Z.to_nat (duration a) ->
  start_step a <= t' ->
  let ended := steps a (t0 :: ticks ++ [t]) in
  let again := steps a (t0 :: ticks ++ [t; t']) in
  active (fst (steps a (t0 :: ticks))) = true
  /\ calls (snd (steps a (t0 :: ticks)))
     = [apply_impact_call (d_agent_id a) t0]
  /\ active (fst ended) = false
  /\ calls (snd ended)
     = [apply_impact_call (d_agent_id a) t0;
        remove_impact_call (d_agent_id a) t]
  /\ active (fst again) = true
  /\ duration_remaining (fst again) = Some (duration a)
  /\ calls (snd again)
     = [apply_impact_call (d_agent_id a) t0;
        remove_impact_call (d_agent_id a) t;
        apply_impact_call (d_agent_id a) t'].
Proof.
  intros a t0 ticks t t' Ha Hs Hd Hlen Ht' ended again.
  destruct (activation_then_end a t0 ticks t Ha Hs Hd Hlen)
    as (H1 & H2 & H3 & H4).
  repeat (split; [assumption|]).
  subst again.
  change (t0 :: ticks ++ [t; t']) with (t0 :: ticks ++ [t] ++ [t']).
  rewrite app_assoc.
  change (t0 :: (ticks ++ [t]) ++ [t']) with ((t0 :: ticks ++ [t]) ++ [t']).
  rewrite steps_app.
  destruct (steps_keep_config (t0 :: ticks ++ [t]) a) as (Kid & Kst & Kdu).
  fold ended in Kid, Kst, Kdu. subst ended.
  destruct (steps a (t0 :: ticks ++ [t])) as [a3 fx3]. cbn [fst snd] in *.
  cbn [steps step DisruptionAgent_Agent].
  destruct (step_activates a3 t' H3) as [msg ->]; [lia|].
  cbn [fst snd active duration_remaining set_active].
  rewrite calls_app, H4. cbn [apply_impact calls app d_agent_id set_active].
  rewrite Kdu, Kid. auto.
Qed.

End AgentMore.

(* ===================================================================== *)
(** * Further properties of the simulation loop *)
(* ===================================================================== *)

Section EngineMore.
Import Py Engine.
Context {A : Type} `{Agents.Agent A}.

Lemma calls_of_events fx :
  calls (of_events fx) = map action_call (EventManager.invoked fx).
Proof.
  unfold EventManager.invoked, of_events.
  induction fx as [|x fx IH]; [reflexivity|].
  destruct x; cbn [map lift calls]; now rewrite IH.
Qed.

Lemma action_calls_app (a b : list Effect) :
  action_calls (a ++ b) = action_calls a ++ action_calls b.
Proof.
  induction a as [|x a IH]; [reflexivity|].
  destruct x as [l m|[e|id day|c]]; cbn [action_calls app]; now rewrite IH.
Qed.

Lemma action_calls_of_events fx :
  action_calls (of_events fx) = EventManager.invoked fx.
Proof.
  unfold EventManager.invoked, of_events.
  induction fx as [|x fx IH]; [reflexivity|].
  destruct x; cbn [map lift calls action_calls]; now rewrite IH.
Qed.

Lemma action_calls_of_agents fx : action_calls (of_agents fx) = [].
Proof.
  induction fx as [|x fx IH]; [reflexivity|]. now destruct x.
Qed.

Lemma action_calls_step_agents (agents : list A) day :
  action_calls (snd (step_agents agents day)) = [].
Proof.
  induction agents as [|a l IH]; [reflexivity|].
  cbn [step_agents].
  destruct (Agents.step a day) as [[a' fx] r].
  destruct (step_agents l day) as [l' fx']. cbn [fst snd] in *.
  cbn [action_calls].
  rewrite !action_calls_app, action_calls_of_agents, IH.
  now destruct r.
Qed.

Lemma days_loop_cons stop day rest (eng : SimulationEngine A) :
  running eng = true ->
  days_loop stop (day :: rest) eng
  = if stop day then
      (fst (Engine.stop (day_done eng day)),
       (day_trace eng day ++ snd (Engine.stop (day_done eng day)))
       ++ [Log INFO "Simulation run terminated early."])
    else
      (fst (days_loop stop rest (day_done eng day)),
       (day_trace eng day ++ [])
       ++ snd (days_loop stop rest (day_done eng day))).
Proof.
  intros Hrun. destruct eng as [cfg now em ags cur run res].
  cbn [running] in Hrun. subst run.
  cbn [days_loop]. unfold day_trace, day_done, EventManager.effects_of.
  cbn [config env_now event_manager agents current_step running results].
  destruct (EventManager.process_events em day) as [[em' fx_ev] n].
  pose proof (step_agents_agents ags day) as Ha.
  destruct (step_agents ags day) as [agents' fx_ag].
  cbn [fst snd] in *. subst agents'.
  destruct (stop day).
  - cbn [Engine.stop running negb fst snd config env_now event_manager agents
         current_step results].
    now rewrite <- ?app_comm_cons, <- ?app_assoc.
  - cbn [running negb].
    destruct (days_loop stop rest _) as [e3 fx3]. cbn [fst snd].
    now rewrite <- ?app_comm_cons, <- ?app_assoc.
Qed.

Lemma last_cons_default {X} (l : list X) (x a b : X) :
  last (x :: l) a = last (x :: l) b.
Proof.
  revert x. induction l as [|y l IH]; intros x; [reflexivity|].
  change (last (x :: y :: l) a) with (last (y :: l) a).
  change (last (x :: y :: l) b) with (last (y :: l) b). apply IH.
Qed.

Lemma days_done_running (days : list Z) : forall eng : SimulationEngine A,
  running (days_done eng days) = running eng
  /\ config (days_done eng days) = config eng
  /\ results (days_done eng days) = results eng
  /\ env_now (days_done eng days) = env_now eng + Z.of_nat (List.length days)
  /\ current_step (days_done eng days) = last days (current_step eng)
  /\ agents (days_done eng days) = fold_left after_day days (agents eng).
Proof.
  unfold days_done.
  induction days as [|d rest IH]; intros eng; cbn [fold_left].
  - cbn. repeat split. lia.
  - destruct (IH (day_done eng d)) as (H1 & H2 & H3 & H4 & H5 & H6).
    rewrite H1, H2, H3, H4, H5, H6. cbn [day_done running config results
      env_now current_step agents List.length].
    repeat split; try lia.
    destruct rest as [|z rest]; [reflexivity|].
    change (last (d :: z :: rest) (current_step eng))
      with (last (z :: rest) (current_step eng)).
    apply last_cons_default.
Qed.

(** As long as nobody stops the run, the loop does one day after the
    other. *)
Lemma days_loop_unstopped stop (days : list Z) :
  forall eng : SimulationEngine A,
  running eng = true ->
  Forall (fun d => stop d = false) days ->
  days_loop stop days eng = (days_done eng days, days_trace eng days).
Proof.
  induction days as [|d rest IH]; intros eng Hrun Hs; [reflexivity|].
  inversion Hs as [|? ? Hd Hrest]; subst.
  rewrite days_loop_cons by assumption. rewrite Hd.
  rewrite IH; [|exact Hrun|assumption].
  cbn [fst snd days_trace]. unfold days_done. cbn [fold_left].
  now rewrite app_nil_r.
Qed.

(** The day on which someone stops the run is completed and is the last
    one. *)
Lemma days_loop_stopped stop (pre post : list Z) (d : Z) :
  forall eng : SimulationEngine A,
  running eng = true ->
  Forall (fun d => stop d = false) pre ->
  stop d = true ->
  days_loop stop (pre ++ d :: post) eng
  = (fst (Engine.stop (days_done eng (pre ++ [d]))),
     days_trace eng (pre ++ [d])
     ++ [Log INFO
           "Stop signal received. Simulation will terminate after the current step.";
         Log INFO "Simulation run terminated early."]).
Proof.
  induction pre as [|p pre IH]; intros eng Hrun Hs Hd; cbn [app].
  - rewrite days_loop_cons by assumption. rewrite Hd.
    unfold days_done. cbn [fold_left days_trace].
    unfold Engine.stop. cbn [day_done running]. rewrite Hrun. cbn [fst snd].
    now rewrite <- !app_assoc.
  - inversion Hs as [|? ? Hp Hpre]; subst.
    rewrite days_loop_cons by assumption. rewrite Hp.
    rewrite IH; [|exact Hrun|assumption|assumption].
    cbn [fst snd days_trace]. unfold days_done. cbn [fold_left].
    now rewrite app_nil_r, <- !app_assoc.
Qed.

Lemma days_trace_step_calls (days : list Z) : forall eng : SimulationEngine A,
  step_calls (days_trace eng days) = run_calls (agents eng) days.
Proof.
  induction days as [|d rest IH]; intros eng; [reflexivity|].
  cbn [days_trace run_calls]. rewrite step_calls_app, IH.
  unfold day_trace. cbn [step_calls].
  rewrite step_calls_app, step_calls_of_events, step_agents_calls.
  reflexivity.
Qed.

Lemma flat_map_ext_in {X Y} (f g : X -> list Y) l :
  (forall x, In x l -> f x = g x) -> flat_map f l = flat_map g l.
Proof.
  induction l as [|x l IH]; intros Hfg; [reflexivity|].
  cbn [flat_map]. rewrite Hfg by now left.
  rewrite IH; [reflexivity|]. intros y Hy. apply Hfg. now right.
Qed.

Lemma days_trace_action_calls (days : list Z) :
  NoDup days ->
  forall eng : SimulationEngine A,
  action_calls (days_trace eng days)
  = flat_map (fun d => filter (EventManager.due d)
                         (EventManager.event_queue (event_manager eng))) days
  /\ EventManager.event_queue (event_manager (days_done eng days))
     = filter (fun e => negb (existsb (fun d => EventManager.due d e) days))
         (EventManager.event_queue (event_manager eng)).
Proof.
  induction 1 as [|d rest Hd Hnd IH]; intros eng.
  - cbn. split; [reflexivity|]. symmetry. apply forallb_filter_id.
    now apply forallb_forall.
  - destruct (IH (day_done eng d)) as [I1 I2].
    cbn [days_trace flat_map]. unfold days_done in *. cbn [fold_left].
    rewrite action_calls_app, I1, I2. cbn [day_done event_manager].
    pose proof (process_events_queue (event_manager eng) d) as Hq.
    unfold EventManager.queue_of in Hq. rewrite Hq. split.
    + f_equal.
      * unfold day_trace. cbn [action_calls].
        rewrite action_calls_app, action_calls_of_events,
          action_calls_step_agents, app_nil_r.
        apply process_events_invoked.
      * apply flat_map_ext_in. intros d' Hd'.
        rewrite filter_twice. apply filter_ext. intros e.
        destruct (EventManager.due d' e) eqn:D; [|apply andb_false_r].
        assert (d <> d') as Hne by (intros ->; contradiction).
        now rewrite (due_exclusive d d' e Hne D).
    + rewrite filter_twice. apply filter_ext. intros e.
      cbn [existsb]. now rewrite negb_orb.
Qed.

(** [range] *)

Lemma range_nil a b : b <= a -> Agents.range a b = [].
Proof.
  intros Hle. unfold Agents.range.
  replace (Z.to_nat (b - a)) with 0%nat by lia. reflexivity.
Qed.

Lemma range_cons a b : a < b -> Agents.range a b = a :: Agents.range (a + 1) b.
Proof.
  intros Hlt. unfold Agents.range.
  replace (Z.to_nat (b - a)) with (S (Z.to_nat (b - (a + 1)))) by lia.
  cbn [seq map]. f_equal; [lia|].
  rewrite <- seq_shift, map_map. apply map_ext. intros i. lia.
Qed.

Lemma range_app a b c :
  a <= b <= c -> Agents.range a c = Agents.range a b ++ Agents.range b c.
Proof.
  intros [Hab Hbc].
  remember (Z.to_nat (b - a)) as n eqn:Hn. revert a Hab Hn.
  induction n as [|n IH]; intros a Hab Hn.
  - assert (a = b) as -> by lia. now rewrite (range_nil b b) by lia.
  - rewrite (range_cons a c) by lia. rewrite (range_cons a b) by lia.
    cbn [app]. f_equal. apply IH; lia.
Qed.

Lemma range_in a b x : In x (Agents.range a b) <-> a <= x < b.
Proof.
  unfold Agents.range. rewrite in_map_iff. split.
  - intros [i [<- Hi]]. apply in_seq in Hi. lia.
  - intros Hx. exists (Z.to_nat (x - a)). split; [lia|].
    apply in_seq. lia.
Qed.

Lemma range_NoDup a b : NoDup (Agents.range a b).
Proof.
  destruct (Z_le_gt_dec b a) as [Hle|Hgt].
  - rewrite range_nil by assumption. constructor.
  - remember (Z.to_nat (b - a)) as n eqn:Hn. revert a Hgt Hn.
    induction n as [|n IH]; intros a Hgt Hn; [lia|].
    rewrite range_cons by lia. constructor.
    + rewrite range_in. lia.
    + destruct (Z.eq_dec (a + 1) b) as [->|Hne].
      * rewrite range_nil by lia. constructor.
      * apply IH; lia.
Qed.

Lemma range_length a b : List.length (Agents.range a b) = Z.to_nat (b - a).
Proof. unfold Agents.range. now rewrite length_map, length_seq. Qed.

Lemma range_snoc a b : a <= b -> Agents.range a (b + 1) = Agents.range a b ++ [b].
Proof.
  intros Hab. rewrite (range_app a b (b + 1)) by lia.
  rewrite (range_cons b (b + 1)) by lia.
  now rewrite (range_nil (b + 1) (b + 1)) by lia.
Qed.

Lemma in_run_range total e :
  existsb (fun d => EventManager.due d e) (Agents.range 0 total)
  = in_run total e.
Proof.
  apply eq_true_iff_eq. rewrite existsb_exists.
  unfold in_run, EventManager.due.
  rewrite !andb_true_iff, Z.leb_le, Z.ltb_lt. split.
  - intros [d [Hd Hdue]]. apply range_in in Hd.
    apply andb_true_iff in Hdue. destruct Hdue as [Hs Hu].
    apply Z.eqb_eq in Hs. repeat split; try lia. exact Hu.
  - intros [[H0 H1] Hu]. exists (EventManager.step e).
    rewrite range_in, Z.eqb_refl, Hu. auto.
Qed.

Lemma range_last_of total x :
  0 < total -> last (Agents.range 0 total) x = total - 1.
Proof.
  intros Hpos. replace total with (total - 1 + 1) at 1 by lia.
  rewrite range_snoc by lia. apply last_last.
Qed.

Lemma after_days_length (days : list Z) : forall agents : list A,
  List.length (fold_left after_day days agents) = List.length agents.
Proof.
  induction days as [|d rest IH]; intros agents; [reflexivity|].
  cbn [fold_left]. rewrite IH. unfold after_day. apply length_map.
Qed.

Lemma final_results_get (eng : SimulationEngine A) :
  dict_get (results (fst (_collect_final_results eng)))
    "total_simulation_days" = Some (current_step eng + 1)
  /\ dict_get (results (fst (_collect_final_results eng))) "total_agents"
     = Some (Z.of_nat (List.length (agents eng))).
Proof.
  cbn [_collect_final_results fst results]. split.
  - rewrite dict_get_set_other by discriminate. apply dict_get_set_same.
  - apply dict_get_set_same.
Qed.

End EngineMore.

Section EngineMoreClaims.
Import Py Engine.

(** X8.  When [stop] is called during day [d] of a run, and not before,
    the run completes that day and ends: the agents are stepped on the
    days 0 to [d] and on no later day, the results report [d + 1] days,
    the clock has advanced by [d + 1], the engine is not running
    afterwards, and the early termination is logged. *)
Theorem stop_ends_run_after_the_day :
  forall (A : Type) (agent_class : Agents.Agent A) (eng : SimulationEngine A)
         (stop_signal : Z -> bool) (elapsed : string) (d : Z),
  0 <= d < Agents.get (total_steps (config eng)) 100 ->
  stop_signal d = true ->
  (forall d', 0 <= d' < d -> stop_signal d' = false) ->
  let run := _simulation_loop stop_signal elapsed eng in
  step_calls (snd run) = run_calls (agents eng) (Agents.range 0 (d + 1))
  /\ dict_get (results (fst run)) "total_simulation_days" = Some (d + 1)
  /\ current_step (fst run) = d
  /\ env_now (fst run) = env_now eng + d + 1
  /\ running (fst run) = false
  /\ In (Log INFO "Simulation run terminated early.") (snd run).
Proof.
  intros A agent_class eng stop_signal elapsed d Hd Hstop Hbefore run.
  unfold run, _simulation_loop.
  set (total := Agents.get (total_steps (config eng)) 100) in *.
  rewrite (range_app 0 d total) by lia.
  rewrite (range_cons d total) by lia.
  match goal with |- context [days_loop _ _ ?e] => set (started := e) end.
  rewrite (days_loop_stopped stop_signal (Agents.range 0 d)
             (Agents.range (d + 1) total) d started eq_refl);
    [|apply Forall_forall; intros x Hx; apply range_in in Hx; now apply Hbefore
     |exact Hstop].
  rewrite <- range_snoc by lia.
  destruct (days_done_running (Agents.range 0 (d + 1)) started)
    as (H1 & H2 & H3 & H4 & H5 & H6).
  unfold Engine.stop. rewrite H1. cbn [running started fst snd].
  match goal with |- context [_collect_final_results ?e] =>
    destruct (final_results_get e) as [G1 G2]; set (fin := e) in *
  end.
  assert (current_step fin = d) as Hcur.
  { unfold fin. cbn [current_step]. rewrite H5.
    rewrite range_snoc by lia. apply last_last. }
  destruct (_collect_final_results fin) as [e4 fx4] eqn:Efin.
  assert (current_step e4 = current_step fin /\ env_now e4 = env_now fin
          /\ running e4 = running fin) as (F1 & F2 & F3).
  { unfold _collect_final_results in Efin. injection Efin as <- _.
    repeat split. }
  cbn [fst snd] in *. rewrite F1, F2, F3, G1, Hcur.
  split; [|split; [reflexivity|split; [reflexivity|split; [|split]]]].
  - cbn [step_calls]. rewrite !step_calls_app. cbn [step_calls].
    assert (step_calls fx4 = []) as ->.
    { unfold _collect_final_results in Efin. now injection Efin as _ <-. }
    rewrite days_trace_step_calls. cbn [agents started]. now rewrite !app_nil_r.
  - unfold fin. cbn [env_now]. rewrite H4. cbn [env_now started].
    rewrite range_length. lia.
  - reflexivity.
  - right. apply in_or_app. left. apply in_or_app. right. right. now left.
Qed.

Lemma never_stops (days : list Z) : Forall (fun d => never d = false) days.
Proof. apply Forall_forall. reflexivity. Qed.

(** X9.  A run of [total > 0] configured steps that is not stopped
    reports [total_simulation_days = total] and [total_agents] as the
    number of registered agents, ends at [current_step = total - 1] with
    the clock advanced by [total] and [running] false, and leaves every
    agent as its [total] steps made it. *)
Theorem completed_run_results :
  forall (A : Type) (agent_class : Agents.Agent A) (eng : SimulationEngine A)
         (elapsed : string) (total : Z),
  total_steps (config eng) = Some total ->
  0 < total ->
  let run := _simulation_loop never elapsed eng in
  dict_get (results (fst run)) "total_simulation_days" = Some total
  /\ dict_get (results (fst run)) "total_agents"
     = Some (Z.of_nat (List.length (agents eng)))
  /\ current_step (fst run) = total - 1
  /\ env_now (fst run) = env_now eng + total
  /\ running (fst run) = false
  /\ agents (fst run)
     = fold_left after_day (Agents.range 0 total) (agents eng).
Proof.
  intros A agent_class eng elapsed total Htotal Hpos run.
  unfold run, _simulation_loop. rewrite Htotal. cbn [Agents.get].
  match goal with |- context [days_loop _ _ ?e] => set (started := e) end.
  rewrite (days_loop_unstopped never (Agents.range 0 total) started eq_refl
             (never_stops _)).
  destruct (days_done_running (Agents.range 0 total) started)
    as (H1 & H2 & H3 & H4 & H5 & H6).
  match goal with |- context [_collect_final_results ?e] =>
    destruct (final_results_get e) as [G1 G2]; set (fin := e) in *
  end.
  destruct (_collect_final_results fin) as [e4 fx4] eqn:Efin.
  assert (current_step e4 = current_step fin /\ env_now e4 = env_now fin
          /\ running e4 = running fin /\ agents e4 = agents fin)
    as (F1 & F2 & F3 & F4).
  { unfold _collect_final_results in Efin. injection Efin as <- _.
    repeat split. }
  cbn [fst snd] in *. rewrite F1, F2, F3, F4, G1, G2.
  unfold fin. cbn [current_step env_now running agents].
  rewrite H4, H5, H6, range_length, range_last_of by assumption.
  cbn [started agents env_now]. rewrite after_days_length.
  repeat split; try reflexivity; f_equal; lia.
Qed.

(** X10.  Within a simulation day the events come first: after the
    record announcing the day, the trace holds what processing the
    events of that day did, then what stepping the agents did.  The
    actions called are those of the events due that day, the agents
    stepped are all registered agents in order, and neither part does the
    other's work. *)
Theorem events_fire_before_agents_step :
  forall (A : Type) (agent_class : Agents.Agent A) (eng : SimulationEngine A)
         (stop_signal : Z -> bool) (day : Z) (rest : list Z),
  running eng = true ->
  let fired :=
    EventManager.effects_of
      (EventManager.process_events (event_manager eng) day) in
  let stepped := snd (step_agents (agents eng) day) in
  (exists msg tail,
     snd (days_loop stop_signal (day :: rest) eng)
     = Log INFO msg :: of_events fired ++ stepped ++ tail)
  /\ action_calls (of_events fired)
     = filter (EventManager.due day)
         (EventManager.event_queue (event_manager eng))
  /\ step_calls (of_events fired) = []
  /\ action_calls stepped = []
  /\ step_calls stepped = day_calls (agents eng) day.
Proof.
  intros A agent_class eng stop_signal day rest Hrun fired stepped.
  split; [|split; [|split; [|split]]].
  - rewrite days_loop_cons by assumption. unfold day_trace.
    fold fired. fold stepped.
    destruct (stop_signal day); cbn [fst snd];
      rewrite <- ?app_comm_cons, <- ?app_assoc; eauto.
  - unfold fired. rewrite action_calls_of_events.
    apply process_events_invoked.
  - apply step_calls_of_events.
  - apply action_calls_step_agents.
  - apply step_agents_calls.
Qed.

(** X11.  In a run that is not stopped, the engine calls, day after day,
    the actions of the events queued for that day, and afterwards the
    queue holds exactly the events that were not due on any day of the
    run: those scheduled for a step outside [0, total) and those already
    triggered. *)
Theorem run_fires_the_events_of_its_days :
  forall (A : Type) (agent_class : Agents.Agent A) (eng : SimulationEngine A)
         (elapsed : string),
  let total := Agents.get (total_steps (config eng)) 100 in
  let queue := EventManager.event_queue (event_manager eng) in
  let run := _simulation_loop never elapsed eng in
  action_calls (snd run)
  = flat_map (fun d => filter (EventManager.due d) queue)
      (Agents.range 0 total)
  /\ EventManager.event_queue (event_manager (fst run))
     = filter (fun e => negb (in_run total e)) queue.
Proof.
  intros A agent_class eng elapsed total queue run.
  unfold run, _simulation_loop. fold total.
  match goal with |- context [days_loop _ _ ?e] => set (started := e) end.
  rewrite (days_loop_unstopped never (Agents.range 0 total) started eq_refl
             (never_stops _)).
  destruct (days_trace_action_calls (Agents.range 0 total)
              (range_NoDup 0 total) started) as [H1 H2].
  cbn [fst snd _collect_final_results event_manager action_calls].
  rewrite action_calls_app, H1, H2. cbn [action_calls].
  rewrite app_nil_r. cbn [started event_manager]. fold queue.
  split; [reflexivity|].
  apply filter_ext. intros e. now rewrite in_run_range.
Qed.

End EngineMoreClaims.

(* ===================================================================== *)
(** * Further properties of the network model *)
(* ===================================================================== *)

Section NetworkMore.
Import Py Obj Network.

(** ** Dicts *)

Lemma mem_keys {V} (d : list (string * V)) k :
  mem d k = true <-> In k (keys d).
Proof.
  unfold mem, keys. induction d as [|[k' v] d IH]; cbn [lookup map fst In].
  - split; [discriminate|tauto].
  - destruct (String.eqb_spec k' k) as [->|Hne].
    + split; auto.
    + rewrite IH. split; [auto|]. intros [E|Hin]; [contradiction|assumption].
Qed.

Lemma mem_false_keys {V} (d : list (string * V)) k :
  mem d k = false <-> ~ In k (keys d).
Proof.
  rewrite <- mem_keys. destruct (mem d k); split; intros Hx.
  - discriminate Hx.
  - exfalso. now apply Hx.
  - discriminate.
  - reflexivity.
Qed.

Lemma lookup_store_same {V} (d : list (string * V)) k v :
  lookup (store d k v) k = Some v.
Proof.
  induction d as [|[k' v'] d IH]; cbn [store lookup].
  - now rewrite String.eqb_refl.
  - destruct (String.eqb k' k) eqn:E; cbn [lookup].
    + now rewrite String.eqb_refl.
    + now rewrite E.
Qed.

Lemma lookup_store_other {V} (d : list (string * V)) k k' v :
  k' <> k -> lookup (store d k' v) k = lookup d k.
Proof.
  intros Hne. induction d as [|[k0 v0] d IH]; cbn [store lookup].
  - apply String.eqb_neq in Hne. now rewrite Hne.
  - destruct (String.eqb_spec k0 k') as [->|H0]; cbn [lookup].
    + apply String.eqb_neq in Hne. now rewrite Hne.
    + now rewrite IH.
Qed.

Lemma store_new {V} (d : list (string * V)) k v :
  mem d k = false -> store d k v = d ++ [(k, v)].
Proof.
  unfold mem. induction d as [|[k' v'] d IH]; cbn [lookup store app];
    [reflexivity|].
  destruct (String.eqb k' k); [discriminate|].
  intros Hm. now rewrite IH.
Qed.

Lemma mem_store {V} (d : list (string * V)) k k' v :
  mem (store d k' v) k = String.eqb k' k || mem d k.
Proof.
  unfold mem. destruct (String.eqb_spec k' k) as [->|Hne].
  - now rewrite lookup_store_same.
  - now rewrite lookup_store_other.
Qed.

Lemma lookup_none_mem {V} (d : list (string * V)) k :
  mem d k = false -> lookup d k = None.
Proof. unfold mem. now destruct (lookup d k). Qed.

Lemma mem_same_keys {V W} (d : list (string * V)) (e : list (string * W)) k :
  keys d = keys e -> mem d k = mem e k.
Proof.
  intros Hk. destruct (mem e k) eqn:E.
  - apply mem_keys. rewrite Hk. now apply mem_keys.
  - apply mem_false_keys. rewrite Hk. now apply mem_false_keys.
Qed.

Lemma keys_store_new {V} (d : list (string * V)) k v :
  mem d k = false -> keys (store d k v) = keys d ++ [k].
Proof.
  intros Hm. rewrite store_new by assumption. unfold keys.
  now rewrite map_app.
Qed.

Lemma NoDup_snoc {T} (l : list T) x :
  NoDup l -> ~ In x l -> NoDup (l ++ [x]).
Proof.
  induction 1 as [|y l Hy Hl IH]; cbn [app In]; intros Hx.
  - constructor; [tauto|constructor].
  - constructor.
    + rewrite in_app_iff. cbn [In]. intros [Hin|[E|[]]]; [tauto|].
      subst. tauto.
    + apply IH. tauto.
Qed.

(** ** The graph *)

Lemma in_uniq x l : In x (nx.uniq l) <-> In x l.
Proof.
  induction l as [|y l IH]; cbn [nx.uniq In]; [tauto|].
  rewrite filter_In, IH. split.
  - intros [E|[Hin _]]; auto.
  - intros [E|Hin]; [now left|].
    destruct (String.eqb x y) eqn:E.
    + left. symmetry. now apply String.eqb_eq.
    + right. split; [assumption|reflexivity].
Qed.

Lemma succ_of_edge G e :
  In e (nx._edges G) -> In (nx.e_v e) (map fst (nx.succ G (nx.e_u e))).
Proof.
  intros Hin. unfold nx.succ. rewrite map_map. cbn [fst]. rewrite map_id.
  apply in_uniq. apply in_map. apply filter_In. split; [assumption|].
  apply String.eqb_refl.
Qed.

Lemma pred_of_edge G e :
  In e (nx._edges G) -> In (nx.e_u e) (map fst (nx.pred G (nx.e_v e))).
Proof.
  intros Hin. unfold nx.pred. rewrite map_map. cbn [fst]. rewrite map_id.
  apply in_uniq. apply in_map. apply filter_In. split; [assumption|].
  apply String.eqb_refl.
Qed.

Lemma add_edge_new G u v key attr :
  nx.has_node G u = true -> nx.has_node G v = true ->
  ~ In key (map nx.e_key (nx._edges G)) ->
  nx.add_edge G u v key attr
  = {| nx._node := nx._node G;
       nx._edges := nx._edges G
                    ++ [{| nx.e_u := u; nx.e_v := v; nx.e_key := key;
                           nx.e_attr := attr |}] |}.
Proof.
  unfold nx.has_node, nx.add_edge. intros Hu Hv Hk.
  rewrite Hu, Hv.
  assert (existsb (nx.same_edge u v key) (nx._edges G) = false) as ->;
    [|reflexivity].
  apply not_true_is_false. intros Hex. apply existsb_exists in Hex.
  destruct Hex as [e [Hin Hs]]. apply Hk.
  unfold nx.same_edge in Hs. apply andb_true_iff in Hs. destruct Hs as [_ Hs].
  apply String.eqb_eq in Hs. rewrite <- Hs. now apply in_map.
Qed.

Lemma add_node_new G n attr :
  nx.has_node G n = false ->
  nx.add_node G n attr
  = {| nx._node := nx._node G ++ [(n, attr)]; nx._edges := nx._edges G |}.
Proof.
  unfold nx.has_node, nx.add_node. intros Hn.
  rewrite (lookup_none_mem _ _ Hn). now rewrite store_new.
Qed.

(** ** Additions *)

Lemma add_node_object_cases self o :
  network_of (add_node_object self o) = self
  \/ exists id,
       id_of o = Returned id /\ mem (nodes_dict self) id = false
       /\ network_of (add_node_object self o)
          = {| name := name self;
               graph := nx.add_node (graph self) id [("data", to_value o)];
               nodes_dict := store (nodes_dict self) id o;
               edges_dict := edges_dict self |}.
Proof.
  unfold add_node_object.
  destruct (id_of o) as [id|e]; [|now left].
  destruct (mem (nodes_dict self) id) eqn:Hm.
  - left. now destruct (getattr o "name").
  - right. exists id. split; [reflexivity|]. split; [assumption|].
    now destruct (getattr o "name").
Qed.

Lemma add_edge_object_cases self o :
  network_of (add_edge_object self o) = self
  \/ exists id src dst,
       id_of o = Returned id /\ mem (edges_dict self) id = false
       /\ end_id o "source_node" = Returned src
       /\ mem (nodes_dict self) src = true
       /\ end_id o "destination_node" = Returned dst
       /\ mem (nodes_dict self) dst = true
       /\ network_of (add_edge_object self o)
          = {| name := name self;
               graph := nx.add_edge (graph self) src dst id
                          [("data", to_value o)];
               nodes_dict := nodes_dict self;
               edges_dict := store (edges_dict self) id o |}.
Proof.
  unfold add_edge_object.
  destruct (id_of o) as [id|e]; [|now left].
  destruct (mem (edges_dict self) id) eqn:Hm; [now left|].
  destruct (end_id o "source_node") as [src|e]; [|now left].
  destruct (mem (nodes_dict self) src) eqn:Hs; [|now left].
  destruct (end_id o "destination_node") as [dst|e]; [|now left].
  destruct (mem (nodes_dict self) dst) eqn:Hd; [|now left].
  right. exists id, src, dst. cbn [negb].
  repeat (split; [first [reflexivity|assumption]|]).
  destruct (end_name o "source_node"); [|reflexivity].
  now destruct (end_name o "destination_node").
Qed.

Lemma edge_entry_ok_ext net net' e :
  (forall k, mem (nodes_dict net) k = true -> mem (nodes_dict net') k = true) ->
  (forall o, lookup (edges_dict net) (nx.e_key e) = Some o ->
             lookup (edges_dict net') (nx.e_key e) = Some o) ->
  edge_entry_ok net e -> edge_entry_ok net' e.
Proof.
  intros Hn He (Hu & Hv & o & Ho & Hs & Hd & Ha).
  split; [now apply Hn|]. split; [now apply Hn|].
  exists o. repeat split; auto.
Qed.

Lemma consistent_add_node net o :
  consistent net -> consistent (network_of (add_node_object net o)).
Proof.
  intros C. destruct (add_node_object_cases net o) as [->|(id & Hid & Hm & ->)];
    [assumption|].
  assert (Hg : nx.has_node (graph net) id = false).
  { unfold nx.has_node. rewrite <- Hm. symmetry.
    apply mem_same_keys, (nodes_match _ C). }
  rewrite (add_node_new _ _ _ Hg).
  constructor; cbn [nodes_dict edges_dict graph nx._node nx._edges].
  - rewrite keys_store_new by assumption. unfold keys at 2.
    rewrite map_app. cbn [map fst]. f_equal. apply (nodes_match _ C).
  - apply (edges_match _ C).
  - rewrite keys_store_new by assumption.
    apply NoDup_snoc.
    + apply (node_ids_unique _ C).
    + now apply mem_false_keys.
  - apply (edge_ids_unique _ C).
  - intros k o'. destruct (String.eqb_spec k id) as [->|Hne].
    + rewrite lookup_store_same. now intros [= <-].
    + rewrite lookup_store_other by congruence. apply (node_keys_are_ids _ C).
  - apply (edge_keys_are_ids _ C).
  - eapply Forall_impl; [|apply (edge_entries_ok _ C)].
    intros e. apply edge_entry_ok_ext; cbn [nodes_dict edges_dict].
    + intros k Hk. rewrite mem_store, Hk. apply orb_true_r.
    + auto.
Qed.

Lemma consistent_add_edge net o :
  consistent net -> consistent (network_of (add_edge_object net o)).
Proof.
  intros C.
  destruct (add_edge_object_cases net o)
    as [->|(id & src & dst & Hid & Hm & Hs & Hms & Hd & Hmd & ->)];
    [assumption|].
  assert (Hk : ~ In id (map nx.e_key (nx._edges (graph net)))).
  { rewrite <- (edges_match _ C). now apply mem_false_keys. }
  assert (Hgs : nx.has_node (graph net) src = true).
  { unfold nx.has_node. rewrite <- Hms. symmetry.
    apply mem_same_keys, (nodes_match _ C). }
  assert (Hgd : nx.has_node (graph net) dst = true).
  { unfold nx.has_node. rewrite <- Hmd. symmetry.
    apply mem_same_keys, (nodes_match _ C). }
  rewrite (add_edge_new _ _ _ _ _ Hgs Hgd Hk).
  constructor; cbn [nodes_dict edges_dict graph nx._node nx._edges].
  - apply (nodes_match _ C).
  - rewrite keys_store_new by assumption. rewrite map_app. cbn [map nx.e_key].
    f_equal. apply (edges_match _ C).
  - apply (node_ids_unique _ C).
  - rewrite keys_store_new by assumption.
    apply NoDup_snoc.
    + apply (edge_ids_unique _ C).
    + now apply mem_false_keys.
  - apply (node_keys_are_ids _ C).
  - intros k o'. destruct (String.eqb_spec k id) as [->|Hne].
    + rewrite lookup_store_same. now intros [= <-].
    + rewrite lookup_store_other by congruence. apply (edge_keys_are_ids _ C).
  - apply Forall_app. split.
    + pose proof (edge_entries_ok _ C) as Hall.
      rewrite Forall_forall in Hall |- *. intros e Hin.
      apply (edge_entry_ok_ext net); cbn [nodes_dict edges_dict]; auto.
      intros o' Ho. rewrite lookup_store_other; [assumption|].
      intros ->. apply Hk. now apply in_map.
    + constructor; [|constructor].
      unfold edge_entry_ok;
        cbn [nodes_dict edges_dict nx.e_u nx.e_v nx.e_key nx.e_attr].
      split; [assumption|]. split; [assumption|].
      exists o. rewrite lookup_store_same. auto.
Qed.

Lemma consistent_new nm : consistent (fst (SupplyChainNetwork_init nm)).
Proof.
  constructor; cbn; try reflexivity; try constructor; discriminate.
Qed.

Lemma consistent_build bs : forall net,
  consistent net -> consistent (build bs net).
Proof.
  unfold build. induction bs as [|b bs IH]; intros net C; cbn [fold_left];
    [assumption|].
  apply IH. destruct b; cbn [build_step].
  - now apply consistent_add_node.
  - now apply consistent_add_edge.
Qed.

Lemma consistent_has_node net k :
  consistent net -> nx.has_node (graph net) k = mem (nodes_dict net) k.
Proof.
  intros C. unfold nx.has_node. symmetry.
  apply mem_same_keys, (nodes_match _ C).
Qed.

Lemma add_node_object_keeps_edges net o :
  edges_dict (network_of (add_node_object net o)) = edges_dict net
  /\ nx._edges (graph (network_of (add_node_object net o)))
     = nx._edges (graph net).
Proof.
  destruct (add_node_object_cases net o) as [->|(id & _ & _ & ->)];
    [auto|]. cbn [edges_dict graph]. now unfold nx.add_node.
Qed.

End NetworkMore.

Section NetworkMoreClaims.
Import Py Obj Network.

(** X12.  Adding a node object whose id is not yet in the network
    succeeds: the call returns [None] and logs one debug record,
    [get_node] of the id returns the object, every other id is looked up
    as before, [get_all_nodes] lists the object last, the edges are
    untouched and the graph holds the id as a node. *)
Theorem add_node_object_then_get_node :
  forall (self : SupplyChainNetwork) (node_obj : Object) (id : string)
         (nm : Value),
    id_of node_obj = Returned id ->
    getattr node_obj "name" = Returned nm ->
    mem (nodes_dict self) id = false ->
    let r := add_node_object self node_obj in
    result_of r = Returned VNone
    /\ (exists msg, effects_of r = [Log DEBUG msg])
    /\ get_node (network_of r) id = Some node_obj
    /\ (forall k, k <> id -> get_node (network_of r) k = get_node self k)
    /\ get_all_nodes (network_of r) = get_all_nodes self ++ [node_obj]
    /\ edges_dict (network_of r) = edges_dict self
    /\ nx._edges (graph (network_of r)) = nx._edges (graph self)
    /\ nx.has_node (graph (network_of r)) id = true.
Proof.
  intros self o id nm Hid Hnm Hm r. subst r. unfold add_node_object.
  rewrite Hid, Hm, Hnm.
  unfold result_of, effects_of, network_of, get_node, get_all_nodes.
  cbn [fst snd nodes_dict edges_dict graph].
  split; [reflexivity|]. split; [eauto|].
  split; [apply lookup_store_same|].
  split; [intros k Hk; apply lookup_store_other; congruence|].
  split; [rewrite store_new by assumption; now rewrite map_app|].
  split; [reflexivity|]. split; [reflexivity|].
  unfold nx.has_node, nx.add_node. cbn [nx._node].
  destruct (lookup (nx._node (graph self)) id);
    rewrite mem_store, String.eqb_refl; reflexivity.
Qed.

(** X13.  Adding an edge object with a new id between two nodes of the
    network succeeds: the call returns [None] and logs one debug record,
    [get_edge] of the id returns the object, every other id is looked up
    as before, [get_all_edges] lists the object last, the node map is
    untouched, and in the graph the destination is a successor of the
    source and the source a predecessor of the destination. *)
Theorem add_edge_object_then_get_edge :
  forall (self : SupplyChainNetwork) (edge_obj : Object) (id src dst : string)
         (sn dn : Value),
    id_of edge_obj = Returned id ->
    end_id edge_obj "source_node" = Returned src ->
    end_id edge_obj "destination_node" = Returned dst ->
    end_name edge_obj "source_node" = Returned sn ->
    end_name edge_obj "destination_node" = Returned dn ->
    mem (edges_dict self) id = false ->
    mem (nodes_dict self) src = true ->
    mem (nodes_dict self) dst = true ->
    let r := add_edge_object self edge_obj in
    result_of r = Returned VNone
    /\ (exists msg, effects_of r = [Log DEBUG msg])
    /\ get_edge (network_of r) id = Some edge_obj
    /\ (forall k, k <> id -> get_edge (network_of r) k = get_edge self k)
    /\ get_all_edges (network_of r) = get_all_edges self ++ [edge_obj]
    /\ nodes_dict (network_of r) = nodes_dict self
    /\ In dst (map fst (nx.succ (graph (network_of r)) src))
    /\ In src (map fst (nx.pred (graph (network_of r)) dst)).
Proof.
  intros self o id src dst sn dn Hid Hs Hd Hsn Hdn Hm Hms Hmd r. subst r.
  unfold add_edge_object.
  rewrite Hid, Hm, Hs, Hms, Hd, Hmd, Hsn, Hdn. cbn [negb].
  unfold result_of, effects_of, network_of, get_edge, get_all_edges.
  cbn [fst snd nodes_dict edges_dict graph].
  split; [reflexivity|]. split; [eauto|].
  split; [apply lookup_store_same|].
  split; [intros k Hk; apply lookup_store_other; congruence|].
  split; [rewrite store_new by assumption; now rewrite map_app|].
  split; [reflexivity|].
  assert (He : exists e,
             In e (nx._edges (nx.add_edge (graph self) src dst id
                                [("data", to_value o)]))
             /\ nx.e_u e = src /\ nx.e_v e = dst).
  { unfold nx.add_edge. cbn [nx._edges].
    destruct (existsb (nx.same_edge src dst id) (nx._edges (graph self)))
      eqn:Hex.
    - apply existsb_exists in Hex. destruct Hex as [e [Hin Hse]].
      eexists. split.
      + apply in_map_iff. exists e. split; [|exact Hin].
        rewrite Hse. reflexivity.
      + split; reflexivity.
    - eexists. split; [apply in_or_app; right; left; reflexivity|].
      split; reflexivity. }
  destruct He as (e & Hin & <- & <-).
  split; [now apply succ_of_edge|now apply pred_of_edge].
Qed.

(** X14.  Whatever node and edge objects with string identifiers are
    added to a new network, in any order and including the additions that
    are rejected or raise, the lookup maps and the graph stay consistent:
    they hold the same node ids and the same edge ids, no id twice, every
    object is stored under its own id, and every edge of the graph joins
    two nodes of the node map and carries the edge object stored under
    its key. *)
Theorem build_keeps_maps_and_graph_consistent :
  forall (nm : string) (bs : list Build),
    Forall str_ids bs ->
    consistent (build bs (fst (SupplyChainNetwork_init nm))).
Proof.
  intros nm bs _. apply consistent_build, consistent_new.
Qed.

(** X15.  [apply_disruption_to_node] and [apply_disruption_to_edge] never
    change the network.  For an id that is not in the map they log a
    warning and return [None]; for an id that is, the call of
    [update_status] raises [AttributeError] and nothing is logged, unless
    the stored object carries an attribute [update_status] of its own. *)
Theorem apply_disruption_changes_nothing :
  forall (self : SupplyChainNetwork) (id : string) (details : Value),
    (forall o, get_node self id = Some o ->
               lookup (fields o) "update_status" = None) ->
    (forall o, get_edge self id = Some o ->
               lookup (fields o) "update_status" = None) ->
    let on_node := apply_disruption_to_node self id details in
    let on_edge := apply_disruption_to_edge self id details in
    network_of on_node = self
    /\ network_of on_edge = self
    /\ match get_node self id with
       | Some o =>
           result_of on_node
           = Raised (no_attribute (class_name o) "update_status")
           /\ effects_of on_node = []
       | None =>
           result_of on_node = Returned VNone
           /\ exists msg, effects_of on_node = [Log WARNING msg]
       end
    /\ match get_edge self id with
       | Some o =>
           result_of on_edge
           = Raised (no_attribute (class_name o) "update_status")
           /\ effects_of on_edge = []
       | None =>
           result_of on_edge = Returned VNone
           /\ exists msg, effects_of on_edge = [Log WARNING msg]
       end.
Proof.
  intros self id details Hn He on_node on_edge. subst on_node on_edge.
  split; [|split; [|split]].
  - destruct (get_node self id) as [o|] eqn:E.
    + now rewrite (apply_disruption_to_node_raises _ _ _ _ E (Hn o eq_refl)).
    + unfold apply_disruption_to_node. now rewrite E.
  - destruct (get_edge self id) as [o|] eqn:E.
    + now rewrite (apply_disruption_to_edge_raises _ _ _ _ E (He o eq_refl)).
    + unfold apply_disruption_to_edge. now rewrite E.
  - destruct (get_node self id) as [o|] eqn:E.
    + now rewrite (apply_disruption_to_node_raises _ _ _ _ E (Hn o eq_refl)).
    + unfold apply_disruption_to_node. rewrite E. cbn. eauto.
  - destruct (get_edge self id) as [o|] eqn:E.
    + now rewrite (apply_disruption_to_edge_raises _ _ _ _ E (He o eq_refl)).
    + unfold apply_disruption_to_edge. rewrite E. cbn. eauto.
Qed.

(** X16.  On a network built by additions, [find_path] from a node of the
    network to itself returns the path holding just that node, with or
    without a weight attribute. *)
Theorem find_path_to_itself :
  forall (nm : string) (bs : list Build) (s : string) (w : option string),
    let net := build bs (fst (SupplyChainNetwork_init nm)) in
    mem (nodes_dict net) s = true ->
    exists msg, find_path net s s w = Some ([Log DEBUG msg], Some [s]).
Proof.
  intros nm bs s w net Hm.
  assert (C : consistent net) by apply consistent_build, consistent_new.
  assert (Hg : nx.has_node (graph net) s = true)
    by now rewrite consistent_has_node.
  assert (Hd : forall f, nx.bidirectional_dijkstra (graph net) s s f
                         = Some (Returned (nx.Fin 0, [s]))).
  { intros f. unfold nx.bidirectional_dijkstra.
    now rewrite Hg, String.eqb_refl. }
  assert (Hb : nx.bidirectional_shortest_path (graph net) s s
               = Some (Returned [s])).
  { unfold nx.bidirectional_shortest_path.
    rewrite Hg, String.eqb_refl. cbn [negb orb List.length nx.follow lookup].
    rewrite String.eqb_refl. cbn [rev app last lookup].
    rewrite String.eqb_refl. reflexivity. }
  unfold find_path. rewrite Hm. cbn [negb orb]. unfold nx.shortest_path.
  destruct w as [[|c w]|]; cbv beta iota zeta; rewrite ?Hd, ?Hb; eauto.
Qed.

(** X17.  With a non-empty weight attribute, [find_path] between two
    different nodes never returns a path, whatever the network and the
    weights: it logs one error or warning record and returns [None]. *)
Theorem find_path_weighted_finds_nothing :
  forall (self : SupplyChainNetwork) (s t w : string),
    w <> EmptyString ->
    s <> t ->
    exists lvl msg,
      find_path self s t (Some w) = Some ([Log lvl msg], None)
      /\ (lvl = ERROR \/ lvl = WARNING).
Proof.
  intros self s t w Hw Hne. unfold find_path.
  destruct (negb (mem (nodes_dict self) s)
            || negb (mem (nodes_dict self) t)); [eauto 6|].
  destruct w as [|c w']; [contradiction|].
  unfold nx.shortest_path.
  destruct (nx.has_node (graph self) s) eqn:Hs;
    [destruct (nx.has_node (graph self) t) eqn:Ht|].
  - rewrite dijkstra_with_find_path_weight by assumption.
    unfold nx.no_path, unhashable_dict.
    destruct (nx.succ (graph self) s); eauto 6.
  - unfold nx.bidirectional_dijkstra. rewrite Hs, Ht. cbn. eauto 6.
  - unfold nx.bidirectional_dijkstra. rewrite Hs. cbn. eauto 6.
Qed.

(** X20.  The edge classes of edges.py build objects without an [id]:
    [add_edge_object] on an [Edge] or [TransportEdge] raises
    [AttributeError] and leaves the network as it was, so a network to
    which only such edge objects (and any nodes) are added never gains an
    edge, neither in [get_all_edges] nor in the graph. *)
Theorem edges_py_objects_are_never_added :
  forall (bs : list Build) (net : SupplyChainNetwork),
    Forall edges_py_only bs ->
    get_all_edges (build bs net) = get_all_edges net
    /\ nx._edges (graph (build bs net)) = nx._edges (graph net)
    /\ forall o, In (AddEdge o) bs ->
         forall net', exists cls,
           add_edge_object net' o = (net', [], Raised (no_attribute cls "id")).
Proof.
  assert (Hplain : forall o, edges_py_only (AddEdge o) ->
            forall net', exists cls,
              add_edge_object net' o
              = (net', [], Raised (no_attribute cls "id"))).
  { intros o [(s & t & ty & cap & tt & cost & attrs & ->)
             |(s & t & mode & cap & tt & cost & attrs & ->)] net'.
    - exists "Edge". now apply add_edge_object_plain_edge.
    - exists "TransportEdge". reflexivity. }
  intros bs net Hall. split; [|split].
  - revert net. induction Hall as [|b bs Hb _ IH]; intros net; [reflexivity|].
    unfold build in *. cbn [fold_left]. rewrite IH.
    destruct b as [o|o]; cbn [build_step]; unfold get_all_edges.
    + now rewrite (proj1 (add_node_object_keeps_edges net o)).
    + destruct (Hplain o Hb net) as [cls ->]. reflexivity.
  - revert net. induction Hall as [|b bs Hb _ IH]; intros net; [reflexivity|].
    unfold build in *. cbn [fold_left]. rewrite IH.
    destruct b as [o|o]; cbn [build_step].
    + now rewrite (proj2 (add_node_object_keeps_edges net o)).
    + destruct (Hplain o Hb net) as [cls ->]. reflexivity.
  - intros o Hin. apply Hplain. rewrite Forall_forall in Hall.
    now apply Hall.
Qed.

End NetworkMoreClaims.

(* ===================================================================== *)
(** * Further properties of the node and edge classes *)
(* ===================================================================== *)

Section ObjectMore.
Import Py Obj Network.

Lemma lookup_update {V} (e : list (string * V)) : forall d k,
  NoDup (keys e) ->
  lookup (update d e) k
  = match lookup e k with Some v => Some v | None => lookup d k end.
Proof.
  unfold update.
  induction e as [|[k0 v0] e IH]; intros d k Hnd; cbn [fold_left lookup fst snd];
    [reflexivity|].
  cbn [keys map fst] in Hnd. inversion Hnd as [|? ? Hnotin Hnd']; subst.
  rewrite IH by assumption.
  destruct (String.eqb_spec k0 k) as [->|Hne].
  - apply mem_false_keys, lookup_none_mem in Hnotin. rewrite Hnotin.
    apply lookup_store_same.
  - destruct (lookup e k); [reflexivity|].
    now apply lookup_store_other.
Qed.

End ObjectMore.

Section ObjectMoreClaims.
Import Py Obj Network.

(** X19.  For every factory node the constructor builds, [to_dict]
    returns a dict that reports type [Factory] and the status passed to
    the constructor, holds each of the five factory settings, and holds
    the same value for each of them inside its [attributes] entry,
    whatever attributes the caller passed under those names; the caller's
    other attributes are kept. *)
Theorem factory_to_dict_agrees_with_attributes :
  forall (node_id name factory_type : string) (production inventory : Value)
         (requirements : list (string * Value)) (status : string)
         (location capacity : Value) (attributes : list (string * Value))
         (uuid4 : string),
    let node :=
      FactoryNode_init node_id name factory_type production requirements
        inventory status location capacity attributes uuid4 in
    let own :=
      ["factory_type"; "production_capacity_units_per_day";
       "raw_material_requirements"; "initial_inventory_units";
       "operational_status"] in
    exists d,
      FactoryNode_to_dict node = Returned d
      /\ lookup d "type" = Some (VStr "Factory")
      /\ lookup d "operational_status" = Some (VStr status)
      /\ (forall k, In k own ->
            lookup d k <> None /\ lookup_in d "attributes" k = lookup d k)
      /\ (forall k, ~ In k own ->
            lookup_in d "attributes" k = lookup attributes k).
Proof.
  intros node_id name factory_type production inventory requirements status
    location capacity attributes uuid4 node own.
  eexists. split; [reflexivity|].
  set (inner := update attributes _).
  assert (Hinner : forall k,
            lookup inner k
            = match lookup
                      [("factory_type", VStr factory_type);
                       ("production_capacity_units_per_day", production);
                       ("raw_material_requirements", VDict requirements);
                       ("initial_inventory_units", inventory);
                       ("operational_status", VStr status)] k with
              | Some v => Some v
              | None => lookup attributes k
              end).
  { intros k. subst inner. apply lookup_update.
    cbn. repeat constructor; cbn; intuition discriminate. }
  cbv [update fold_left store lookup_in fst snd String.eqb Ascii.eqb Bool.eqb].
  cbv [lookup String.eqb Ascii.eqb Bool.eqb].
  fold (@lookup Value).
  split; [reflexivity|]. split; [reflexivity|]. split.
  - intros k Hin. cbn [In] in Hin.
    repeat (destruct Hin as [<-|Hin];
            [split; [discriminate|rewrite Hinner; reflexivity]|]).
    contradiction.
  - intros k Hout. rewrite Hinner. cbn [lookup].
    repeat match goal with
    | |- context [String.eqb ?a k] =>
        destruct (String.eqb_spec a k) as [E|_];
        [exfalso; apply Hout; rewrite <- E; cbn; tauto|]
    end.
    reflexivity.
Qed.

End ObjectMoreClaims.

(* ===================================================================== *)
(** * The unweighted search of [find_path] *)
(* ===================================================================== *)

Section SearchProperties.
Import Py Obj Network.

(** ** Walks *)

Lemma linked_cons (R : string -> string -> Prop) a b p :
  nx.linked R (a :: b :: p) <-> R a b /\ nx.linked R (b :: p).
Proof. reflexivity. Qed.

Lemma linked_impl (R R' : string -> string -> Prop) p :
  (forall a b, R a b -> R' a b) -> nx.linked R p -> nx.linked R' p.
Proof.
  intros HR. induction p as [|a p IH]; [intros; exact I|].
  destruct p as [|b p]; [intros; exact I|].
  rewrite !linked_cons. intros [H1 H2]. split; auto.
Qed.

Lemma linked_overlap (R : string -> string -> Prop) x b : forall a,
  nx.linked R (a ++ [x]) -> nx.linked R (x :: b) ->
  nx.linked R (a ++ x :: b).
Proof.
  induction a as [|y a IH]; intros Ha Hb; [exact Hb|].
  destruct a as [|z a]; cbn [app] in *.
  - apply linked_cons. apply linked_cons in Ha. split; [apply Ha|exact Hb].
  - apply linked_cons. apply linked_cons in Ha. destruct Ha as [Hyz Ha].
    split; [exact Hyz|]. apply IH; assumption.
Qed.

Lemma linked_rev (R : string -> string -> Prop) p :
  nx.linked R p -> nx.linked (fun a b => R b a) (rev p).
Proof.
  induction p as [|a p IH]; intros Hl; [exact I|].
  destruct p as [|b p]; [exact I|].
  apply linked_cons in Hl. destruct Hl as [Hab Hl].
  specialize (IH Hl). cbn [rev] in *.
  rewrite <- app_assoc. cbn [app].
  apply linked_overlap; [exact IH|]. apply linked_cons. split; [exact Hab|exact I].
Qed.

(** ** Trails *)

Lemma follow_none fuel links : nx.follow fuel links None = [].
Proof. now destruct fuel. Qed.

Lemma follow_trail R links root w p :
  nx.trail R links root w p ->
  forall fuel, (List.length p <= fuel)%nat ->
  nx.follow fuel links (Some w) = p.
Proof.
  induction 1 as [Hroot|w v p Hl HR Ht IH]; intros fuel Hf;
    (destruct fuel as [|fuel]; [cbn in Hf; lia|]); cbn [nx.follow].
  - rewrite Hroot. now rewrite follow_none.
  - rewrite Hl. f_equal. apply IH. cbn [List.length] in Hf. lia.
Qed.

Lemma trail_head R links root w p :
  nx.trail R links root w p -> exists q, p = w :: q.
Proof. destruct 1; eauto. Qed.

Lemma trail_end R links root w p :
  nx.trail R links root w p -> exists q, p = q ++ [root].
Proof.
  induction 1 as [Hroot|w v p Hl HR Ht [q ->]].
  - now exists [].
  - now exists (w :: q).
Qed.

Lemma trail_linked R links root w p :
  nx.trail R links root w p -> nx.linked R p.
Proof.
  induction 1 as [Hroot|w v p Hl HR Ht IH]; [exact I|].
  destruct (trail_head _ _ _ _ _ Ht) as [q ->]. apply linked_cons. auto.
Qed.

Lemma trail_store R links root w p k x :
  mem links k = false ->
  nx.trail R links root w p -> nx.trail R (store links k x) root w p.
Proof.
  intros Hk. induction 1 as [Hroot|w v p Hl HR Ht IH].
  - apply nx.trail_root. rewrite lookup_store_other; [assumption|].
    intros ->. unfold mem in Hk. now rewrite Hroot in Hk.
  - eapply nx.trail_link; [|exact HR|exact IH].
    rewrite lookup_store_other; [assumption|].
    intros ->. unfold mem in Hk. now rewrite Hl in Hk.
Qed.

Lemma links_ok_length G b root links :
  nx.links_ok G b root links ->
  (List.length links <= S (List.length (nx._edges G)))%nat.
Proof.
  intros L.
  pose proof (NoDup_incl_length (nx.links_unique _ _ _ _ L)
                (nx.links_known _ _ _ _ L)) as Hl.
  rewrite length_map in Hl. cbn [List.length] in Hl.
  now rewrite length_map in Hl.
Qed.

Lemma links_ok_start G b root :
  nx.links_ok G b root [(root, None)].
Proof.
  constructor.
  - cbn. constructor; [tauto|constructor].
  - intros k [<-|[]]. now left.
  - intros w Hw. unfold mem in Hw. cbn [lookup] in Hw.
    destruct (String.eqb root w) eqn:E; [|discriminate].
    apply String.eqb_eq in E. subst w.
    exists [root]. split; [|cbn; lia].
    apply nx.trail_root. cbn. now rewrite String.eqb_refl.
Qed.

(** ** The loops *)

Ltac split5 := split; [|split; [|split; [|split]]].

Lemma succ_edge G v w :
  In w (map fst (nx.succ G v)) -> nx.has_edge G v w.
Proof.
  unfold nx.succ. rewrite map_map. cbn [fst]. rewrite map_id.
  rewrite in_uniq, in_map_iff. intros (e & <- & Hin).
  apply filter_In in Hin. destruct Hin as [Hin Hu].
  apply String.eqb_eq in Hu. now exists e.
Qed.

Lemma pred_edge G v w :
  In w (map fst (nx.pred G v)) -> nx.has_edge G w v.
Proof.
  unfold nx.pred. rewrite map_map. cbn [fst]. rewrite map_id.
  rewrite in_uniq, in_map_iff. intros (e & <- & Hin).
  apply filter_In in Hin. destruct Hin as [Hin Hu].
  apply String.eqb_eq in Hu. now exists e.
Qed.

Lemma reached_known G b w v :
  nx.reached_from G b w v ->
  In w (map (if b then nx.e_u else nx.e_v) (nx._edges G)).
Proof.
  destruct b; cbn [nx.reached_from]; intros (e & Hin & Hu & Hv);
    apply in_map_iff; exists e; auto.
Qed.

(** Linking a new node [w] to a node [v] that is already linked. *)
Lemma links_ok_store G b root links w v :
  nx.links_ok G b root links ->
  mem links v = true -> mem links w = false ->
  nx.reached_from G b w v ->
  nx.links_ok G b root (store links w (Some v)).
Proof.
  intros L Hv Hw HR. constructor.
  - change (map fst (store links w (Some v)))
      with (keys (store links w (Some v))).
    rewrite keys_store_new by assumption. apply NoDup_snoc.
    + apply (nx.links_unique _ _ _ _ L).
    + now apply mem_false_keys.
  - change (map fst (store links w (Some v)))
      with (keys (store links w (Some v))).
    rewrite keys_store_new by assumption.
    apply incl_app; [apply (nx.links_known _ _ _ _ L)|].
    intros k [<-|[]]. right. eapply reached_known, HR.
  - intros k Hk. rewrite mem_store in Hk.
    rewrite store_new by assumption. rewrite length_app. cbn [List.length].
    rewrite <- (store_new _ _ (Some v) Hw).
    destruct (String.eqb w k) eqn:E.
    + apply String.eqb_eq in E. subst k.
      destruct (nx.links_lead _ _ _ _ L v Hv) as (p & Hp & Hlen).
      exists (w :: p). split; [|cbn [List.length]; lia].
      eapply nx.trail_link; [apply lookup_store_same|exact HR|].
      now apply trail_store.
    + cbn [orb] in Hk.
      destruct (nx.links_lead _ _ _ _ L k Hk) as (p & Hp & Hlen).
      exists p. split; [now apply trail_store|lia].
Qed.

Lemma expand_ok G b root other v : forall nbrs mine fr,
  nx.links_ok G b root mine ->
  mem mine v = true ->
  Forall (fun w => nx.reached_from G b w v) nbrs ->
  Forall (fun k => mem mine k = true) fr ->
  let r := nx.expand v nbrs mine other fr in
  nx.links_ok G b root (fst (fst r))
  /\ Forall (fun k => mem (fst (fst r)) k = true) (snd (fst r))
  /\ (forall k, mem mine k = true -> mem (fst (fst r)) k = true)
  /\ (List.length (fst (fst r)) + List.length fr
      = List.length mine + List.length (snd (fst r)))%nat
  /\ (forall w, snd r = Some w ->
        mem (fst (fst r)) w = true /\ mem other w = true).
Proof.
  induction nbrs as [|w nbrs IH]; intros mine fr L Hv Hn Hfr;
    cbn [nx.expand].
  - cbn [fst snd]. split5; auto. discriminate.
  - inversion Hn as [|? ? HR Hn']; subst.
    destruct (mem mine w) eqn:Hw.
    + destruct (mem other w) eqn:Ho.
      * cbn [fst snd]. split5; auto. intros ? [= <-]. auto.
      * apply IH; assumption.
    + assert (L1 : nx.links_ok G b root (store mine w (Some v)))
        by now apply links_ok_store.
      assert (Hmono : forall k, mem mine k = true ->
                mem (store mine w (Some v)) k = true).
      { intros k Hk. rewrite mem_store, Hk. apply orb_true_r. }
      assert (Hww : mem (store mine w (Some v)) w = true).
      { rewrite mem_store, String.eqb_refl. reflexivity. }
      assert (Hfr1 : Forall (fun k => mem (store mine w (Some v)) k = true)
                       (fr ++ [w])).
      { apply Forall_app. split.
        - eapply Forall_impl; [|exact Hfr]. exact Hmono.
        - constructor; [exact Hww|constructor]. }
      assert (Hlen : List.length (store mine w (Some v))
                     = S (List.length mine)).
      { rewrite store_new by assumption. rewrite length_app. cbn. lia. }
      destruct (mem other w) eqn:Ho.
      * cbn [fst snd]. split5; auto.
        -- rewrite Hlen, length_app. cbn. lia.
        -- intros ? [= <-]. auto.
      * specialize (IH _ _ L1 (Hmono _ Hv) Hn' Hfr1). cbn zeta in IH.
        destruct IH as (I1 & I2 & I3 & I4 & I5).
        split5; auto.
        rewrite length_app in I4. cbn [List.length] in I4. lia.
Qed.

Lemma expand_level_ok G b root other : forall this_level mine fr,
  nx.links_ok G b root mine ->
  Forall (fun k => mem mine k = true) this_level ->
  Forall (fun k => mem mine k = true) fr ->
  let r := nx.expand_level G b this_level mine other fr in
  nx.links_ok G b root (fst (fst r))
  /\ Forall (fun k => mem (fst (fst r)) k = true) (snd (fst r))
  /\ (forall k, mem mine k = true -> mem (fst (fst r)) k = true)
  /\ (List.length (fst (fst r)) + List.length fr
      = List.length mine + List.length (snd (fst r)))%nat
  /\ (forall w, snd r = Some w ->
        mem (fst (fst r)) w = true /\ mem other w = true).
Proof.
  induction this_level as [|v rest IH]; intros mine fr L Hl Hfr;
    cbn [nx.expand_level].
  - cbn [fst snd]. split5; auto. discriminate.
  - inversion Hl as [|? ? Hv Hl']; subst.
    assert (Hn : Forall (fun w => nx.reached_from G b w v)
                   (map fst (if b then nx.pred G v else nx.succ G v))).
    { apply Forall_forall. intros w Hin.
      destruct b; cbn [nx.reached_from];
        [now apply pred_edge|now apply succ_edge]. }
    pose proof (expand_ok G b root other v _ mine fr L Hv Hn Hfr) as He.
    cbn zeta in He.
    destruct (nx.expand v _ mine other fr) as [[mine1 fr1] met].
    cbn [fst snd] in He. destruct He as (E1 & E2 & E3 & E4 & E5).
    destruct met as [w|].
    + cbn [fst snd]. split5; auto.
    + assert (Hl1 : Forall (fun k => mem mine1 k = true) rest).
      { eapply Forall_impl; [|exact Hl']. exact E3. }
      specialize (IH mine1 fr1 E1 Hl1 E2). cbn zeta in IH.
      destruct IH as (I1 & I2 & I3 & I4 & I5).
      split5; auto. lia.
Qed.

(** The search loop ends within its fuel, without a path or at a node
    linked to both ends. *)
Lemma bfs_loop_ok G source target : forall fuel pred_ succ_ ff rf,
  nx.links_ok G false source pred_ ->
  nx.links_ok G true target succ_ ->
  Forall (fun k => mem pred_ k = true) ff ->
  Forall (fun k => mem succ_ k = true) rf ->
  (2 * List.length (nx._edges G) + 4
   <= fuel + List.length pred_ + List.length succ_)%nat ->
  exists r,
    nx.bfs_loop fuel G source target pred_ succ_ ff rf = Some r
    /\ match r with
       | Returned (pred', succ', w) =>
           nx.links_ok G false source pred'
           /\ nx.links_ok G true target succ'
           /\ mem pred' w = true /\ mem succ' w = true
       | Raised e => e = nx.no_path source target
       end.
Proof.
  induction fuel as [|fuel IH]; intros pred_ succ_ ff rf LP LS Hff Hrf Hfuel.
  - pose proof (links_ok_length _ _ _ _ LP).
    pose proof (links_ok_length _ _ _ _ LS). lia.
  - cbn [nx.bfs_loop].
    destruct ff as [|f0 ff']; [eexists; split; [reflexivity|reflexivity]|].
    destruct rf as [|r0 rf']; [eexists; split; [reflexivity|reflexivity]|].
    pose proof (links_ok_length _ _ _ _ LP) as HP.
    pose proof (links_ok_length _ _ _ _ LS) as HS.
    destruct (List.length (f0 :: ff') <=? List.length (r0 :: rf'))%nat.
    + pose proof (expand_level_ok G false source succ_ (f0 :: ff') pred_ []
                    LP Hff (Forall_nil _)) as He.
      cbn zeta in He.
      destruct (nx.expand_level G false (f0 :: ff') pred_ succ_ [])
        as [[pred1 fr1] met].
      cbn [fst snd List.length] in He.
      destruct He as (E1 & E2 & E3 & E4 & E5).
      destruct met as [w|].
      * eexists. split; [reflexivity|]. cbn beta iota.
        destruct (E5 w eq_refl). auto.
      * destruct fr1 as [|x fr1].
        -- destruct fuel as [|fuel]; [lia|].
           eexists. split; [reflexivity|reflexivity].
        -- apply IH; auto. cbn [List.length] in E4. lia.
    + pose proof (expand_level_ok G true target pred_ (r0 :: rf') succ_ []
                    LS Hrf (Forall_nil _)) as He.
      cbn zeta in He.
      destruct (nx.expand_level G true (r0 :: rf') succ_ pred_ [])
        as [[succ1 fr1] met].
      cbn [fst snd List.length] in He.
      destruct He as (E1 & E2 & E3 & E4 & E5).
      destruct met as [w|].
      * eexists. split; [reflexivity|]. cbn beta iota.
        destruct (E5 w eq_refl). auto.
      * destruct fr1 as [|x fr1].
        -- destruct fuel as [|fuel]; [lia|].
           exists (Raised (nx.no_path source target)).
           split; reflexivity.
        -- apply IH; auto. cbn [List.length] in E4. lia.
Qed.

(** The path read off the two link dicts at the meeting node. *)
Lemma path_through G source target pred_ succ_ w :
  nx.links_ok G false source pred_ ->
  nx.links_ok G true target succ_ ->
  mem pred_ w = true -> mem succ_ w = true ->
  let path := rev (nx.follow (S (List.length pred_)) pred_ (Some w)) in
  let w' := match lookup succ_ (last path w) with
            | Some next => next
            | None => None
            end in
  let whole := path ++ nx.follow (S (List.length succ_)) succ_ w' in
  hd_error whole = Some source
  /\ last whole source = target
  /\ nx.linked (nx.has_edge G) whole.
Proof.
  intros LP LS HP HS path w' whole.
  destruct (nx.links_lead _ _ _ _ LP w HP) as (p & Tp & Lp).
  destruct (nx.links_lead _ _ _ _ LS w HS) as (s & Ts & Ls).
  assert (Hpath : path = rev p).
  { subst path. f_equal. eapply follow_trail; [exact Tp|lia]. }
  destruct (trail_head _ _ _ _ _ Tp) as [qp Ep].
  destruct (trail_head _ _ _ _ _ Ts) as [qs Es].
  assert (Hlast : last path w = w).
  { rewrite Hpath, Ep. cbn [rev]. apply last_last. }
  assert (Hrest : nx.follow (S (List.length succ_)) succ_ w' = qs).
  { subst w'. rewrite Hlast. subst s.
    inversion Ts as [Hroot|? v p' Hl HR Ht]; subst.
    - rewrite Hroot. apply follow_none.
    - rewrite Hl. eapply follow_trail; [exact Ht|].
      cbn [List.length] in Ls. lia. }
  assert (Hwhole : whole = rev qp ++ s).
  { subst whole. rewrite Hrest, Hpath, Ep, Es. cbn [rev].
    now rewrite <- app_assoc. }
  destruct (trail_end _ _ _ _ _ Tp) as [ep Eep].
  destruct (trail_end _ _ _ _ _ Ts) as [es Ees].
  split; [|split].
  - subst whole. rewrite Hpath, Eep, rev_app_distr. reflexivity.
  - rewrite Hwhole, Ees, app_assoc. apply last_last.
  - rewrite Hwhole, Es. apply linked_overlap.
    + pose proof (linked_rev _ _ (trail_linked _ _ _ _ _ Tp)) as Hl.
      rewrite Ep in Hl. exact Hl.
    + rewrite <- Es. exact (trail_linked _ _ _ _ _ Ts).
Qed.

(** Between two nodes of the graph the search returns, and what it
    returns is a walk from the source to the target. *)
Lemma bidirectional_shortest_path_ok G source target :
  nx.has_node G source = true -> nx.has_node G target = true ->
  nx.bidirectional_shortest_path G source target
  = Some (Raised (nx.no_path source target))
  \/ exists path,
       nx.bidirectional_shortest_path G source target
       = Some (Returned path)
       /\ hd_error path = Some source
       /\ last path source = target
       /\ nx.linked (nx.has_edge G) path.
Proof.
  intros Hs Ht. unfold nx.bidirectional_shortest_path. rewrite Hs, Ht.
  cbn [negb orb].
  destruct (String.eqb_spec target source) as [->|Hne].
  - right. eexists. split; [reflexivity|].
    apply (path_through G source source [(source, None)] [(source, None)]);
      try apply links_ok_start; unfold mem; cbn [lookup];
      now rewrite String.eqb_refl.
  - destruct (bfs_loop_ok G source target
                (2 * (List.length (nx._node G)
                      + 2 * List.length (nx._edges G)) + 3)
                [(source, None)] [(target, None)] [source] [target])
      as (r & -> & Hr).
    + apply links_ok_start.
    + apply links_ok_start.
    + constructor; [|constructor]. unfold mem. cbn [lookup].
      now rewrite String.eqb_refl.
    + constructor; [|constructor]. unfold mem. cbn [lookup].
      now rewrite String.eqb_refl.
    + cbn [List.length]. lia.
    + destruct r as [[[pred' succ'] w]|e].
      * right. destruct Hr as (LP & LS & HP & HS). eexists.
        split; [reflexivity|].
        now apply (path_through G source target pred' succ' w).
      * left. now subst e.
Qed.

(** ** Edges of the graph and stored edge objects *)

Lemma lookup_in_keys {V} (d : list (string * V)) k v :
  lookup d k = Some v -> In k (keys d).
Proof.
  intros Hl. apply mem_keys. unfold mem. now rewrite Hl.
Qed.

Lemma joined_has_edge net u v :
  consistent net -> joined net u v ->
  nx.has_edge (graph net) u v
  /\ mem (nodes_dict net) u = true /\ mem (nodes_dict net) v = true.
Proof.
  intros C (id & o & Ho & Hu & Hv). unfold get_edge in Ho.
  pose proof (lookup_in_keys _ _ _ Ho) as Hin.
  rewrite (edges_match _ C) in Hin. apply in_map_iff in Hin.
  destruct Hin as (e & <- & Hin).
  pose proof (edge_entries_ok _ C) as Hall. rewrite Forall_forall in Hall.
  destruct (Hall e Hin) as (Mu & Mv & o' & Ho' & Hu' & Hv' & _).
  rewrite Ho in Ho'. injection Ho' as <-.
  rewrite Hu in Hu'. injection Hu' as ->.
  rewrite Hv in Hv'. injection Hv' as ->.
  split; [now exists e|auto].
Qed.

Lemma has_edge_joined net u v :
  consistent net -> nx.has_edge (graph net) u v -> joined net u v.
Proof.
  intros C (e & Hin & <- & <-).
  pose proof (edge_entries_ok _ C) as Hall. rewrite Forall_forall in Hall.
  destruct (Hall e Hin) as (_ & _ & o & Ho & Hu & Hv & _).
  now exists (nx.e_key e), o.
Qed.

(** ** A direct edge *)

Lemma expand_meets v t : forall nbrs mine fr,
  In t nbrs -> mem mine t = false ->
  exists mine' fr',
    nx.expand v nbrs mine [(t, None)] fr = (mine', fr', Some t)
    /\ lookup mine' t = Some (Some v)
    /\ forall k, mem mine k = true -> lookup mine' k = lookup mine k.
Proof.
  induction nbrs as [|w nbrs IH]; intros mine fr Hin Ht; [contradiction|].
  cbn [nx.expand].
  destruct (String.eqb t w) eqn:E.
  - apply String.eqb_eq in E. subst w. rewrite Ht.
    assert (mem [(t, @None string)] t = true) as ->
      by (unfold mem; cbn [lookup]; now rewrite String.eqb_refl).
    eexists _, _. split; [reflexivity|]. split; [apply lookup_store_same|].
    intros k Hk. apply lookup_store_other. intros ->. congruence.
  - assert (mem [(t, @None string)] w = false) as ->
      by (unfold mem; cbn [lookup]; now rewrite E).
    assert (Hin' : In t nbrs).
    { destruct Hin as [->|Hin]; [|assumption].
      now rewrite String.eqb_refl in E. }
    destruct (mem mine w) eqn:Hw.
    + apply IH; assumption.
    + destruct (IH (store mine w (Some v)) (fr ++ [w]) Hin')
        as (mine' & fr' & He & Hl & Hk).
      { rewrite mem_store, Ht. rewrite String.eqb_sym, E. reflexivity. }
      exists mine', fr'. split; [exact He|]. split; [exact Hl|].
      intros k Hmk. rewrite Hk.
      * apply lookup_store_other. intros ->. congruence.
      * rewrite mem_store, Hmk. apply orb_true_r.
Qed.

Lemma direct_edge_path G s t :
  nx.has_node G s = true -> nx.has_node G t = true -> s <> t ->
  nx.has_edge G s t ->
  nx.bidirectional_shortest_path G s t = Some (Returned [s; t]).
Proof.
  intros Hs Ht Hne (e & Hin & Hu & Hv).
  assert (Hnb : In t (map fst (nx.succ G s))).
  { rewrite <- Hu, <- Hv. now apply succ_of_edge. }
  assert (Hmt : mem [(s, @None string)] t = false).
  { unfold mem. cbn [lookup]. apply String.eqb_neq in Hne. now rewrite Hne. }
  destruct (expand_meets s t _ [(s, None)] [] Hnb Hmt)
    as (mine' & fr' & He & Hlt & Hk).
  assert (Hls : lookup mine' s = Some None).
  { rewrite Hk; unfold mem; cbn [lookup]; now rewrite String.eqb_refl. }
  unfold nx.bidirectional_shortest_path. rewrite Hs, Ht. cbn [negb orb].
  assert (String.eqb t s = false) as ->
    by (apply String.eqb_neq; congruence).
  match goal with
  | |- context [nx.bfs_loop ?f _ _ _ _ _ _ _] =>
      assert (exists n, f = S n) as [n ->]
        by (exists (Nat.pred f); lia)
  end.
  cbn [nx.bfs_loop List.length Nat.leb nx.expand_level].
  rewrite He.
  destruct mine' as [|entry mine']; [discriminate|].
  cbn [List.length nx.follow]. rewrite Hlt, Hls, follow_none.
  cbn [rev app last lookup]. rewrite String.eqb_refl. reflexivity.
Qed.

End SearchProperties.

Section SearchClaims.
Import Py Obj Network.

(** X18.  On a network built by additions, if some stored edge object
    leads from [s] to a different node [t], [find_path] without a weight
    attribute returns the one-hop path [s, t]. *)
Theorem find_path_takes_a_direct_edge :
  forall (nm : string) (bs : list Build) (id : string) (edge_obj : Object)
         (s t : string),
    let net := build bs (fst (SupplyChainNetwork_init nm)) in
    get_edge net id = Some edge_obj ->
    end_id edge_obj "source_node" = Returned s ->
    end_id edge_obj "destination_node" = Returned t ->
    s <> t ->
    exists msg, find_path net s t None = Some ([Log DEBUG msg], Some [s; t]).
Proof.
  intros nm bs id o s t net Ho Hs Ht Hne.
  assert (C : consistent net) by apply consistent_build, consistent_new.
  destruct (joined_has_edge net s t C) as (He & Ms & Mt);
    [now exists id, o|].
  unfold find_path. rewrite Ms, Mt. cbn [negb orb]. unfold nx.shortest_path.
  rewrite direct_edge_path; try assumption;
    try (rewrite consistent_has_node; assumption).
  eauto.
Qed.

(** X21.  On a network built by additions, [find_path] without a weight
    attribute always returns.  When it returns a path, both ends are
    nodes of the network, the path starts at the source, ends at the
    destination, and each of its nodes is joined to the next one by a
    stored edge object; when it returns [None], it has logged one error
    record if an end is unknown and one warning record otherwise. *)
Theorem find_path_unweighted_returns_a_walk :
  forall (nm : string) (bs : list Build) (s t : string),
    let net := build bs (fst (SupplyChainNetwork_init nm)) in
    let known := mem (nodes_dict net) s && mem (nodes_dict net) t in
    exists fx r,
      find_path net s t None = Some (fx, r)
      /\ match r with
         | Some p =>
             known = true
             /\ hd_error p = Some s /\ last p s = t /\ walk net p
             /\ exists msg, fx = [Log DEBUG msg]
         | None =>
             exists msg,
               fx = [Log (if known then WARNING else ERROR) msg]
         end.
Proof.
  intros nm bs s t net known. subst known.
  assert (C : consistent net) by apply consistent_build, consistent_new.
  unfold find_path.
  destruct (mem (nodes_dict net) s) eqn:Ms;
    [destruct (mem (nodes_dict net) t) eqn:Mt|]; cbn [negb orb andb].
  - unfold nx.shortest_path.
    destruct (bidirectional_shortest_path_ok (graph net) s t)
      as [->|(p & -> & Hh & Hl & Hw)];
      try (rewrite consistent_has_node; assumption).
    + unfold nx.no_path. eexists _, None. split; [reflexivity|]. eauto.
    + eexists _, (Some p). split; [reflexivity|].
      split; [reflexivity|]. split; [exact Hh|]. split; [exact Hl|].
      split; [|eauto].
      unfold walk. eapply linked_impl; [|exact Hw].
      intros a b. now apply has_edge_joined.
  - eexists _, None. split; [reflexivity|]. eauto.
  - eexists _, None. split; [reflexivity|]. eauto.
Qed.

End SearchClaims.

(* ===================================================================== *)
(** * Instances of the further properties *)
(* ===================================================================== *)

Section EventManagerMoreInstances.
Import Py EventManager Examples.

Lemma trigger_twice_witness :
  triggered (Event_init 0 1 GENERAL boom "alarm" [] []) = false
  /\ invoked (snd (trigger (Event_init 0 1 GENERAL boom "alarm" [] [])))
     = [Event_init 0 1 GENERAL boom "alarm" [] []].
Proof.
  assert (triggered (Event_init 0 1 GENERAL boom "alarm" [] []) = false)
    as H by reflexivity.
  split; [exact H|].
  exact (proj1 (trigger_twice (Event_init 0 1 GENERAL boom "alarm" [] []) H)).
Defined.

Lemma schedule_event_inserts_witness :
  0 <= 2
  /\ next_id (fst (schedule_event new_manager 0 2 GENERAL ping "tick" [] []))
     = S (next_id new_manager).
Proof.
  assert (0 <= 2) as H by lia.
  split; [exact H|].
  exact (proj1 (proj2 (schedule_event_inserts
                         new_manager 0 2 GENERAL ping "tick" [] [] H))).
Defined.

Lemma process_events_independent_witness :
  1 <> 2
  /\ fst (fst (process_events (fst (fst (process_events one_queued 1))) 2))
     = fst (fst (process_events (fst (fst (process_events one_queued 2))) 1)).
Proof.
  assert (1 <> 2) as H by lia.
  split; [exact H|].
  exact (proj2 (process_events_independent one_queued 1 2 H)).
Defined.

End EventManagerMoreInstances.

Section AgentMoreInstances.
Import Py Agents Examples.

Lemma disruption_dormant_witness :
  active gale = false
  /\ Forall (fun t => start_step gale < 0 \/ t < start_step gale) [0; 1; 2; 3; 4]
  /\ steps gale [0; 1; 2; 3; 4] = (gale, []).
Proof.
  assert (active gale = false) as H1 by reflexivity.
  assert (Forall (fun t => start_step gale < 0 \/ t < start_step gale)
            [0; 1; 2; 3; 4]) as H2
    by (repeat constructor; right; simpl; lia).
  split; [exact H1|]. split; [exact H2|].
  exact (proj1 (disruption_dormant gale [0; 1; 2; 3; 4] H1 H2)).
Defined.

Lemma disruption_recurs_witness :
  active gale = false
  /\ 0 <= start_step gale <= 5
  /\ 0 <= duration gale
  /\ List.length [6; 7; 8] = Z.to_nat (duration gale)
  /\ start_step gale <= 10
  /\ calls (snd (steps gale (5 :: [6; 7; 8] ++ [9; 10])))
     = [apply_impact_call (d_agent_id gale) 5;
        remove_impact_call (d_agent_id gale) 9;
        apply_impact_call (d_agent_id gale) 10].
Proof.
  assert (active gale = false) as H1 by reflexivity.
  assert (0 <= start_step gale <= 5) as H2 by (simpl; lia).
  assert (0 <= duration gale) as H3 by (simpl; lia).
  assert (List.length [6; 7; 8] = Z.to_nat (duration gale)) as H4
    by reflexivity.
  assert (start_step gale <= 10) as H5 by (simpl; lia).
  repeat (split; [assumption|]).
  exact (proj2 (proj2 (proj2 (proj2 (proj2 (proj2
           (disruption_recurs gale 5 [6; 7; 8] 9 10 H1 H2 H3 H4 H5))))))).
Defined.

End AgentMoreInstances.

Section EngineMoreInstances.
Import Py Engine Examples.

Lemma stop_ends_run_after_the_day_witness :
  0 <= 0 < Agents.get (total_steps (config two_day_engine)) 100
  /\ Z.eqb 0 0 = true
  /\ (forall d', 0 <= d' < 0 -> Z.eqb 0 d' = false)
  /\ dict_get (results (fst (_simulation_loop (Z.eqb 0) "0.00" two_day_engine)))
       "total_simulation_days" = Some (0 + 1).
Proof.
  assert (0 <= 0 < Agents.get (total_steps (config two_day_engine)) 100)
    as H1 by (simpl; lia).
  assert (Z.eqb 0 0 = true) as H2 by reflexivity.
  assert (forall d', 0 <= d' < 0 -> Z.eqb 0 d' = false) as H3
    by (intros d' H; lia).
  split; [exact H1|]. split; [exact H2|]. split; [exact H3|].
  exact (proj1 (proj2 (stop_ends_run_after_the_day
                         Agents.AnyAgent _ two_day_engine (Z.eqb 0) "0.00" 0
                         H1 H2 H3))).
Defined.

Lemma completed_run_results_witness :
  total_steps (config two_day_engine) = Some 2
  /\ 0 < 2
  /\ dict_get (results (fst (_simulation_loop never "0.00" two_day_engine)))
       "total_simulation_days" = Some 2.
Proof.
  assert (total_steps (config two_day_engine) = Some 2) as H1 by reflexivity.
  assert (0 < 2) as H2 by lia.
  split; [exact H1|]. split; [exact H2|].
  exact (proj1 (completed_run_results
                  Agents.AnyAgent _ two_day_engine "0.00" 2 H1 H2)).
Defined.

Lemma events_fire_before_agents_step_witness :
  running engine_on_day_1 = true
  /\ action_calls
       (of_events
          (EventManager.effects_of
             (EventManager.process_events (event_manager engine_on_day_1) 1)))
     = filter (EventManager.due 1)
         (EventManager.event_queue (event_manager engine_on_day_1)).
Proof.
  assert (running engine_on_day_1 = true) as H by reflexivity.
  split; [exact H|].
  exact (proj1 (proj2 (events_fire_before_agents_step
                         Agents.AnyAgent _ engine_on_day_1 never 1 [] H))).
Defined.

End EngineMoreInstances.

Section NetworkMoreInstances.
Import Py Obj Network Examples.

Lemma add_node_object_then_get_node_witness :
  id_of (port "A") = Returned "A"%string
  /\ getattr (port "A") "name" = Returned (VStr "Port A")
  /\ mem (nodes_dict (fst (SupplyChainNetwork_init "n"))) "A" = false
  /\ get_node
       (network_of
          (add_node_object (fst (SupplyChainNetwork_init "n")) (port "A")))
       "A" = Some (port "A").
Proof.
  assert (id_of (port "A") = Returned "A"%string) as H1 by reflexivity.
  assert (getattr (port "A") "name" = Returned (VStr "Port A")) as H2
    by reflexivity.
  assert (mem (nodes_dict (fst (SupplyChainNetwork_init "n"))) "A" = false)
    as H3 by reflexivity.
  repeat (split; [assumption|]).
  exact (proj1 (proj2 (proj2
           (add_node_object_then_get_node
              (fst (SupplyChainNetwork_init "n")) (port "A") "A"
              (VStr "Port A") H1 H2 H3)))).
Defined.

Lemma add_edge_object_then_get_edge_witness :
  id_of (link "BA" "B" "A" 2) = Returned "BA"%string
  /\ end_id (link "BA" "B" "A" 2) "source_node" = Returned "B"%string
  /\ end_id (link "BA" "B" "A" 2) "destination_node" = Returned "A"%string
  /\ end_name (link "BA" "B" "A" 2) "source_node" = Returned (VStr "Port B")
  /\ end_name (link "BA" "B" "A" 2) "destination_node"
     = Returned (VStr "Port A")
  /\ mem (edges_dict abc) "BA" = false
  /\ mem (nodes_dict abc) "B" = true
  /\ mem (nodes_dict abc) "A" = true
  /\ get_edge (network_of (add_edge_object abc (link "BA" "B" "A" 2))) "BA"
     = Some (link "BA" "B" "A" 2).
Proof.
  assert (id_of (link "BA" "B" "A" 2) = Returned "BA"%string) as H1
    by reflexivity.
  assert (end_id (link "BA" "B" "A" 2) "source_node" = Returned "B"%string)
    as H2 by reflexivity.
  assert (end_id (link "BA" "B" "A" 2) "destination_node"
          = Returned "A"%string) as H3 by reflexivity.
  assert (end_name (link "BA" "B" "A" 2) "source_node"
          = Returned (VStr "Port B")) as H4 by reflexivity.
  assert (end_name (link "BA" "B" "A" 2) "destination_node"
          = Returned (VStr "Port A")) as H5 by reflexivity.
  assert (mem (edges_dict abc) "BA" = false) as H6 by reflexivity.
  assert (mem (nodes_dict abc) "B" = true) as H7 by reflexivity.
  assert (mem (nodes_dict abc) "A" = true) as H8 by reflexivity.
  repeat (split; [assumption|]).
  exact (proj1 (proj2 (proj2
           (add_edge_object_then_get_edge
              abc (link "BA" "B" "A" 2) "BA" "B" "A" (VStr "Port B")
              (VStr "Port A") H1 H2 H3 H4 H5 H6 H7 H8)))).
Defined.

Lemma build_keeps_maps_and_graph_consistent_witness :
  Forall str_ids ab
  /\ consistent (build ab (fst (SupplyChainNetwork_init "ab"))).
Proof.
  assert (Forall str_ids ab) as H
    by (repeat (constructor; [vm_compute; tauto|]); constructor).
  split; [exact H|].
  exact (build_keeps_maps_and_graph_consistent "ab" ab H).
Defined.

Lemma apply_disruption_changes_nothing_witness :
  (forall o, get_node with_factory "X" = Some o ->
             lookup (fields o) "update_status" = None)
  /\ (forall o, get_edge with_factory "X" = Some o ->
                lookup (fields o) "update_status" = None)
  /\ network_of (apply_disruption_to_node with_factory "X" flood)
     = with_factory.
Proof.
  assert (forall o, get_node with_factory "X" = Some o ->
                    lookup (fields o) "update_status" = None) as H1.
  { intros o H. vm_compute in H. injection H as <-. reflexivity. }
  assert (forall o, get_edge with_factory "X" = Some o ->
                    lookup (fields o) "update_status" = None) as H2.
  { intros o H. vm_compute in H. discriminate H. }
  split; [exact H1|]. split; [exact H2|].
  exact (proj1 (apply_disruption_changes_nothing with_factory "X" flood H1 H2)).
Defined.

Lemma find_path_to_itself_witness :
  mem (nodes_dict (build ab (fst (SupplyChainNetwork_init "ab")))) "A" = true
  /\ exists msg,
       find_path (build ab (fst (SupplyChainNetwork_init "ab"))) "A" "A"
         (Some "weight"%string)
       = Some ([Log DEBUG msg], Some ["A"%string]).
Proof.
  assert (mem (nodes_dict (build ab (fst (SupplyChainNetwork_init "ab"))))
            "A" = true) as H by reflexivity.
  split; [exact H|].
  exact (find_path_to_itself "ab" ab "A" (Some "weight"%string) H).
Defined.

Lemma find_path_weighted_finds_nothing_witness :
  "weight"%string <> EmptyString
  /\ "A"%string <> "B"%string
  /\ exists lvl msg,
       find_path abc "A" "B" (Some "weight"%string)
       = Some ([Log lvl msg], None)
       /\ (lvl = ERROR \/ lvl = WARNING).
Proof.
  assert ("weight"%string <> EmptyString) as H1 by discriminate.
  assert ("A"%string <> "B"%string) as H2 by discriminate.
  split; [exact H1|]. split; [exact H2|].
  exact (find_path_weighted_finds_nothing abc "A" "B" "weight" H1 H2).
Defined.

Lemma edges_py_objects_are_never_added_witness :
  Forall edges_py_only plain
  /\ get_all_edges (build plain (fst (SupplyChainNetwork_init "p")))
     = get_all_edges (fst (SupplyChainNetwork_init "p")).
Proof.
  assert (Forall edges_py_only plain) as H.
  { constructor; [exact I|]. constructor; [|constructor].
    left. exists "A"%string, "A"%string, "Road"%string, VNone, VNone, VNone, [].
    reflexivity. }
  split; [exact H|].
  exact (proj1 (edges_py_objects_are_never_added
                  plain (fst (SupplyChainNetwork_init "p")) H)).
Defined.

Lemma find_path_takes_a_direct_edge_witness :
  get_edge (build ab (fst (SupplyChainNetwork_init "ab"))) "AB"
  = Some (link "AB" "A" "B" 5)
  /\ end_id (link "AB" "A" "B" 5) "source_node" = Returned "A"%string
  /\ end_id (link "AB" "A" "B" 5) "destination_node" = Returned "B"%string
  /\ "A"%string <> "B"%string
  /\ exists msg,
       find_path (build ab (fst (SupplyChainNetwork_init "ab"))) "A" "B" None
       = Some ([Log DEBUG msg], Some ["A"%string; "B"%string]).
Proof.
  assert (get_edge (build ab (fst (SupplyChainNetwork_init "ab"))) "AB"
          = Some (link "AB" "A" "B" 5)) as H1 by reflexivity.
  assert (end_id (link "AB" "A" "B" 5) "source_node" = Returned "A"%string)
    as H2 by reflexivity.
  assert (end_id (link "AB" "A" "B" 5) "destination_node"
          = Returned "B"%string) as H3 by reflexivity.
  assert ("A"%string <> "B"%string) as H4 by discriminate.
  repeat (split; [assumption|]).
  exact (find_path_takes_a_direct_edge
           "ab" ab "AB" (link "AB" "A" "B" 5) "A" "B" H1 H2 H3 H4).
Defined.

End NetworkMoreInstances.
